(** * my-feed compression bot: content identity, dedupe ledger, compression
      planner, manifest rewrite and job runners

    Shallow embedding of [src/compression_bot/main.py] (module [Main]) and of
    [src/compression_bot/instagram_to_HLS_dropbox.py] (module [HlsDropbox]),
    with the properties of the specification stated over it.

    Conventions.
    - A Python [str] is a [string]; each [ascii] stands for one code point
      below 256, and [encode] is UTF-8 on that range.
    - Python [int] is [Z].  Python [float] arithmetic is carried out exactly,
      over [Q]; [int(x)] truncates toward zero.  Neither the rounding nor
      the range of binary64 is modelled: where a product falls just below
      an integer in binary64 ([660 * 0.35] is [230.99999999999997]),
      Python's [int] gives one less than the exact value computed here, and
      a number beyond the range of a float raises [OverflowError] in Python
      and is a number like any other here.
    - A Python [set] of strings is a [gset string], a [dict] a [gmap].
    - Code that calls the outside world (yt-dlp, ffmpeg, Dropbox, Telegram,
      the file system) runs in the monad [M]: a state ([world]) and exception
      monad in which every external call is answered by an [environment].
    - The [files] of a [world] are the media files; the ledger file
      [processed_videos.json] is the field [db_file].  Every Dropbox call
      goes through the [dbx] property, whose token refresh is part of the
      call and fails with it; the file [dropbox_token_cache.json], which a
      refresh rewrites, is not part of the [world]. *)

From Stdlib Require Import ZArith QArith Qround Ascii String List Lia Bool.
From Stdlib Require Import DecimalString.
From stdpp Require Import gmap strings list.
Import ListNotations.

#[local] Open Scope string_scope.
#[local] Open Scope Z_scope.

(* ===================================================================== *)
(** * Python strings *)
(* ===================================================================== *)

Module PyStr.

(** Code point of a character. *)
Definition ord (c : ascii) : Z := Z.of_N (N_of_ascii c).

Definition chr (n : Z) : ascii := ascii_of_N (Z.to_N (n mod 256)).

(** [s.startswith(p)], returning what follows the prefix. *)
Fixpoint strip_prefix (p s : string) : option string :=
  match p, s with
  | EmptyString, _ => Some s
  | String a p', String b s' =>
      if Ascii.eqb a b then strip_prefix p' s' else None
  | String _ _, EmptyString => None
  end.

Definition startswith (s p : string) : bool :=
  match strip_prefix p s with Some _ => true | None => false end.

(** [s.endswith(p)]. *)
Definition endswith (s p : string) : bool :=
  let n := String.length s in
  let k := String.length p in
  (k <=? n)%nat && String.eqb (substring (n - k) k s) p.

(** [s[:n]]. *)
Definition take (n : nat) (s : string) : string := substring 0 n s.

(** [s.encode()]: UTF-8, for code points below 256. *)
Fixpoint encode (s : string) : list Z :=
  match s with
  | EmptyString => []
  | String c s' =>
      let n := ord c in
      if n <? 128 then n :: encode s'
      else Z.lor 192 (Z.shiftr n 6) :: Z.lor 128 (Z.land n 63) :: encode s'
  end.

(** [s.split("\n")]: the lines of [s]; never empty. *)
Definition newline : ascii := "010"%char.

Fixpoint split_lines (s : string) : list string :=
  match s with
  | EmptyString => [EmptyString]
  | String c s' =>
      if Ascii.eqb c newline then EmptyString :: split_lines s'
      else match split_lines s' with
           | l :: ls => String c l :: ls
           | [] => [String c EmptyString]
           end
  end.

(** ["\n".join(ls)]. *)
Fixpoint join_lines (ls : list string) : string :=
  match ls with
  | [] => EmptyString
  | [l] => l
  | l :: ls' => l ++ String newline (join_lines ls')
  end.

(** Reading in text mode, as [Path.read_text] does: [\r\n] and a lone
    [\r] are read as [\n]. *)
Definition carriage_return : ascii := "013"%char.

Fixpoint universal_newlines (s : string) : string :=
  match s with
  | EmptyString => EmptyString
  | String c s' =>
      if Ascii.eqb c carriage_return then
        String newline
          (match s' with
           | String c' s'' =>
               if Ascii.eqb c' newline then universal_newlines s''
               else universal_newlines s'
           | EmptyString => EmptyString
           end)
      else String c (universal_newlines s')
  end.

(** [str.isspace] on one character, which is also what [\s] matches in a
    [str] pattern: TAB..CR, FS..US, space, NEL and NBSP. *)
Definition isspace (c : ascii) : bool :=
  let n := ord c in
  ((9 <=? n) && (n <=? 13)) || ((28 <=? n) && (n <=? 32))
  || (n =? 133) || (n =? 160).

(** [p in s]. *)
Fixpoint contains (p s : string) : bool :=
  startswith s p
  || match s with
     | EmptyString => false
     | String _ s' => contains p s'
     end.

(** [s.replace(old, new)] for a non-empty [old]: [skip] counts the
    characters of a replaced occurrence still to be passed over. *)
Fixpoint replace_from (old new : string) (skip : nat) (s : string) : string :=
  match s with
  | EmptyString => EmptyString
  | String c s' =>
      match skip with
      | S k => replace_from old new k s'
      | O =>
          if startswith s old
          then new ++ replace_from old new (String.length old - 1) s'
          else String c (replace_from old new 0 s')
      end
  end.

Definition replace (old new s : string) : string := replace_from old new 0 s.

(** [s.strip()]. *)
Fixpoint lstrip (s : string) : string :=
  match s with
  | EmptyString => EmptyString
  | String c s' => if isspace c then lstrip s' else s
  end.

Fixpoint rstrip (s : string) : string :=
  match s with
  | EmptyString => EmptyString
  | String c s' =>
      match rstrip s' with
      | EmptyString => if isspace c then EmptyString else String c EmptyString
      | r => String c r
      end
  end.

Definition strip (s : string) : string := rstrip (lstrip s).

(** [n] in decimal, and C's ["%05d"]. *)
Definition decimal (n : nat) : string :=
  NilZero.string_of_uint (Nat.to_uint n).

Fixpoint zeros (k : nat) : string :=
  match k with
  | O => EmptyString
  | S k' => String "0" (zeros k')
  end.

Definition pad5 (n : nat) : string :=
  let d := decimal n in zeros (5 - String.length d) ++ d.

End PyStr.

(* ===================================================================== *)
(** * hashlib.md5 (RFC 1321), on byte lists *)
(* ===================================================================== *)

Module MD5.

Definition mask32 : Z := 4294967295.
Definition w32 (x : Z) : Z := Z.land x mask32.
Definition add32 (x y : Z) : Z := w32 (x + y).
Definition not32 (x : Z) : Z := Z.lxor (w32 x) mask32.
Definition rotl32 (x : Z) (n : Z) : Z :=
  w32 (Z.lor (Z.shiftl x n) (Z.shiftr (w32 x) (32 - n))).

Definition shifts : list Z :=
  [7; 12; 17; 22; 7; 12; 17; 22; 7; 12; 17; 22; 7; 12; 17; 22;
   5; 9; 14; 20; 5; 9; 14; 20; 5; 9; 14; 20; 5; 9; 14; 20;
   4; 11; 16; 23; 4; 11; 16; 23; 4; 11; 16; 23; 4; 11; 16; 23;
   6; 10; 15; 21; 6; 10; 15; 21; 6; 10; 15; 21; 6; 10; 15; 21].

(** [floor (2^32 * abs (sin (i + 1)))]. *)
Definition sines : list Z :=
  [3614090360; 3905402710; 606105819; 3250441966; 4118548399; 1200080426;
   2821735955; 4249261313; 1770035416; 2336552879; 4294925233; 2304563134;
   1804603682; 4254626195; 2792965006; 1236535329; 4129170786; 3225465664;
   643717713; 3921069994; 3593408605; 38016083; 3634488961; 3889429448;
   568446438; 3275163606; 4107603335; 1163531501; 2850285829; 4243563512;
   1735328473; 2368359562; 4294588738; 2272392833; 1839030562; 4259657740;
   2763975236; 1272893353; 4139469664; 3200236656; 681279174; 3936430074;
   3572445317; 76029189; 3654602809; 3873151461; 530742520; 3299628645;
   4096336452; 1126891415; 2878612391; 4237533241; 1700485571; 2399980690;
   4293915773; 2240044497; 1873313359; 4264355552; 2734768916; 1309151649;
   4149444226; 3174756917; 718787259; 3951481745].

Record state := State { sa : Z; sb : Z; sc : Z; sd : Z }.

Definition init : state :=
  State 1732584193 4023233417 2562383102 271733878.

(** The message, padded to a multiple of 64 bytes. *)
Definition le_bytes (n : nat) (x : Z) : list Z :=
  map (fun i => Z.land (Z.shiftr x (8 * Z.of_nat i)) 255) (seq 0 n).

Definition pad (msg : list Z) : list Z :=
  let len := Z.of_nat (List.length msg) in
  let zeros := Z.to_nat ((55 - len) mod 64) in
  msg ++ 128 :: repeat 0 zeros ++ le_bytes 8 ((8 * len) mod 2 ^ 64).

Definition word_of (bs : list Z) : Z :=
  fold_right (fun b acc => b + 256 * acc) 0 bs.

Fixpoint words (n : nat) (bs : list Z) : list Z :=
  match n with
  | O => []
  | S n' => word_of (firstn 4 bs) :: words n' (skipn 4 bs)
  end.

Definition round (m : list Z) (i : nat) (st : state) : state :=
  let '(State a b c d) := st in
  let iz := Z.of_nat i in
  let '(f, g) :=
    if iz <? 16 then (Z.lor (Z.land b c) (Z.land (not32 b) d), iz)
    else if iz <? 32 then
      (Z.lor (Z.land d b) (Z.land (not32 d) c), (5 * iz + 1) mod 16)
    else if iz <? 48 then (Z.lxor b (Z.lxor c d), (3 * iz + 5) mod 16)
    else (Z.lxor c (Z.lor b (not32 d)), (7 * iz) mod 16) in
  let f' := add32 (add32 (add32 f a) (nth i sines 0)) (nth (Z.to_nat g) m 0) in
  State d (add32 b (rotl32 f' (nth i shifts 0))) b c.

Definition block (st : state) (m : list Z) : state :=
  let st' := fold_left (fun s i => round m i s) (seq 0 64) st in
  State (add32 (sa st) (sa st')) (add32 (sb st) (sb st'))
        (add32 (sc st) (sc st')) (add32 (sd st) (sd st')).

Fixpoint blocks (n : nat) (st : state) (bs : list Z) : state :=
  match n with
  | O => st
  | S n' => blocks n' (block st (words 16 (firstn 64 bs))) (skipn 64 bs)
  end.

Definition digest (msg : list Z) : list Z :=
  let p := pad msg in
  let st := blocks (Nat.div (List.length p) 64) init p in
  le_bytes 4 (sa st) ++ le_bytes 4 (sb st)
  ++ le_bytes 4 (sc st) ++ le_bytes 4 (sd st).

Definition hex_digit (n : Z) : ascii :=
  if n <? 10 then PyStr.chr (48 + n) else PyStr.chr (87 + n).

Fixpoint hex (bs : list Z) : string :=
  match bs with
  | [] => EmptyString
  | b :: bs' =>
      String (hex_digit (Z.land (Z.shiftr b 4) 15))
        (String (hex_digit (Z.land b 15)) (hex bs'))
  end.

(** [hashlib.md5(msg).hexdigest()]. *)
Definition hexdigest (msg : list Z) : string := hex (digest msg).

End MD5.

(* ===================================================================== *)
(** * ContentIdentity: [DuplicateTracker.extract_video_id]

    The same function, with the same body, is in both source files. *)
(* ===================================================================== *)

Module ContentIdentity.

(** The character class [[A-Za-z0-9_-]]. *)
Definition is_id_char (c : ascii) : bool :=
  let n := PyStr.ord c in
  ((65 <=? n) && (n <=? 90)) || ((97 <=? n) && (n <=? 122))
  || ((48 <=? n) && (n <=? 57)) || (n =? 95) || (n =? 45).

(** The greedy group [([A-Za-z0-9_-]+)] at the head of [s]: the longest run
    of identifier characters (empty when there is none). *)
Fixpoint id_run (s : string) : string :=
  match s with
  | EmptyString => EmptyString
  | String c s' => if is_id_char c then String c (id_run s') else EmptyString
  end.

(** One alternative of [/(p|reel)/([A-Za-z0-9_-]+)] anchored at the head of
    [s]; [marker] is ["/p/"] or ["/reel/"].  The answer is group 2. *)
Definition group_after (marker s : string) : option string :=
  match PyStr.strip_prefix marker s with
  | Some rest =>
      match id_run rest with
      | EmptyString => None
      | g => Some g
      end
  | None => None
  end.

(** The pattern anchored at the head of [s]: the alternative [p] is tried
    first, then [reel]. *)
Definition match_here (s : string) : option string :=
  match group_after "/p/" s with
  | Some g => Some g
  | None => group_after "/reel/" s
  end.

(** [re.search(r'/(p|reel)/([A-Za-z0-9_-]+)', url)], answering group 2 of
    the leftmost match. *)
Fixpoint re_search (s : string) : option string :=
  match match_here s with
  | Some g => Some g
  | None =>
      match s with
      | EmptyString => None
      | String _ s' => re_search s'
      end
  end.

(** [hashlib.md5(url.encode()).hexdigest()[:12]]. *)
Definition md5_short (url : string) : string :=
  PyStr.take 12 (MD5.hexdigest (PyStr.encode url)).

Definition extract_video_id (url : string) : string :=
  match re_search url with
  | Some g => g
  | None => md5_short url
  end.

End ContentIdentity.

(* ===================================================================== *)
(** * Python numbers *)
(* ===================================================================== *)

Module PyNum.

(** [int(x)] on a float: truncation toward zero. *)
Definition py_int (x : Q) : Z := Z.quot (Qnum x) (Zpos (Qden x)).

(** [x > y], [x < y] on floats. *)
Definition gt (x y : Q) : bool := negb (Qle_bool x y).
Definition lt (x y : Q) : bool := negb (Qle_bool y x).

(** [min(x, y)] answers its first argument unless the second is smaller;
    [max(x, y)] answers its first argument unless the second is larger. *)
Definition min (x y : Q) : Q := if lt y x then y else x.
Definition max (x y : Q) : Q := if gt y x then y else x.

(** [st_size / (1024 * 1024)]. *)
Definition megabytes (st_size : Z) : Q := inject_Z st_size / 1048576.

End PyNum.

(* ===================================================================== *)
(** * What ffprobe reports and what ffmpeg is asked for *)
(* ===================================================================== *)

(** A key of ffprobe's ["format"] object, whose values ffprobe writes as
    strings: the key is [Absent]; or its value is the empty string
    ([Blank]), a string that [float] or [int] turns into the number [a]
    ([Value a]), or any other string, on which [float] or [int] raises
    [ValueError] ([Garbled]).  A duration that [float] reads as [nan] or
    [inf] has no [Value] of its own: the code uses the duration only in
    [duration > 0] and as a divisor, where [nan] and [-inf] act as
    [Value 0] does, and [inf] as does a [Value] so large that the estimated
    bitrate is 0. *)
Inductive field (A : Type) : Type :=
| Absent
| Blank
| Garbled
| Value (a : A).
Arguments Absent {A}.
Arguments Blank {A}.
Arguments Garbled {A}.
Arguments Value {A} a.

(** [info.get("format", {})], as far as the code reads it.  An ffprobe that
    fails yields [{}], which is [no_format]. *)
Record format_info := FormatInfo {
  fmt_duration : field Q;
  fmt_bit_rate : field Z
}.

Definition no_format : format_info := FormatInfo Absent Absent.

Inductive preset := Medium | Fast | Veryfast.

(** The arguments of one ffmpeg run that vary: [-preset], [-crf] (when given),
    [-b:v], [-maxrate], [-bufsize], [-b:a], all bitrates in kbps. *)
Record ffmpeg_args := FfmpegArgs {
  arg_preset : preset;
  arg_crf : option Z;
  arg_bv : Z;
  arg_maxrate : Z;
  arg_bufsize : Z;
  arg_ba : Z
}.

(** [preset_rank]: how fast the preset is. *)
Definition preset_rank (p : preset) : nat :=
  match p with Medium => 0 | Fast => 1 | Veryfast => 2 end.

(* ===================================================================== *)
(** * CompressionPlanner of main.py: the pure part of
      [VideoProcessor.aggressive_compress] *)
(* ===================================================================== *)

Module MainPlanner.
Import PyNum.

(** Line 249: [float(fmt.get("duration", 0.0) or 0.0)].  A missing or
    empty duration is [0.0]; [None] is the [ValueError] of [float] on a
    garbled one, which is raised before anything else is computed. *)
Definition duration_of (fmt : format_info) : option Q :=
  match fmt_duration fmt with
  | Absent | Blank => Some 0%Q
  | Garbled => None
  | Value d => Some d
  end.

(** Lines 254-259: the measured bitrate.  An empty [bit_rate] is falsy and
    skipped; the [ValueError] of [int] on a garbled one is caught. *)
Definition measured_kbps (fmt : format_info) : option Z :=
  match fmt_bit_rate fmt with
  | Absent | Blank => None
  | Garbled => None
  | Value b => Some (b / 1000)
  end.

(** Lines 261-266: the measured bitrate unless it is zero, else an
    estimate, else 2000. *)
Definition current_bitrate_kbps
    (fmt : format_info) (orig_size_mb duration : Q) : Z :=
  match measured_kbps fmt with
  | Some (Zpos _ as k) | Some (Zneg _ as k) => k
  | _ =>
      if gt duration 0 then py_int ((orig_size_mb * 8 * 1024) / duration)
      else 2000
  end.

(** Lines 268-284: the tier table: fraction of the current bitrate, cap,
    CRF and preset. *)
Definition tier (orig_size_mb : Q) : Q * Q * Z * preset :=
  if gt orig_size_mb 50 then ((35 # 100)%Q, 1500%Q, 30, Medium)
  else if gt orig_size_mb 20 then ((4 # 10)%Q, 2000%Q, 28, Medium)
  else if gt orig_size_mb 5 then ((45 # 100)%Q, 1500%Q, 27, Medium)
  else ((5 # 10)%Q, 1000%Q, 26, Medium).

Definition fraction (orig_size_mb : Q) : Q := (tier orig_size_mb).1.1.1.
Definition cap (orig_size_mb : Q) : Q := (tier orig_size_mb).1.1.2.
Definition crf (orig_size_mb : Q) : Z := (tier orig_size_mb).1.2.
Definition tier_preset (orig_size_mb : Q) : preset := (tier orig_size_mb).2.

(** Lines 270-286: [max(int(min(current * fraction, cap)), 150)]. *)
Definition target_kbps (orig_size_mb : Q) (current : Z) : Z :=
  Z.max
    (py_int (min (inject_Z current * fraction orig_size_mb)
                 (cap orig_size_mb)))
    150.

(** Lines 291-301: the first pass. *)
Definition first_pass (orig_size_mb : Q) (current : Z) : ffmpeg_args :=
  let t := target_kbps orig_size_mb current in
  FfmpegArgs (tier_preset orig_size_mb) (Some (crf orig_size_mb)) t
             (py_int (inject_Z t * (12 # 10))) (py_int (inject_Z (t * 2)))
             96.

(** Lines 312-320: the fallback pass. *)
Definition lower_kbps (target : Z) : Z :=
  Z.max 150 (py_int (inject_Z target * (6 # 10))).

Definition fallback_pass (target : Z) : ffmpeg_args :=
  let l := lower_kbps target in
  FfmpegArgs Veryfast None l l (l * 2) 64.

(** [plan]: from the probe and the size in bytes to the first pass. *)
Definition plan (fmt : format_info) (st_size : Z) : option ffmpeg_args :=
  match duration_of fmt with
  | None => None
  | Some duration =>
      let orig_size_mb := megabytes st_size in
      Some (first_pass orig_size_mb
              (current_bitrate_kbps fmt orig_size_mb duration))
  end.

End MainPlanner.

(* ===================================================================== *)
(** * CompressionPlanner of instagram_to_HLS_dropbox.py: the pure part of
      [VideoProcessor.compress_video] *)
(* ===================================================================== *)

Module HlsPlanner.
Import PyNum.

(** Line 288: [float(format_info.get('duration', 30))]; [None] is the
    [ValueError] of [float], which the empty string raises too. *)
Definition duration_of (fmt : format_info) : option Q :=
  match fmt_duration fmt with
  | Absent => Some 30%Q
  | Blank | Garbled => None
  | Value d => Some d
  end.

(** Lines 291-295; [None] is the [ValueError] of [int(...)].  An empty
    [bit_rate] is falsy and takes the estimate, as a missing one does. *)
Definition current_bitrate_kbps
    (fmt : format_info) (file_size_mb duration : Q) : option Z :=
  match fmt_bit_rate fmt with
  | Value b => Some (b / 1000)
  | Garbled => None
  | Absent | Blank =>
      Some (if gt duration 0
            then py_int ((file_size_mb * 8 * 1024) / duration)
            else 1000)
  end.

(** Lines 300-319. *)
Definition tier (file_size_mb : Q) : Q * Q * Z * preset :=
  if gt file_size_mb 50 then ((2 # 10)%Q, 600%Q, 34, Medium)
  else if gt file_size_mb 20 then ((25 # 100)%Q, 700%Q, 33, Medium)
  else if gt file_size_mb 5 then ((3 # 10)%Q, 500%Q, 32, Fast)
  else ((35 # 100)%Q, 400%Q, 31, Fast).

Definition fraction (file_size_mb : Q) : Q := (tier file_size_mb).1.1.1.
Definition cap (file_size_mb : Q) : Q := (tier file_size_mb).1.1.2.
Definition crf (file_size_mb : Q) : Z := (tier file_size_mb).1.2.
Definition tier_preset (file_size_mb : Q) : preset := (tier file_size_mb).2.

(** Lines 302-322: [max(min(current * fraction, cap), 150)], a float. *)
Definition target_bitrate (file_size_mb : Q) (current : Z) : Q :=
  max (min (inject_Z current * fraction file_size_mb) (cap file_size_mb))
      150.

(** Lines 330-345. *)
Definition encode_args (file_size_mb : Q) (current : Z) : ffmpeg_args :=
  let t := target_bitrate file_size_mb current in
  FfmpegArgs (tier_preset file_size_mb) (Some (crf file_size_mb))
             (py_int t) (py_int (t * (11 # 10))) (py_int (t * (15 # 10)))
             128.

Definition plan (fmt : format_info) (st_size : Z) : option ffmpeg_args :=
  match duration_of fmt with
  | None => None
  | Some duration =>
      let file_size_mb := megabytes st_size in
      match current_bitrate_kbps fmt file_size_mb duration with
      | None => None
      | Some current => Some (encode_args file_size_mb current)
      end
  end.

End HlsPlanner.

(* ===================================================================== *)
(** * The manifest rewrite of [VideoProcessor.upload_hls_folder] (main.py,
      lines 403-412) *)
(* ===================================================================== *)

Module Manifest.

(** Whether the pattern [^[^#\s].*\.ts$] (with [re.MULTILINE]) matches on
    the line [l].  [^] and [$] anchor at the line's ends and [.] does not
    cross a newline, so a match is always one whole line: a first character
    that is neither [#] nor white space, then anything, then [.ts]. *)
Definition is_segment_line (l : string) : bool :=
  match l with
  | EmptyString => false
  | String c rest =>
      negb (Ascii.eqb c "#") && negb (PyStr.isspace c)
      && PyStr.endswith rest ".ts"
  end.

(** [replace_segment_url(match)], on [match.group(0)]. *)
Definition replace_segment_url
    (segment_urls : gmap string string) (filename : string) : string :=
  if PyStr.endswith filename ".ts" then
    match segment_urls !! filename with
    | Some url => url
    | None => filename
    end
  else filename.

Definition rewrite_line
    (segment_urls : gmap string string) (l : string) : string :=
  if is_segment_line l then replace_segment_url segment_urls l else l.

(** [re.sub(pattern, replace_segment_url, content, flags=re.MULTILINE)]. *)
Definition fix_playlist
    (segment_urls : gmap string string) (content : string) : string :=
  PyStr.join_lines (map (rewrite_line segment_urls) (PyStr.split_lines content)).

End Manifest.

(* ===================================================================== *)
(** * The runtime: exceptions, the outside world, the monad [M] *)
(* ===================================================================== *)

(** A path, as its components: [Path("video") / "hls" / vid] is
    [["video"; "hls"; vid]]. *)
Abbreviation path := (list string) (only parsing).

Inductive exn_class :=
| ApiError | AttributeError | CalledProcessError | FileNotFoundError
| ValueError | OtherError.

(** A Python exception: its class and [str(e)] (for a
    [CalledProcessError], what the program wrote to stderr). *)
Record exn := Exn { exn_cls : exn_class; exn_msg : string }.

Inductive result (A : Type) : Type :=
| Ret (a : A)
| Raise (e : exn).
Arguments Ret {A} a.
Arguments Raise {A} e.

(** Messages sent or edited through Telegram, by kind. *)
Inductive notice :=
| PleaseSendUrl | Starting | AlreadyProcessed | Downloading | Compressing
| GeneratingHls | Uploading
| Success (link : string)
| Failed (reason : string)
| Processing | DownloadedCompressing | CompressedUploading
| FinalFailure (reason : string).

(** The logger lines the properties refer to. *)
Inductive logline :=
| DownloadedTo (p : path)
| LargerThanOriginal
| CompressionFinished (p : path)
| HlsGenerated (p : path)
| UploadComplete (video_id : string)
| ProcessingError
| HttpBgError
| HlsProcessingComplete
| AttemptFailed (n : Z)
| ProcessingCompleted
| Retrying (n : Z)
| FailedPermanently.

(** What a job does that can be observed from outside.  The boolean of an
    external call tells whether it returned ([true]) or raised ([false]). *)
Inductive event :=
| Telegram (n : notice) (ok : bool)
| YtDlp (url : string) (ok : bool)
| Ffprobe (input : path) (ok : bool)
| Ffmpeg (input : path) (args : ffmpeg_args) (ok : bool)
| FfmpegHls (input outdir : path) (seg_seconds : Z) (ok : bool)
| FilesUpload (remote body : string) (ok : bool)
| CreateLink (remote : string) (ok : bool)
| ListLinks (remote : string) (ok : bool)
| WriteLedger (ids : list string) (ok : bool)
| Mkdir (p : path) (ok : bool)
| Remove (p : path) (ok : bool)
| Sleep (seconds : Z)
| Marked (id : string)
| Log (l : logline).

Inductive reply :=
| Fine
| Fault (e : exn).

(** The outside world's behaviour.  External calls are numbered in the order
    in which the program makes them; [answer n] tells whether call [n]
    returns or raises, and the other fields give what call [n] produces when
    it returns. *)
Record environment := Environment {
  answer : nat -> reply;
  probe : nat -> format_info;        (* ffprobe's report *)
  produced_size : nat -> Z;          (* size of the file yt-dlp / ffmpeg wrote *)
  media_ext : nat -> string;         (* the extension yt-dlp chose *)
  epoch : nat -> string;             (* yt-dlp's [%(epoch)s] *)
  segment_count : nat -> nat;        (* segments ffmpeg cut *)
  playlist_text : nat -> string;     (* the playlist ffmpeg wrote *)
  shared_url : nat -> string;        (* [sharing_create_shared_link(..).url] *)
  listed_links : nat -> list string; (* [sharing_list_shared_links(..).links] *)
  torn : nat -> bool                 (* a failed write left the file unreadable *)
}.

Record file := File { st_size : Z; text : string }.

(** [processed_videos.json]. *)
Inductive ledger_file :=
| NoFile
| Unreadable
| Stored (ids : list string).

Record world := World {
  tick : nat;                  (* external calls made so far *)
  trace : list event;          (* events so far, oldest first *)
  processed : gset string;     (* [DuplicateTracker.set] *)
  db_file : ledger_file;
  files : gmap (list string) file;
  dirs : gset (list string)
}.

Definition set_trace (tr : list event) (w : world) : world :=
  World (tick w) tr (processed w) (db_file w) (files w) (dirs w).
Definition set_tick (n : nat) (w : world) : world :=
  World n (trace w) (processed w) (db_file w) (files w) (dirs w).
Definition set_processed (s : gset string) (w : world) : world :=
  World (tick w) (trace w) s (db_file w) (files w) (dirs w).
Definition set_db_file (f : ledger_file) (w : world) : world :=
  World (tick w) (trace w) (processed w) f (files w) (dirs w).
Definition set_files (fs : gmap (list string) file) (w : world) : world :=
  World (tick w) (trace w) (processed w) (db_file w) fs (dirs w).
Definition set_dirs (ds : gset (list string)) (w : world) : world :=
  World (tick w) (trace w) (processed w) (db_file w) (files w) ds.

Definition M (A : Type) : Type := environment -> world -> result A * world.

Definition ret {A} (a : A) : M A := fun _ w => (Ret a, w).

Definition bind {A B} (m : M A) (k : A -> M B) : M B :=
  fun env w =>
    match m env w with
    | (Ret a, w') => k a env w'
    | (Raise e, w') => (Raise e, w')
    end.

Definition raise {A} (e : exn) : M A := fun _ w => (Raise e, w).

(** [try: m  except Exception as e: h e]. *)
Definition try_except {A} (m : M A) (h : exn -> M A) : M A :=
  fun env w =>
    match m env w with
    | (Ret a, w') => (Ret a, w')
    | (Raise e, w') => h e env w'
    end.

(** [try: m  finally: f]. *)
Definition try_finally {A} (m : M A) (f : M unit) : M A :=
  fun env w =>
    match m env w with
    | (r, w') =>
        match f env w' with
        | (Ret _, w'') => (r, w'')
        | (Raise e, w'') => (Raise e, w'')
        end
    end.

Declare Scope m_scope.
Delimit Scope m_scope with M.
Notation "x <- m ;; k" := (bind m (fun x => k))
  (at level 20, m at level 99, k at level 200, only parsing) : m_scope.
Notation "m ;; k" := (bind m (fun _ => k))
  (at level 100, k at level 200, right associativity, only parsing) : m_scope.
#[local] Open Scope m_scope.

Fixpoint for_in {A S} (xs : list A) (body : A -> S -> M S) (s : S) : M S :=
  match xs with
  | [] => ret s
  | x :: xs' => s' <- body x s ;; for_in xs' body s'
  end.

Definition get_world : M world := fun _ w => (Ret w, w).
Definition modify (f : world -> world) : M unit := fun _ w => (Ret tt, f w).
Definition reading {A} (f : environment -> nat -> A) (n : nat) : M A :=
  fun env w => (Ret (f env n), w).

Definition emit (e : event) : M unit :=
  modify (fun w => set_trace (trace w ++ [e]) w).

(** One external call: it takes the next number, is recorded with its
    outcome, and returns its number or raises what the environment says. *)
Definition external (ev : bool -> event) : M nat :=
  fun env w =>
    let n := tick w in
    match answer env n with
    | Fine => (Ret n, set_trace (trace w ++ [ev true]) (set_tick (S n) w))
    | Fault e => (Raise e, set_trace (trace w ++ [ev false]) (set_tick (S n) w))
    end.

Definition logger (l : logline) : M unit := emit (Log l).

(** [time.sleep(seconds)]. *)
Definition sleep (seconds : Z) : M unit := emit (Sleep seconds).

(** Sending or editing a Telegram message. *)
Definition telegram (n : notice) : M unit := external (Telegram n) ;; ret tt.

(** ** The local file system *)

Module Fs.

Definition name (p : path) : string := List.last p EmptyString.
Definition parent (p : path) : path := removelast p.

(** [Path.suffix]: from the last dot of the name, when that dot is neither
    the first nor the last character. *)
Fixpoint rfind_dot (s : string) (i : nat) (found : option nat) : option nat :=
  match s with
  | EmptyString => found
  | String c s' =>
      rfind_dot s' (S i) (if Ascii.eqb c "." then Some i else found)
  end.

Definition suffix (p : path) : string :=
  let n := name p in
  match rfind_dot n 0 None with
  | Some i =>
      if ((0 <? i) && (i <? String.length n - 1))%nat
      then substring i (String.length n - i) n
      else EmptyString
  | None => EmptyString
  end.

Definition is_file (p : path) (w : world) : bool :=
  bool_decide (p ∈ dom (files w)).

(** Everything that exists: the files and the directories made. *)
Definition nodes (w : world) : list (list string) :=
  elements (dom (files w) ∪ dirs w).

(** [d] lies strictly above [q]. *)
Definition above (d q : path) : Prop := d `prefix_of` q ∧ d ≠ q.

(** A directory is one that was made, or one that has something in it. *)
Definition is_dir (p : path) (w : world) : bool :=
  negb (is_file p w)
  && (bool_decide (p ∈ dirs w) || bool_decide (Exists (above p) (nodes w))).

Definition exists_ (p : path) (w : world) : bool := is_file p w || is_dir p w.

(** [d.iterdir()]: the entries directly under [d]. *)
Definition iterdir (d : path) (w : world) : list (list string) :=
  remove_dups
    (omap (fun q => if decide (above d q)
                    then Some (firstn (S (List.length d)) q) else None)
          (nodes w)).

(** [p.stat().st_size]. *)
Definition stat (p : path) : M Z :=
  fun _ w =>
    match files w !! p with
    | Some f => (Ret (st_size f), w)
    | None => (Raise (Exn FileNotFoundError "No such file or directory"), w)
    end.

(** [p.read_bytes()] / [open(p, 'rb').read()]. *)
Definition read_bytes (p : path) : M string :=
  fun _ w =>
    match files w !! p with
    | Some f => (Ret (text f), w)
    | None => (Raise (Exn FileNotFoundError "No such file or directory"), w)
    end.

(** [p.read_text()]: the content, read in text mode. *)
Definition read_text (p : path) : M string :=
  data <- read_bytes p ;;
  ret (PyStr.universal_newlines data).

(** A file that an external program has written. *)
Definition written (p : path) (f : file) : M unit :=
  modify (fun w => set_files (<[p := f]> (files w)) w).

Fixpoint ancestors (p : path) (n : nat) : list (list string) :=
  match n with
  | O => []
  | S n' => firstn n p :: ancestors p n'
  end.

(** [p.mkdir(parents=True, exist_ok=True)]. *)
Definition mkdir (p : path) : M unit :=
  external (Mkdir p) ;;
  modify (fun w =>
    set_dirs (dirs w ∪ list_to_set (ancestors p (List.length p))) w).

Definition without (p : path) (w : world) : world :=
  set_dirs (filter (fun q => ¬ p `prefix_of` q) (dirs w))
    (set_files (filter (fun kv => ¬ p `prefix_of` kv.1) (files w)) w).

(** [p.unlink()] on a file, [shutil.rmtree(p)] on a directory. *)
Definition remove (p : path) : M unit :=
  external (Remove p) ;; modify (without p).

End Fs.

(* ===================================================================== *)
(** * DedupeLedger: [DuplicateTracker] (the same in both source files, but
      for log lines) *)
(* ===================================================================== *)

Module DuplicateTracker.
Import ContentIdentity.

(** [__init__] / [load_database]: the set read from the file; any failure
    to read or parse it yields the empty set. *)
Definition load (f : ledger_file) : gset string :=
  match f with
  | Stored ids => list_to_set ids
  | NoFile | Unreadable => ∅
  end.

(** A process (re)start: the tracker is built anew from the file. *)
Definition restart (w : world) : world := set_processed (load (db_file w)) w.

(** [self.path.write_text(json.dumps({"processed_videos": list(self.set)}))].
    When the write fails the file is left as it was or unreadable. *)
Definition write_text : M unit :=
  fun env w =>
    let n := tick w in
    let ids := elements (processed w) in
    match answer env n with
    | Fine =>
        (Ret tt,
         set_db_file (Stored ids)
           (set_trace (trace w ++ [WriteLedger ids true]) (set_tick (S n) w)))
    | Fault e =>
        (Raise e,
         set_db_file (if torn env n then Unreadable else db_file w)
           (set_trace (trace w ++ [WriteLedger ids false]) (set_tick (S n) w)))
    end.

Definition save : M unit := try_except write_text (fun _ => ret tt).

Definition is_duplicate (url : string) : M bool :=
  w <- get_world ;;
  ret (bool_decide (extract_video_id url ∈ processed w)).

Definition mark_processed (url : string) : M unit :=
  let id := extract_video_id url in
  modify (fun w => set_processed ({[id]} ∪ processed w) w) ;;
  emit (Marked id) ;;
  save.

End DuplicateTracker.

(* ===================================================================== *)
(** * main.py: [VideoProcessor], [InstagramBot.handle_message] and the
      [/process_instagram] endpoint *)
(* ===================================================================== *)

Module Main.
Import ContentIdentity DuplicateTracker.

Definition VIDEO_FOLDER : path := ["video"].
Definition WORKER_BASE : string :=
  "https://on-demand-feed.kmxconnect.workers.dev".

(** ** VideoProcessor *)

(** The file lands where [outtmpl] says, with the extension yt-dlp chose. *)
Definition download_instagram_video (url : string) : M path :=
  let vid := extract_video_id url in
  n <- external (YtDlp url) ;;
  ext <- reading media_ext n ;;
  size <- reading produced_size n ;;
  let filename := (VIDEO_FOLDER ++ [(vid ++ "." ++ ext)%string])%list in
  Fs.written filename (File size EmptyString) ;;
  logger (DownloadedTo filename) ;;
  ret filename.

Definition ffprobe_json (p : path) : M format_info :=
  try_except (n <- external (Ffprobe p) ;; reading probe n)
             (fun _ => ret no_format).

(** [subprocess.run(cmd, check=True)] for an encode of [p] into [out]. *)
Definition run_ffmpeg (p out : path) (args : ffmpeg_args) : M unit :=
  n <- external (Ffmpeg p args) ;;
  size <- reading produced_size n ;;
  Fs.written out (File size EmptyString).

(** Lines 306-323: the sanity check, with its fallback pass. *)
Definition sanity_check
    (p out : path) (orig_size_mb : Q) (target_kbps : Z) : M unit :=
  try_except
    (st_out <- Fs.stat out ;;
     let compressed_size_mb := PyNum.megabytes st_out in
     if PyNum.gt compressed_size_mb orig_size_mb then
       logger LargerThanOriginal ;;
       run_ffmpeg p out (MainPlanner.fallback_pass target_kbps)
     else ret tt)
    (fun _ => ret tt).

Definition aggressive_compress (input_path : path) : M path :=
  let p := input_path in
  let out := (Fs.parent p ++ [("compressed_" ++ Fs.name p)%string])%list in
  info <- ffprobe_json p ;;
  duration <- match MainPlanner.duration_of info with
              | Some d => ret d
              | None => raise (Exn ValueError "could not convert string to float")
              end ;;
  st <- Fs.stat p ;;
  let orig_size_mb := PyNum.megabytes st in
  let current_bitrate_kbps :=
    MainPlanner.current_bitrate_kbps info orig_size_mb duration in
  let target_kbps := MainPlanner.target_kbps orig_size_mb current_bitrate_kbps in
  run_ffmpeg p out (MainPlanner.first_pass orig_size_mb current_bitrate_kbps) ;;
  sanity_check p out orig_size_mb target_kbps ;;
  logger (CompressionFinished out) ;;
  ret out.

(** ffmpeg names segment [i] after [-hls_segment_filename]. *)
Definition segment_name (video_id : string) (i : nat) : string :=
  video_id ++ "_" ++ PyStr.pad5 i ++ ".ts".

Definition generate_hls
    (input_path : path) (video_id : string) (seg_seconds : Z) : M path :=
  let outdir := (VIDEO_FOLDER ++ ["hls"; video_id])%list in
  w <- get_world ;;
  (if Fs.exists_ outdir w then Fs.remove outdir else ret tt) ;;
  Fs.mkdir outdir ;;
  n <- external (FfmpegHls input_path outdir seg_seconds) ;;
  count <- reading segment_count n ;;
  playlist <- reading playlist_text n ;;
  for_in (seq 0 count)
    (fun i _ =>
       Fs.written (outdir ++ [segment_name video_id i])%list (File 0 EmptyString))
    tt ;;
  Fs.written (outdir ++ [(video_id ++ ".m3u8")%string])%list (File 0 playlist) ;;
  logger (HlsGenerated outdir) ;;
  ret outdir.

(** [url.replace('?dl=0', '?raw=1')]. *)
Definition raw_url (url : string) : string :=
  PyStr.replace "?dl=0" "?raw=1" url.

(** Lines 378-391.  Every Dropbox call goes through the [dbx] property,
    whose token refresh is part of the call and fails with it. *)
Definition share_segment (remote name : string)
    (segment_urls : gmap string string) : M (gmap string string) :=
  try_except
    (n <- external (CreateLink remote) ;;
     url <- reading shared_url n ;;
     ret (<[name := raw_url url]> segment_urls))
    (fun e =>
       if PyStr.contains "shared_link_already_exists" (exn_msg e) then
         n <- external (ListLinks remote) ;;
         links <- reading listed_links n ;;
         match links with
         | url :: _ => ret (<[name := raw_url url]> segment_urls)
         | [] => ret segment_urls
         end
       else ret segment_urls).

Definition remote_of (dropbox_folder : string) (f : path) : string :=
  dropbox_folder ++ "/" ++ Fs.name f.

(** Lines 370-391: one turn of the loop over [ts_files]. *)
Definition upload_segment (dropbox_folder : string) (f : path)
    (segment_urls : gmap string string) : M (gmap string string) :=
  let remote := remote_of dropbox_folder f in
  data <- Fs.read_bytes f ;;
  external (FilesUpload remote data) ;;
  share_segment remote (Fs.name f) segment_urls.

(** Lines 396-421: one turn of the loop over [m3u8_files]. *)
Definition upload_playlist (dropbox_folder : string)
    (segment_urls : gmap string string) (f : path) (_ : unit) : M unit :=
  let remote := remote_of dropbox_folder f in
  content <- Fs.read_text f ;;
  let fixed_content := Manifest.fix_playlist segment_urls content in
  external (FilesUpload remote fixed_content) ;;
  ret tt.

Definition with_suffix (sfx : string) (w : world) (d : path)
  : list (list string) :=
  filter (fun f => Fs.suffix f = sfx) (Fs.iterdir d w).

Definition upload_hls_folder (local_dir : path) (dropbox_base : string)
  : M unit :=
  w <- get_world ;;
  if negb (Fs.exists_ local_dir w) then
    raise (Exn FileNotFoundError "HLS folder not found")
  else
    let video_id := Fs.name local_dir in
    let dropbox_folder := (dropbox_base ++ "/" ++ video_id)%string in
    segment_urls <-
      for_in (with_suffix ".ts" w local_dir)
             (upload_segment dropbox_folder) ∅ ;;
    w' <- get_world ;;
    for_in (with_suffix ".m3u8" w' local_dir)
           (upload_playlist dropbox_folder segment_urls) tt ;;
    logger (UploadComplete video_id).

(** Lines 425-437: one entry of the video folder. *)
Definition cleanup_entry (p : path) (_ : unit) : M unit :=
  try_except
    (w <- get_world ;;
     if Fs.is_file p w then Fs.remove p
     else if Fs.is_dir p w then Fs.remove p
     else ret tt)
    (fun _ => ret tt).

Definition cleanup_local : M unit :=
  try_except
    (w <- get_world ;;
     if Fs.exists_ VIDEO_FOLDER w
     then for_in (Fs.iterdir VIDEO_FOLDER w) cleanup_entry tt
     else ret tt)
    (fun _ => ret tt).

(** ** InstagramBot.handle_message (lines 465-509) *)

Definition playlist_url (vid_id : string) : string :=
  WORKER_BASE ++ "/hls/" ++ vid_id ++ ".m3u8".

(** [await context.application.run_in_executor(None, f, *args)].  The
    handler is registered on a [telegram.ext.Application] (line 448), and
    that class has no attribute [run_in_executor]: the attribute lookup
    raises [AttributeError] before [f] is called, so [f] never runs. *)
Definition no_run_in_executor : exn :=
  Exn AttributeError "'Application' object has no attribute 'run_in_executor'".

Definition run_in_executor {A} (f : M A) : M A := raise no_run_in_executor.

Definition pipeline (url : string) : M unit :=
  (* 1) Duplicate check *)
  dup <- is_duplicate url ;;
  if dup then telegram AlreadyProcessed
  else
    (* 2) Download *)
    telegram Downloading ;;
    downloaded <- run_in_executor (download_instagram_video url) ;;
    (* 3) Compress *)
    telegram Compressing ;;
    compressed <- run_in_executor (aggressive_compress downloaded) ;;
    (* 4) Generate HLS *)
    telegram GeneratingHls ;;
    let vid_id := extract_video_id url in
    local_hls_dir <- run_in_executor (generate_hls compressed vid_id 2) ;;
    (* 5) Upload HLS folder *)
    telegram Uploading ;;
    run_in_executor (upload_hls_folder local_hls_dir "/hls") ;;
    (* 6) Success *)
    mark_processed url ;;
    telegram (Success (playlist_url vid_id)).

Definition handle_message (text : string) : M unit :=
  let url := PyStr.strip text in
  if negb (PyStr.contains "instagram.com" url) then telegram PleaseSendUrl
  else
    telegram Starting ;;
    try_finally
      (try_except (pipeline url)
         (fun e => logger ProcessingError ;; telegram (Failed (exn_msg e))))
      (try_except (run_in_executor cleanup_local) (fun _ => ret tt)).

(** ** The HTTP endpoint (lines 518-545) *)

Definition bg (url : string) : M unit :=
  try_except
    (downloaded <- download_instagram_video url ;;
     compressed <- aggressive_compress downloaded ;;
     let vid := extract_video_id url in
     hls_local <- generate_hls compressed vid 2 ;;
     upload_hls_folder hls_local "/hls" ;;
     mark_processed url ;;
     cleanup_local ;;
     logger HlsProcessingComplete)
    (fun _ => logger HttpBgError).

(** The handler answers at once; [bg] runs in a thread of its own, here
    right away.  The answer is the HTTP status. *)
Definition process_instagram (url : option string) : M Z :=
  match url with
  | None | Some EmptyString => ret 400
  | Some u =>
      if negb (PyStr.contains "instagram.com" u) then ret 400
      else bg u ;; ret 202
  end.

End Main.

(* ===================================================================== *)
(** * instagram_to_HLS_dropbox.py: [VideoProcessor], the Telegram job
      [process_instagram_url] and the HTTP job [background_process] *)
(* ===================================================================== *)

Module HlsDropbox.
Import ContentIdentity DuplicateTracker.

Definition VIDEO_FOLDER : path := ["video"].

(** ** VideoProcessor *)

Definition setup_directories : M unit := Fs.mkdir VIDEO_FOLDER.

(** Lines 229-262. *)
Definition download_instagram_video (url : string) : M path :=
  try_except
    (n <- external (YtDlp url) ;;
     ext <- reading media_ext n ;;
     stamp <- reading epoch n ;;
     size <- reading produced_size n ;;
     let stem :=
       match re_search url with
       | Some id => ("instagram_" ++ id)%string
       | None => ("instagram_video_" ++ stamp)%string
       end in
     let downloaded_file := (VIDEO_FOLDER ++ [(stem ++ "." ++ ext)%string])%list in
     Fs.written downloaded_file (File size EmptyString) ;;
     logger (DownloadedTo downloaded_file) ;;
     ret downloaded_file)
    (fun e => raise (Exn OtherError ("Download failed: " ++ exn_msg e))).

Definition get_video_info (video_path : path) : M format_info :=
  try_except (n <- external (Ffprobe video_path) ;; reading probe n)
             (fun _ => ret no_format).

Definition value_error {A} (o : option A) : M A :=
  match o with
  | Some a => ret a
  | None => raise (Exn ValueError "could not convert string")
  end.

(** Lines 277-376.  There is no second pass here: a poor ratio is only
    logged. *)
Definition compress_video (input_path : path) : M path :=
  try_except
    (let input_file := input_path in
     st <- Fs.stat input_file ;;
     let file_size_mb := PyNum.megabytes st in
     format_info <- get_video_info input_file ;;
     duration <- value_error (HlsPlanner.duration_of format_info) ;;
     current_bitrate_kbps <-
       value_error
         (HlsPlanner.current_bitrate_kbps format_info file_size_mb duration) ;;
     let compressed_path :=
       (Fs.parent input_file
        ++ [("compressed_480p_" ++ Fs.name input_file)%string])%list in
     n <- external
            (Ffmpeg input_file
               (HlsPlanner.encode_args file_size_mb current_bitrate_kbps)) ;;
     size <- reading produced_size n ;;
     Fs.written compressed_path (File size EmptyString) ;;
     Fs.stat compressed_path ;;
     Fs.remove input_file ;;
     ret compressed_path)
    (fun e =>
       match exn_cls e with
       | CalledProcessError =>
           raise (Exn OtherError ("Compression failed: " ++ exn_msg e))
       | _ => raise e
       end).

(** Lines 378-409. *)
Definition upload_to_dropbox (file_path : path) : M string :=
  try_except
    (let dropbox_path := ("/" ++ Fs.name file_path)%string in
     data <- Fs.read_bytes file_path ;;
     external (FilesUpload dropbox_path data) ;;
     try_except
       (n <- external (CreateLink dropbox_path) ;; reading shared_url n)
       (fun e =>
          match exn_cls e with
          | ApiError =>
              if PyStr.contains "shared_link_already_exists" (exn_msg e) then
                n <- external (ListLinks dropbox_path) ;;
                links <- reading listed_links n ;;
                match links with
                | url :: _ => ret url
                | [] => raise e
                end
              else raise e
          | _ => raise e
          end))
    (fun e => raise (Exn OtherError ("Upload failed: " ++ exn_msg e))).

(** Lines 411-426: only plain files are removed. *)
Definition cleanup_entry (file_path : path) (_ : unit) : M unit :=
  w <- get_world ;;
  if Fs.is_file file_path w
  then try_except (Fs.remove file_path) (fun _ => ret tt)
  else ret tt.

Definition cleanup_local_files : M unit :=
  try_except
    (w <- get_world ;;
     if Fs.exists_ VIDEO_FOLDER w
     then for_in (Fs.iterdir VIDEO_FOLDER w) cleanup_entry tt
     else ret tt)
    (fun _ => ret tt).

(** ** The job body shared by lines 478-554 and lines 819-895 *)

Definition process (url : string) : M unit :=
  (* Check for duplicates first *)
  dup <- is_duplicate url ;;
  if dup then telegram AlreadyProcessed
  else
    setup_directories ;;
    telegram Processing ;;
    downloaded_file <- download_instagram_video url ;;
    telegram DownloadedCompressing ;;
    compressed_file <- compress_video downloaded_file ;;
    telegram CompressedUploading ;;
    dropbox_url <- upload_to_dropbox compressed_file ;;
    mark_processed url ;;
    cleanup_local_files ;;
    telegram (Success dropbox_url).

(** ** The Telegram job (lines 473-582) *)

(** Lines 564-572: [for attempt in range(3)], sleeping [attempt * 2]. *)
Fixpoint send_error (attempts : list Z) (n : notice) : M unit :=
  match attempts with
  | [] => ret tt
  | attempt :: rest =>
      sent <- try_except (sleep (attempt * 2) ;; telegram n ;; ret true)
                         (fun _ => ret false) ;;
      if sent : bool then ret tt else send_error rest n
  end.

Definition process_instagram_url (url : string) : M unit :=
  try_except (process url)
    (fun e =>
       send_error [0; 1; 2] (Failed (exn_msg e)) ;;
       try_except cleanup_local_files (fun _ => ret tt)).

(** ** The HTTP job (lines 794-974) *)

Definition max_retries : Z := 3.

(** Lines 818-915. *)
Definition process_in_thread (url : string) : M unit :=
  try_except (process url)
    (fun process_error =>
       try_except (telegram (Failed (exn_msg process_error)))
                  (fun _ => ret tt) ;;
       try_except cleanup_local_files (fun _ => ret tt) ;;
       raise process_error).

(** One turn of [while retry_count < max_retries]: [None] when the function
    returns, [Some retry_count] when the loop goes on. *)
Definition attempt (url : string) (retry_count : Z) : M (option Z) :=
  try_except
    (sleep (retry_count * 2 + 1) ;;
     process_in_thread url ;;
     logger ProcessingCompleted ;;
     ret None)
    (fun e =>
       let retry_count := retry_count + 1 in
       logger (AttemptFailed retry_count) ;;
       if max_retries <=? retry_count then
         try_except (telegram (FinalFailure (exn_msg e))) (fun _ => ret tt) ;;
         logger FailedPermanently ;;
         ret None
       else
         logger (Retrying (retry_count + 1)) ;;
         ret (Some retry_count)).

Fixpoint while_retries (fuel : nat) (url : string) (retry_count : Z)
  : M unit :=
  match fuel with
  | O => ret tt
  | S fuel' =>
      if retry_count <? max_retries then
        next <- attempt url retry_count ;;
        match next with
        | None => ret tt
        | Some retry_count' => while_retries fuel' url retry_count'
        end
      else ret tt
  end.

Definition background_process (url : string) : M unit :=
  while_retries (Z.to_nat max_retries) url 0.

End HlsDropbox.

(* ===================================================================== *)
(** * Vocabulary of the properties *)
(* ===================================================================== *)

Module Props.
Import ContentIdentity.

(** ** Content identity *)

Definition marker (m : string) : Prop := m = "/p/" \/ m = "/reel/".

Fixpoint all_chars (P : ascii -> bool) (s : string) : bool :=
  match s with
  | EmptyString => true
  | String c s' => P c && all_chars P s'
  end.

(** [s] does not go on with an identifier character. *)
Definition no_id_head (s : string) : Prop :=
  match s with
  | EmptyString => True
  | String c _ => is_id_char c = false
  end.

(** [s] starts with a marker that an identifier character follows: the
    pattern matches at the head of [s]. *)
Definition marker_head (s : string) : Prop :=
  exists m c rest, marker m /\ is_id_char c = true /\ s = m ++ String c rest.


(** ** Compression planner *)

(** The claim of C6 on a tier table: a larger input never gets a higher
    fraction nor a higher cap than a smaller one.  Sizes are in bytes. *)
Definition tiers_monotone (fraction cap : Q -> Q) : Prop :=
  forall s1 s2 : Z,
    s1 <= s2 ->
    (fraction (PyNum.megabytes s2) <= fraction (PyNum.megabytes s1))%Q
    /\ (cap (PyNum.megabytes s2) <= cap (PyNum.megabytes s1))%Q.

Definition fraction_monotone (fraction : Q -> Q) : Prop :=
  forall s1 s2 : Z,
    s1 <= s2 ->
    (fraction (PyNum.megabytes s2) <= fraction (PyNum.megabytes s1))%Q.

Definition MB : Z := 1048576.

(** What holds of the caps instead: they rise with the size up to 50 MB
    and drop from the [> 20 MB] tier to the [> 50 MB] tier. *)
Definition cap_rises_then_drops (cap : Q -> Q) : Prop :=
  (forall s1 s2 : Z,
      s1 <= s2 -> s2 <= 50 * MB ->
      (cap (PyNum.megabytes s1) <= cap (PyNum.megabytes s2))%Q)
  /\ (forall s1 s2 : Z,
        20 * MB < s1 -> s1 <= s2 ->
        (cap (PyNum.megabytes s2) <= cap (PyNum.megabytes s1))%Q).

(** ** Manifest *)

(** A comment or directive line of a playlist. *)
Definition is_comment (l : string) : bool := PyStr.startswith l "#".

(** No newline inside. *)
Definition single_line (s : string) : bool :=
  all_chars (fun c => negb (Ascii.eqb c PyStr.newline)) s.

(** The shape of a segment's file name: it ends in [.ts] after at least
    one character, as [f.suffix == '.ts'] requires, and does not start
    with white space; ffmpeg's names, [<video_id>_%05d.ts], are so. *)
Definition segment_file_name (k : string) : Prop :=
  exists c stem, k = String c (stem ++ ".ts") /\ PyStr.isspace c = false.

(** What the dictionary [segment_urls] holds: names of segment files,
    each with a link of one line. *)
Definition known_segments (segment_urls : gmap string string) : Prop :=
  forall k u, segment_urls !! k = Some u ->
              segment_file_name k /\ single_line u = true.

(** ** Jobs *)

#[local] Open Scope list_scope.

(** [spec m R E]: whatever the environment and the world, [m] only adds
    events to the trace; the events added satisfy [R] when [m] returns and
    [E] when it raises. *)
Definition spec {A} (m : M A)
    (R : A -> list event -> Prop) (E : exn -> list event -> Prop) : Prop :=
  forall env w,
    exists evs,
      trace (m env w).2 = trace w ++ evs
      /\ match (m env w).1 with
         | Ret a => R a evs
         | Raise e => E e evs
         end.

(** [emits P m]: every event that [m] adds passes the test [P]. *)
Definition emits (P : event -> bool) {A} (m : M A) : Prop :=
  spec m (fun _ evs => Forall (fun e => P e = true) evs)
         (fun _ evs => Forall (fun e => P e = true) evs).

(** [m] leaves the trace alone. *)
Definition silent {A} (m : M A) : Prop :=
  forall env w, trace (m env w).2 = trace w.

(** [m] never raises. *)
Definition total {A} (m : M A) : Prop :=
  forall env w, exists a, (m env w).1 = Ret a.

Definition is_marked (e : event) : bool :=
  match e with Marked _ => true | _ => false end.

(** The success message of the Telegram job and the closing log line of
    the HTTP job of main.py. *)
Definition is_success (e : event) : bool :=
  match e with
  | Telegram (Success _) _ | Log HlsProcessingComplete => true
  | _ => false
  end.

(** Neither the ledger update nor the report of success. *)
Definition quiet (e : event) : bool := negb (is_marked e || is_success e).

(** A download, a packaging run or an upload that raised. *)
Definition failed_transfer (e : event) : bool :=
  match e with
  | YtDlp _ false | FfmpegHls _ _ _ false | FilesUpload _ _ false => true
  | _ => false
  end.

Definition calm (e : event) : bool := quiet e && negb (failed_transfer e).

(** Removing a local file or directory. *)
Definition housekeeping (e : event) : bool :=
  match e with Remove _ _ => true | _ => false end.

(** The work of a job: downloading, probing, encoding, packaging,
    uploading and sharing. *)
Definition is_work (e : event) : bool :=
  match e with
  | YtDlp _ _ | Ffprobe _ _ | Ffmpeg _ _ _ | FfmpegHls _ _ _ _
  | FilesUpload _ _ _ | CreateLink _ _ | ListLinks _ _ | Mkdir _ _ => true
  | _ => false
  end.

(** The four steps of main.py's pipeline have succeeded, in order, for
    [url], and nothing was left half transferred. *)
Definition published (url : string) (evs : list event) : Prop :=
  (exists f args c d v,
      [YtDlp url true; Log (DownloadedTo f);
       Ffmpeg f args true; Log (CompressionFinished c);
       FfmpegHls c d 2 true; Log (HlsGenerated d);
       Log (UploadComplete v)] `sublist_of` evs)
  /\ Forall (fun e => failed_transfer e = false) evs.

(** The discipline of C1 on the events of one job: wherever the ledger is
    updated, it is with the identifier of [url], after the whole pipeline,
    before any report of success, and nowhere else. *)
Definition mark_discipline (url : string) (evs : list event) : Prop :=
  forall pre id post,
    evs = pre ++ Marked id :: post ->
    id = ContentIdentity.extract_video_id url
    /\ published url pre
    /\ Forall (fun e => quiet e = true) pre
    /\ Forall (fun e => is_marked e = false) post.

(** The two shapes the events of a job of main.py can take: no ledger
    update and no report of success at all, or one ledger update after
    the whole pipeline. *)
Definition job_shape (url : string) (evs : list event) : Prop :=
  Forall (fun e => quiet e = true) evs
  \/ exists pre post,
       evs = pre ++ Marked (ContentIdentity.extract_video_id url) :: post
       /\ published url pre
       /\ Forall (fun e => quiet e = true) pre
       /\ Forall (fun e => is_marked e = false) post.

(** A job that reported success updated the ledger. *)
Definition success_is_marked (evs : list event) : Prop :=
  Exists (fun e => is_success e = true) evs ->
  Exists (fun e => is_marked e = true) evs.

(** The segments and playlists of an HLS folder. *)
Definition artifacts (w : world) (local_dir : path) : list (list string) :=
  Main.with_suffix ".ts" w local_dir ++ Main.with_suffix ".m3u8" w local_dir.

(** Each of [fs] was uploaded, and the upload returned. *)
Definition all_uploaded (dropbox_folder : string) (fs : list (list string))
    (evs : list event) : Prop :=
  forall f, In f fs ->
    exists body, In (FilesUpload (Main.remote_of dropbox_folder f) body true) evs.

(** ** Retries *)

(** The events that tell how the HTTP job of instagram_to_HLS_dropbox.py
    goes from attempt to attempt. *)
Definition control (e : event) : bool :=
  match e with
  | Sleep _
  | Telegram (Failed _) _ | Telegram (FinalFailure _) _
  | Log (AttemptFailed _) | Log ProcessingCompleted
  | Log (Retrying _) | Log FailedPermanently => true
  | _ => false
  end.

Definition schedule (evs : list event) : list event := List.filter control evs.

(** One failed attempt, numbered [n], that is followed by another. *)
Definition failed_attempt (n : Z) (reason : string) (told : bool)
  : list event :=
  [Sleep (2 * n - 1); Telegram (Failed reason) told;
   Log (AttemptFailed n); Log (Retrying (n + 1))].


(** Whether an external call returned. *)
Definition is_fine (r : reply) : bool :=
  match r with Fine => true | Fault _ => false end.



Definition is_download (e : event) : bool :=
  match e with YtDlp _ _ => true | _ => false end.




(** The downloads a job starts. *)
Definition downloads (evs : list event) : list event :=
  List.filter is_download evs.



(** ** Encoder runs *)

Definition encode_of (e : event) : option (ffmpeg_args * bool) :=
  match e with
  | Ffmpeg _ args ok => Some (args, ok)
  | _ => None
  end.

(** The compression runs of ffmpeg among [evs], with their outcome. *)
Definition encodes (evs : list event) : list (ffmpeg_args * bool) :=
  omap encode_of evs.

(** What [ffprobe_json] answers when it is external call [n]. *)
Definition probed (env : environment) (n : nat) : format_info :=
  match answer env n with
  | Fine => probe env n
  | Fault _ => no_format
  end.

End Props.


(* ===================================================================== *)
(** * Environments and worlds of the worked examples *)
(* ===================================================================== *)

Module Scenario.

(** The environment in which every external call returns, one segment is
  cut, and the playlist names it. *)
Definition all_fine : environment :=
Environment (fun _ => Fine)
  (fun _ => FormatInfo (Value 10%Q) (Value 2000000)) (fun _ => 1000)
  (fun _ => "mp4") (fun _ => "0") (fun _ => 1%nat)
  (fun _ => "#EXTM3U
abc123_00000.ts
")
  (fun _ => "https://www.dropbox.com/s/x?dl=0") (fun _ => [])
  (fun _ => false).

(** The environment in which external call [k] raises as a failed ffmpeg
  does, and every other call returns. *)
Definition ffmpeg_fails_at (k : nat) : environment :=
Environment
  (fun n => if (n =? k)%nat
            then Fault (Exn CalledProcessError "non-zero exit status 1")
            else Fine)
  (fun _ => FormatInfo (Value 10%Q) (Value 2000000)) (fun _ => 1000)
  (fun _ => "mp4") (fun _ => "0") (fun _ => 1%nat) (fun _ => "")
  (fun _ => "") (fun _ => []) (fun _ => false).

(** Every call returns and every file written has 2000 bytes; the media
    is reported to run at [bit_rate] bits per second for 10 seconds. *)
Definition writes_2000 (bit_rate : Z) : environment :=
  Environment (fun _ => Fine)
    (fun _ => FormatInfo (Value 10%Q) (Value bit_rate)) (fun _ => 2000)
    (fun _ => "mp4") (fun _ => "0") (fun _ => 1%nat) (fun _ => "")
    (fun _ => "") (fun _ => []) (fun _ => false).

Definition clip : list string := ["video"; "abc123.mp4"].

(** A downloaded clip of 1000 bytes. *)
Definition downloaded : world :=
  World 0 [] ∅ NoFile {[ clip := File 1000 "" ]} {[ ["video"] ]}.

End Scenario.

(* ===================================================================== *)
(** * Vocabulary of the further properties *)
(* ===================================================================== *)

Module Laws.

#[local] Open Scope list_scope.

(** [keeps I m]: whatever the environment, [m] takes a world to one that
    [I] relates to it. *)
Definition keeps {A} (I : world -> world -> Prop) (m : M A) : Prop :=
  forall env w, I w (m env w).2.

(** [lands R m]: what [m] returns satisfies [R]. *)
Definition lands {A} (R : A -> Prop) (m : M A) : Prop :=
  forall env w,
    match (m env w).1 with
    | Ret a => R a
    | Raise _ => True
    end.

(** [m] changes neither the files nor the ledger, in memory or on disk,
    and tells of no ledger update. *)
Definition inert {A} (m : M A) : Prop :=
  forall env w,
    files (m env w).2 = files w /\ processed (m env w).2 = processed w
    /\ db_file (m env w).2 = db_file w
    /\ exists evs, trace (m env w).2 = trace w ++ evs
                   /\ Forall (fun e => Props.is_marked e = false) evs.

(** The files outside the directory [d] are as they were. *)
Definition outside_kept (d : path) (w w' : world) : Prop :=
  forall q, ¬ d `prefix_of` q -> files w' !! q = files w !! q.

(** The in-memory ledger is as it was, or has gained [id]. *)
Definition ledger_step (id : string) (w w' : world) : Prop :=
  processed w' = processed w \/ processed w' = {[id]} ∪ processed w.

(** Every ledger update told between [w] and [w'] has left [id] in the
    in-memory ledger. *)
Definition marks_kept (id : string) (w w' : world) : Prop :=
  exists evs,
    trace w' = trace w ++ evs
    /\ (Exists (fun e => Props.is_marked e = true) evs -> id ∈ processed w').

(** The ledger file [processed_videos.json] is as it was, or was left
    unreadable by a write that failed, or holds identifiers of the
    in-memory ledger. *)
Definition ledger_file_kept (w w' : world) : Prop :=
  db_file w' = db_file w \/ db_file w' = Unreadable
  \/ exists ids, db_file w' = Stored ids
                 /\ forall x, In x ids -> x ∈ processed w'.

(** What a job working for the identifier [id] may change. *)
Definition confined (id : string) (w w' : world) : Prop :=
  outside_kept Main.VIDEO_FOLDER w w' /\ ledger_step id w w'
  /\ marks_kept id w w' /\ ledger_file_kept w w'.

(** The files a job leaves its mark on: media files under [d], and the
    ledger file. *)
Definition footprint (d : path) (w w' : world) : Prop :=
  outside_kept d w w' /\ ledger_file_kept w w'.

(** The entry of the video folder under which [q] lies. *)
Definition entry (q : path) : path :=
  firstn (S (List.length Main.VIDEO_FOLDER)) q.

(** A message or the log line of a failure: all that the Telegram
    handler of main.py adds to the trace. *)
Definition talk (e : event) : bool :=
  match e with
  | Telegram _ _ | Log ProcessingError => true
  | _ => false
  end.

(** The [url] parameter of a request is one that the HTTP endpoint of
    main.py takes on. *)
Definition accepted (url : option string) : bool :=
  match url with
  | Some u => PyStr.contains "instagram.com" u
  | None => false
  end.

(** The two halves of [generate_hls]: lines 331-332, where the folder of an
    earlier run is removed, and lines 333-354, where the folder is made and
    filled. *)
Definition clear_outdir (outdir : path) (w : world) : M unit :=
  if Fs.exists_ outdir w then Fs.remove outdir else ret tt.

Definition fill_outdir (input_path : path) (video_id : string)
    (seg_seconds : Z) (outdir : path) : M path :=
  bind (Fs.mkdir outdir) (fun _ =>
  bind (external (FfmpegHls input_path outdir seg_seconds)) (fun n =>
  bind (reading segment_count n) (fun count =>
  bind (reading playlist_text n) (fun playlist =>
  bind (for_in (seq 0 count)
          (fun i _ =>
             Fs.written (outdir ++ [Main.segment_name video_id i])
               (File 0 EmptyString)) tt) (fun _ =>
  bind (Fs.written (outdir ++ [(video_id +:+ ".m3u8")]) (File 0 playlist))
       (fun _ =>
  bind (logger (HlsGenerated outdir)) (fun _ => ret outdir))))))).

(** How the Telegram job of instagram_to_HLS_dropbox.py tells of a
    failure: up to three tries, after 0, 2 and 4 seconds, the first that
    gets through being the last. *)
Definition failure_notice (reason : string) (evs : list event) : Prop :=
  evs = [Sleep 0; Telegram (Failed reason) true]
  \/ evs = [Sleep 0; Telegram (Failed reason) false;
            Sleep 2; Telegram (Failed reason) true]
  \/ exists ok,
       evs = [Sleep 0; Telegram (Failed reason) false;
              Sleep 2; Telegram (Failed reason) false;
              Sleep 4; Telegram (Failed reason) ok].

(** The three steps of instagram_to_HLS_dropbox.py have succeeded, in
    order, for [url]. *)
Definition delivered (url : string) (evs : list event) : Prop :=
  exists f args remote body,
    [YtDlp url true; Ffmpeg f args true; FilesUpload remote body true]
      `sublist_of` evs.

(** Neither a ledger update nor a piece of work. *)
Definition settled (e : event) : bool :=
  negb (Props.is_marked e || Props.is_work e).

(** The two shapes the events of a job of instagram_to_HLS_dropbox.py can
    take: no ledger update at all, or one ledger update after the three
    steps, with no work after it. *)
Definition hls_shape (url : string) (evs : list event) : Prop :=
  Forall (fun e => Props.is_marked e = false) evs
  \/ exists pre post,
       evs = pre ++ Marked (ContentIdentity.extract_video_id url) :: post
       /\ delivered url pre
       /\ Forall (fun e => Props.is_marked e = false) pre
       /\ Forall (fun e => settled e = true) post.

(** Wherever the ledger is updated, it is with the identifier of [url],
    after the three steps; there is no other update, and no work is done
    after it. *)
Definition hls_discipline (url : string) (evs : list event) : Prop :=
  forall pre id post,
    evs = pre ++ Marked id :: post ->
    id = ContentIdentity.extract_video_id url
    /\ delivered url pre
    /\ Forall (fun e => Props.is_marked e = false) pre
    /\ Forall (fun e => settled e = true) post.

(** One turn of the retry loop of [background_process] (lines 798-974)
    around a job body [body]; [HlsDropbox.attempt url] is
    [attempt_with (HlsDropbox.process url)]. *)
Definition attempt_with (body : M unit) (retry_count : Z) : M (option Z) :=
  try_except
    (bind (sleep (retry_count * 2 + 1)) (fun _ =>
     bind (try_except body
             (fun process_error =>
                bind (try_except (telegram (Failed (exn_msg process_error)))
                        (fun _ => ret tt)) (fun _ =>
                bind (try_except HlsDropbox.cleanup_local_files
                        (fun _ => ret tt)) (fun _ =>
                raise process_error)))) (fun _ =>
     bind (logger ProcessingCompleted) (fun _ => ret None))))
    (fun e =>
       let retry_count := retry_count + 1 in
       bind (logger (AttemptFailed retry_count)) (fun _ =>
       if HlsDropbox.max_retries <=? retry_count then
         bind (try_except (telegram (FinalFailure (exn_msg e)))
                 (fun _ => ret tt)) (fun _ =>
         bind (logger FailedPermanently) (fun _ => ret None))
       else
         bind (logger (Retrying (retry_count + 1)))
              (fun _ => ret (Some retry_count)))).

(** The events of the first loop of [upload_hls_folder]: uploads of
    segments of [fs], and calls for their links. *)
Definition segment_phase (folder : string) (fs : list (list string))
    (e : event) : Prop :=
  match e with
  | FilesUpload remote _ _ =>
      exists f, In f fs /\ remote = Main.remote_of folder f
  | CreateLink _ _ | ListLinks _ _ => True
  | _ => False
  end.

End Laws.
(* ===================================================================== *)
(** * Strings *)
(* ===================================================================== *)

Section StringFacts.

Lemma append_cons (c : ascii) (s t : string) :
  String c s ++ t = String c (s ++ t).
Proof. reflexivity. Qed.

Lemma append_nil_l (s : string) : "" ++ s = s.
Proof. reflexivity. Qed.

Lemma append_nil_r (s : string) : s ++ "" = s.
Proof.
  induction s as [|c s IH]; [reflexivity | now rewrite append_cons, IH].
Qed.

Lemma append_assoc (a b c : string) : (a ++ b) ++ c = a ++ (b ++ c).
Proof.
  induction a as [|x a IH]; [reflexivity | now rewrite !append_cons, IH].
Qed.

Lemma length_append (a b : string) :
  String.length (a ++ b) = (String.length a + String.length b)%nat.
Proof.
  induction a as [|x a IH]; [reflexivity |].
  rewrite append_cons. simpl. now rewrite IH.
Qed.

Lemma strip_prefix_Some (p s r : string) :
  PyStr.strip_prefix p s = Some r <-> s = p ++ r.
Proof.
  revert s; induction p as [|a p IH]; intros s; simpl.
  - split; [intros [= ->] | intros ->]; reflexivity.
  - destruct s as [|b s]; [split; discriminate |].
    destruct (Ascii.eqb_spec a b) as [-> | Hne].
    + rewrite IH. split; [intros -> | intros [= ->]]; reflexivity.
    + split; [discriminate | intros [= Hab _]; congruence].
Qed.

Lemma substring_0_length (n : nat) (s : string) :
  String.length (substring 0 n s) = Nat.min n (String.length s).
Proof.
  revert s; induction n as [|n IH]; intros [|c s]; simpl; try reflexivity.
  now rewrite IH.
Qed.

End StringFacts.

(* ===================================================================== *)
(** * MD5 and the short hash *)
(* ===================================================================== *)

Example md5_empty : MD5.hexdigest [] = "d41d8cd98f00b204e9800998ecf8427e".
Proof. vm_compute. reflexivity. Qed.

Example md5_abc :
  MD5.hexdigest (PyStr.encode "abc") = "900150983cd24fb0d6963f7d28e17f72".
Proof. vm_compute. reflexivity. Qed.

(** 56 bytes: the padding spills into a second block. *)
Example md5_two_blocks :
  MD5.hexdigest (PyStr.encode
    "aaaaaaaaaaaaaaaaaaaaaaaaaaaaaaaaaaaaaaaaaaaaaaaaaaaaaaaa")
  = "3b0c8ac703f828b04c6c197006d17218".
Proof. vm_compute. reflexivity. Qed.

(** A character above 127 is two bytes of UTF-8. *)
Example md5_latin1 :
  MD5.hexdigest (PyStr.encode (String "c" (String "a" (String "f"
     (String (PyStr.chr 233) ""))))) = "07117fe4a1ebd544965dc19573183da2".
Proof. vm_compute. reflexivity. Qed.

Lemma hex_length (bs : list Z) :
  String.length (MD5.hex bs) = (2 * List.length bs)%nat.
Proof. induction bs as [|b bs IH]; simpl; [reflexivity | rewrite IH; lia]. Qed.

Lemma digest_length (msg : list Z) : List.length (MD5.digest msg) = 16%nat.
Proof. unfold MD5.digest. cbv zeta. rewrite !length_app. reflexivity. Qed.

Lemma hexdigest_length (msg : list Z) :
  String.length (MD5.hexdigest msg) = 32%nat.
Proof. unfold MD5.hexdigest. now rewrite hex_length, digest_length. Qed.

Lemma md5_short_length (url : string) :
  String.length (ContentIdentity.md5_short url) = 12%nat.
Proof.
  unfold ContentIdentity.md5_short, PyStr.take.
  now rewrite substring_0_length, hexdigest_length.
Qed.

(* ===================================================================== *)
(** * ContentIdentity *)
(* ===================================================================== *)

Section ContentIdentityFacts.
Import ContentIdentity Props.

Lemma id_run_split (s : string) :
  exists rest, s = id_run s ++ rest /\ no_id_head rest.
Proof.
  induction s as [|c s [rest [IH1 IH2]]]; simpl.
  - exists ""; split; [reflexivity | exact I].
  - destruct (is_id_char c) eqn:Hc.
    + exists rest; split; [now rewrite append_cons, <- IH1 | assumption].
    + exists (String c s); split; [reflexivity | exact Hc].
Qed.

Lemma id_run_all (s : string) : all_chars is_id_char (id_run s) = true.
Proof.
  induction s as [|c s IH]; simpl; [reflexivity |].
  destruct (is_id_char c) eqn:Hc; simpl; [now rewrite Hc | reflexivity].
Qed.

Lemma id_run_head (c : ascii) (s : string) :
  is_id_char c = true -> id_run (String c s) <> "".
Proof. simpl; intros ->; discriminate. Qed.

Lemma id_run_empty (s : string) : id_run s = "" -> no_id_head s.
Proof.
  destruct s as [|c s]; simpl; [trivial |].
  destruct (is_id_char c); [discriminate | reflexivity].
Qed.

(** What one alternative of the pattern captures. *)
Lemma group_after_Some (m s g : string) :
  group_after m s = Some g ->
  exists rest, s = m ++ g ++ rest /\ g <> ""
               /\ all_chars is_id_char g = true /\ no_id_head rest.
Proof.
  unfold group_after.
  destruct (PyStr.strip_prefix m s) as [r|] eqn:Hp; [| discriminate].
  apply strip_prefix_Some in Hp; subst s.
  destruct (id_run_split r) as [rest [Hr Hrest]].
  pose proof (id_run_all r) as Hall.
  destruct (id_run r) as [|c g'] eqn:Hg; [discriminate |].
  intros [= <-]. exists rest. rewrite <- Hr.
  repeat split; [discriminate | assumption | assumption].
Qed.

Lemma group_after_None (m s : string) :
  group_after m s = None ->
  forall c rest, is_id_char c = true -> s <> m ++ String c rest.
Proof.
  unfold group_after. intros H c rest Hc ->.
  assert (Hp : PyStr.strip_prefix m (m ++ String c rest) = Some (String c rest))
    by now apply strip_prefix_Some.
  rewrite Hp in H. pose proof (id_run_head c rest Hc) as Hne.
  destruct (id_run (String c rest)); [now apply Hne | discriminate].
Qed.

Lemma match_here_Some (s g : string) :
  match_here s = Some g ->
  exists m rest, marker m /\ s = m ++ g ++ rest /\ g <> ""
                 /\ all_chars is_id_char g = true /\ no_id_head rest.
Proof.
  unfold match_here.
  destruct (group_after "/p/" s) as [g1|] eqn:H1.
  - intros [= <-]. destruct (group_after_Some _ _ _ H1) as [rest Hr].
    exists "/p/", rest. split; [now left | exact Hr].
  - intros H2. destruct (group_after_Some _ _ _ H2) as [rest Hr].
    exists "/reel/", rest. split; [now right | exact Hr].
Qed.

Lemma match_here_None (s : string) : match_here s = None -> ~ marker_head s.
Proof.
  unfold match_here.
  destruct (group_after "/p/" s) eqn:H1; [discriminate |].
  intros H2 (m & c & rest & [-> | ->] & Hc & Hs).
  - exact (group_after_None _ _ H1 c rest Hc Hs).
  - exact (group_after_None _ _ H2 c rest Hc Hs).
Qed.

Lemma match_here_head (s g : string) : match_here s = Some g -> marker_head s.
Proof.
  intros H. destruct (match_here_Some _ _ H) as (m & rest & Hm & -> & Hg & Hall & _).
  destruct g as [|c g]; [congruence |].
  simpl in Hall. apply andb_prop in Hall as [Hc _].
  exists m, c, (g ++ rest). repeat split; assumption.
Qed.

(** The search answers the leftmost match. *)
Lemma re_search_Some (s g : string) :
  re_search s = Some g ->
  exists pre tail,
    s = pre ++ tail /\ match_here tail = Some g
    /\ forall pre1 tail1, s = pre1 ++ tail1 ->
         (String.length pre1 < String.length pre)%nat -> ~ marker_head tail1.
Proof.
  induction s as [|c s IH].
  - cbv. discriminate.
  - cbn [re_search]. destruct (match_here (String c s)) as [g1|] eqn:Hm.
    + intros [= <-]. exists "", (String c s).
      split; [reflexivity |]. split; [assumption |].
      intros pre1 tail1 _ Hlt; simpl in Hlt; lia.
    + intros Hs. destruct (IH Hs) as (pre & tail & -> & Ht & Hleft).
      exists (String c pre), tail.
      split; [reflexivity |]. split; [assumption |].
      intros [|c1 pre1] tail1 Heq Hlt.
      * rewrite append_nil_l in Heq. subst tail1. now apply match_here_None.
      * rewrite !append_cons in Heq. simpl in Hlt. injection Heq as -> Heq.
        apply (Hleft pre1 tail1 Heq). lia.
Qed.


End ContentIdentityFacts.


Example extract_video_id_reel :
  ContentIdentity.extract_video_id
    "https://www.instagram.com/reel/Cxyz_12-a/?igsh=1" = "Cxyz_12-a".
Proof. reflexivity. Qed.

Example extract_video_id_hashed :
  ContentIdentity.extract_video_id
    "https://www.instagram.com/stories/highlights/1/" = "448947bc58a4".
Proof. vm_compute. reflexivity. Qed.

(* ===================================================================== *)
(** * CompressionPlanner *)
(* ===================================================================== *)

Section NumberFacts.
Import PyNum.

Lemma gt_iff (x y : Q) : gt x y = true <-> (y < x)%Q.
Proof.
  unfold gt. rewrite negb_true_iff, <- not_true_iff_false, Qle_bool_iff.
  split; [apply Qnot_le_lt | apply Qlt_not_le].
Qed.

Lemma lt_iff (x y : Q) : lt x y = true <-> (x < y)%Q.
Proof. apply gt_iff. Qed.

Lemma max_lower (x y : Q) : (y <= max x y)%Q.
Proof.
  unfold max. destruct (gt y x) eqn:H; [apply Qle_refl |].
  apply Qnot_lt_le. intros Hlt. apply gt_iff in Hlt. congruence.
Qed.

Lemma min_upper_l (x y : Q) : (min x y <= x)%Q.
Proof.
  unfold min. destruct (lt y x) eqn:H; [| apply Qle_refl].
  apply lt_iff in H. now apply Qlt_le_weak.
Qed.

(** [int] does not go below an integer that its argument reaches. *)
Lemma py_int_lower (k : Z) (x : Q) :
  0 <= k -> (inject_Z k <= x)%Q -> k <= py_int x.
Proof.
  destruct x as [n d]. unfold Qle, py_int; simpl. intros Hk H.
  rewrite Z.quot_div_nonneg by lia.
  apply Z.div_le_lower_bound; lia.
Qed.

(** [int] of a non-negative float does not exceed it. *)
Lemma py_int_upper (x : Q) : (0 <= x)%Q -> (inject_Z (py_int x) <= x)%Q.
Proof.
  destruct x as [n d]. unfold Qle, py_int; simpl. intros H.
  rewrite Z.quot_div_nonneg by lia. rewrite Z.mul_1_r in *.
  rewrite Z.mul_comm. apply Z.mul_div_le. lia.
Qed.

(** Comparing sizes in megabytes is comparing them in bytes. *)
Lemma megabytes_gt (a b : Z) : gt (megabytes a) (megabytes b) = (b <? a).
Proof.
  apply eq_true_iff_eq. rewrite gt_iff, Z.ltb_lt.
  unfold megabytes, Qlt, Qdiv, Qmult, Qinv, inject_Z; simpl. lia.
Qed.

Lemma megabytes_gt_const (s k : Z) :
  gt (megabytes s) (inject_Z k) = (k * Props.MB <? s).
Proof.
  apply eq_true_iff_eq. rewrite gt_iff, Z.ltb_lt.
  unfold megabytes, Qlt, Qdiv, Qmult, Qinv, inject_Z, Props.MB; simpl. lia.
Qed.

End NumberFacts.

Section PlannerFacts.
Import PyNum Props.

(** The tier of a size in bytes, for both tables. *)
Lemma main_tier_bytes (s : Z) :
  MainPlanner.tier (megabytes s) =
    if 50 * MB <? s then ((35 # 100)%Q, 1500%Q, 30, Medium)
    else if 20 * MB <? s then ((4 # 10)%Q, 2000%Q, 28, Medium)
    else if 5 * MB <? s then ((45 # 100)%Q, 1500%Q, 27, Medium)
    else ((5 # 10)%Q, 1000%Q, 26, Medium).
Proof.
  unfold MainPlanner.tier.
  change 50%Q with (inject_Z 50). change 20%Q with (inject_Z 20).
  change 5%Q with (inject_Z 5).
  now rewrite !megabytes_gt_const.
Qed.

Lemma hls_tier_bytes (s : Z) :
  HlsPlanner.tier (megabytes s) =
    if 50 * MB <? s then ((2 # 10)%Q, 600%Q, 34, Medium)
    else if 20 * MB <? s then ((25 # 100)%Q, 700%Q, 33, Medium)
    else if 5 * MB <? s then ((3 # 10)%Q, 500%Q, 32, Fast)
    else ((35 # 100)%Q, 400%Q, 31, Fast).
Proof.
  unfold HlsPlanner.tier.
  change 50%Q with (inject_Z 50). change 20%Q with (inject_Z 20).
  change 5%Q with (inject_Z 5).
  now rewrite !megabytes_gt_const.
Qed.

Lemma main_target_floor (orig_size_mb : Q) (current : Z) :
  150 <= MainPlanner.target_kbps orig_size_mb current.
Proof. unfold MainPlanner.target_kbps. apply Z.le_max_r. Qed.

Lemma hls_target_floor (file_size_mb : Q) (current : Z) :
  (150 <= HlsPlanner.target_bitrate file_size_mb current)%Q.
Proof. unfold HlsPlanner.target_bitrate. apply max_lower. Qed.

End PlannerFacts.

Ltac tier_cases :=
  unfold MainPlanner.fraction, MainPlanner.cap, HlsPlanner.fraction,
    HlsPlanner.cap;
  rewrite ?main_tier_bytes, ?hls_tier_bytes; unfold Props.MB in *;
  repeat match goal with
         | |- context [?a <? ?b] => destruct (Z.ltb_spec a b)
         end;
  simpl; try lia; try (unfold Qle; simpl; lia).

(** C7.  Whatever the file size, the duration and the measured or estimated
    bitrate, the video bitrate the planner hands to the encoder is at least
    150 kbps: in main.py (first pass and fallback pass) and in
    instagram_to_HLS_dropbox.py. *)
Theorem target_bitrate_floor :
  (forall (fmt : format_info) (st_size : Z),
      match MainPlanner.plan fmt st_size with
      | Some args => 150 <= arg_bv args
      | None => True
      end)
  /\ (forall target : Z, 150 <= arg_bv (MainPlanner.fallback_pass target))
  /\ (forall (fmt : format_info) (st_size : Z),
        match HlsPlanner.plan fmt st_size with
        | Some args => 150 <= arg_bv args
        | None => True
        end).
Proof.
  split; [| split].
  - intros fmt st_size. unfold MainPlanner.plan.
    destruct (MainPlanner.duration_of fmt); [| exact I].
    simpl. apply main_target_floor.
  - intros target. simpl. unfold MainPlanner.lower_kbps. apply Z.le_max_l.
  - intros fmt st_size. unfold HlsPlanner.plan.
    destruct (HlsPlanner.duration_of fmt); [| exact I].
    destruct (HlsPlanner.current_bitrate_kbps _ _ _); [| exact I].
    simpl. apply py_int_lower; [lia | apply hls_target_floor].
Qed.

(** C6, as the specification states it, fails on both tier tables: a 10 MB
    input gets a higher cap than a 1 MB input. *)
Lemma tier_caps_not_monotone :
  ~ Props.tiers_monotone MainPlanner.fraction MainPlanner.cap
  /\ ~ Props.tiers_monotone HlsPlanner.fraction HlsPlanner.cap.
Proof.
  split; intros H;
    destruct (H (1 * Props.MB) (10 * Props.MB) ltac:(unfold Props.MB; lia))
      as [_ Hcap];
    revert Hcap; tier_cases.
Qed.

(** C6, amended.  In both tier tables the fraction of the original bitrate
    never grows with the input size.  The cap does not follow: it rises with
    the size up to 50 MB and only drops from the [> 20 MB] tier to the
    [> 50 MB] tier. *)
Theorem tier_fraction_monotone :
  (Props.fraction_monotone MainPlanner.fraction
   /\ Props.fraction_monotone HlsPlanner.fraction)
  /\ (Props.cap_rises_then_drops MainPlanner.cap
      /\ Props.cap_rises_then_drops HlsPlanner.cap).
Proof.
  unfold Props.fraction_monotone, Props.cap_rises_then_drops.
  repeat split; intros s1 s2; intros; tier_cases.
Qed.

Lemma tier_fraction_monotone_witness :
  (MainPlanner.fraction (PyNum.megabytes (60 * Props.MB))
   <= MainPlanner.fraction (PyNum.megabytes (1 * Props.MB)))%Q.
Proof.
  apply (proj1 (proj1 tier_fraction_monotone)). unfold Props.MB. lia.
Defined.

Example main_caps :
  map (fun s => MainPlanner.cap (PyNum.megabytes (s * Props.MB))) [1; 10; 30; 60]
  = [1000%Q; 1500%Q; 2000%Q; 1500%Q].
Proof. reflexivity. Qed.

Example hls_caps :
  map (fun s => HlsPlanner.cap (PyNum.megabytes (s * Props.MB))) [1; 10; 30; 60]
  = [400%Q; 500%Q; 700%Q; 600%Q].
Proof. reflexivity. Qed.

(* ===================================================================== *)
(** * Manifest rewrite *)
(* ===================================================================== *)

Section LineFacts.
Import PyStr Props.

Lemma split_lines_nonempty (s : string) : split_lines s <> [].
Proof.
  induction s as [|c s IH]; simpl; [discriminate |].
  destruct (Ascii.eqb c newline); [discriminate |].
  destruct (split_lines s); discriminate.
Qed.

(** Splitting loses nothing. *)
Lemma join_split (s : string) : join_lines (split_lines s) = s.
Proof.
  induction s as [|c s IH]; simpl; [reflexivity |].
  destruct (Ascii.eqb_spec c newline) as [-> | Hc].
  - cbn [join_lines]. pose proof (split_lines_nonempty s) as Hne.
    destruct (split_lines s) as [|l ls]; [congruence |].
    now rewrite IH.
  - pose proof (split_lines_nonempty s) as Hne.
    destruct (split_lines s) as [|l ls]; [congruence |].
    rewrite <- IH. destruct ls; cbn [join_lines]; now rewrite ?append_cons.
Qed.

Lemma split_lines_single (s : string) :
  Forall (fun l => single_line l = true) (split_lines s).
Proof.
  induction s as [|c s IH]; simpl.
  - constructor; [reflexivity | constructor].
  - destruct (Ascii.eqb c newline) eqn:Hc.
    + constructor; [reflexivity | exact IH].
    + pose proof (split_lines_nonempty s) as Hne.
      destruct (split_lines s) as [|l ls]; [congruence |].
      inversion IH as [|? ? Hl Hls]; subst.
      constructor; [| assumption].
      unfold single_line in *; simpl. now rewrite Hc.
Qed.

Lemma split_single (l : string) : single_line l = true -> split_lines l = [l].
Proof.
  induction l as [|c l IH]; [reflexivity |].
  unfold single_line; simpl. intros H. apply andb_prop in H as [Hc Hl].
  apply negb_true_iff in Hc. rewrite Hc, (IH Hl). reflexivity.
Qed.

Lemma split_append_newline (l s : string) :
  single_line l = true ->
  split_lines (l ++ String newline s) = l :: split_lines s.
Proof.
  induction l as [|c l IH]; intros H.
  - reflexivity.
  - unfold single_line in H; simpl in H. apply andb_prop in H as [Hc Hl].
    apply negb_true_iff in Hc. rewrite append_cons. simpl.
    now rewrite Hc, (IH Hl).
Qed.

(** Joining lines that hold no newline and splitting again gives the
    lines back. *)
Lemma split_join (ls : list string) :
  ls <> [] -> Forall (fun l => single_line l = true) ls ->
  split_lines (join_lines ls) = ls.
Proof.
  induction ls as [|l ls IH]; [congruence |]. intros _ H.
  inversion H as [|? ? Hl Hls]; subst.
  destruct ls as [|l' ls].
  - now apply split_single.
  - change (join_lines (l :: l' :: ls))
      with (l ++ String newline (join_lines (l' :: ls))).
    rewrite (split_append_newline _ _ Hl), IH; [reflexivity | discriminate | assumption].
Qed.

Lemma substring_append (a p : string) :
  substring (String.length a) (String.length p) (a ++ p) = p.
Proof.
  induction a as [|c a IH]; [| now rewrite append_cons].
  rewrite append_nil_l. simpl.
  induction p as [|c p IHp]; simpl; [reflexivity | now rewrite IHp].
Qed.

Lemma endswith_append (a p : string) : endswith (a ++ p) p = true.
Proof.
  unfold endswith. rewrite length_append.
  replace (String.length a + String.length p - String.length p)%nat
    with (String.length a) by lia.
  rewrite substring_append, String.eqb_refl.
  apply andb_true_intro; split; [apply Nat.leb_le; lia | reflexivity].
Qed.

End LineFacts.

Section ManifestFacts.
Import PyStr Props Manifest.

Context (segment_urls : gmap string string).

Lemma comment_unchanged (l : string) :
  is_comment l = true -> rewrite_line segment_urls l = l.
Proof.
  unfold is_comment, startswith, rewrite_line, is_segment_line.
  destruct l as [|c l]; [reflexivity |]. cbn [strip_prefix].
  destruct (Ascii.eqb_spec "#" c) as [<- | Hc]; [reflexivity | discriminate].
Qed.

Lemma unknown_unchanged (l : string) :
  segment_urls !! l = None -> rewrite_line segment_urls l = l.
Proof.
  intros H. unfold rewrite_line, replace_segment_url. rewrite H.
  destruct (is_segment_line l), (endswith l ".ts"); reflexivity.
Qed.

Lemma known_replaced (l u : string) :
  segment_file_name l -> is_comment l = false ->
  segment_urls !! l = Some u -> rewrite_line segment_urls l = u.
Proof.
  intros (c & stem & -> & Hsp) Hcom Hu.
  unfold rewrite_line, replace_segment_url. rewrite Hu.
  assert (Hseg : is_segment_line (String c (stem ++ ".ts")) = true).
  { unfold is_segment_line. rewrite Hsp, endswith_append.
    unfold is_comment, startswith in Hcom. cbn [strip_prefix] in Hcom.
    rewrite Ascii.eqb_sym. destruct (Ascii.eqb "#" c); [discriminate | reflexivity]. }
  rewrite Hseg. rewrite <- append_cons, endswith_append. reflexivity.
Qed.

Lemma rewrite_line_single (l : string) :
  known_segments segment_urls ->
  single_line l = true -> single_line (rewrite_line segment_urls l) = true.
Proof.
  intros Hk Hl. unfold rewrite_line, replace_segment_url.
  destruct (is_segment_line l); [| assumption].
  destruct (endswith l ".ts"); [| assumption].
  destruct (segment_urls !! l) as [u|] eqn:Hu; [| assumption].
  now destruct (Hk l u Hu).
Qed.

(** The rewritten playlist, line by line. *)
Lemma fix_playlist_lines (content : string) :
  known_segments segment_urls ->
  split_lines (fix_playlist segment_urls content)
  = map (rewrite_line segment_urls) (split_lines content).
Proof.
  intros Hk. unfold fix_playlist. apply split_join.
  - pose proof (split_lines_nonempty content).
    destruct (split_lines content); [congruence | discriminate].
  - apply Forall_fmap.
    eapply Forall_impl; [apply split_lines_single |].
    intros l Hl. now apply rewrite_line_single.
Qed.

End ManifestFacts.

(** C9.  The rewritten playlist has the lines of the packaged one, in the
    same order, where: a line that is not a comment, ends in [.ts] and is the
    name of a known segment is replaced by that segment's link; a comment or
    directive line, and a line that is no known segment's name, are left as
    they are. *)
Theorem manifest_rewrite
    (segment_urls : gmap string string) (content : string)
    (Hknown : Props.known_segments segment_urls) :
  let out := PyStr.split_lines (Manifest.fix_playlist segment_urls content) in
  List.length out = List.length (PyStr.split_lines content)
  /\ forall (i : nat) (l : string),
       PyStr.split_lines content !! i = Some l ->
       (forall u, Props.is_comment l = false ->
                  PyStr.endswith l ".ts" = true ->
                  segment_urls !! l = Some u -> out !! i = Some u)
       /\ (Props.is_comment l = true -> out !! i = Some l)
       /\ (segment_urls !! l = None -> out !! i = Some l).
Proof.
  cbv zeta. rewrite (fix_playlist_lines _ _ Hknown). split.
  - apply length_map.
  - intros i l Hi. rewrite list_lookup_fmap, Hi. simpl.
    split; [| split].
    + intros u Hcom _ Hu. f_equal.
      destruct (Hknown l u Hu) as [Hname _]. now apply known_replaced.
    + intros Hcom. f_equal. now apply comment_unchanged.
    + intros Hu. f_equal. now apply unknown_unchanged.
Qed.

(** Lines that are left alone are so byte for byte: with no known segment
    the playlist is returned as it is. *)
Lemma fix_playlist_no_segments (content : string) :
  Manifest.fix_playlist ∅ content = content.
Proof.
  unfold Manifest.fix_playlist.
  rewrite (map_ext_in _ (fun l => l)), map_id; [apply join_split |].
  intros l _. now apply unknown_unchanged.
Qed.

Lemma manifest_rewrite_witness :
  PyStr.split_lines
    (Manifest.fix_playlist {["a_00000.ts" := "https://dl.example/a0?raw=1"]}
       "#EXTM3U
a_00000.ts
b_00000.ts") !! 1%nat
  = Some "https://dl.example/a0?raw=1".
Proof.
  assert (Hk : Props.known_segments
                 {["a_00000.ts" := "https://dl.example/a0?raw=1"]}).
  { intros k u H. apply lookup_singleton_Some in H as [<- <-].
    split; [now exists "a"%char, "_00000" | reflexivity]. }
  apply (proj2 (manifest_rewrite _ _ Hk) 1%nat "a_00000.ts");
    reflexivity.
Defined.

(* ===================================================================== *)
(** * DedupeLedger *)
(* ===================================================================== *)

Section LedgerFacts.
Import DuplicateTracker.

Lemma save_returns (env : environment) (w : world) :
  (save env w).1 = Ret tt.
Proof.
  unfold save, try_except, write_text.
  destruct (answer env (tick w)); reflexivity.
Qed.

Lemma mark_processed_returns (url : string) (env : environment) (w : world) :
  (mark_processed url env w).1 = Ret tt.
Proof.
  unfold mark_processed, bind, modify, emit, save, try_except, write_text.
  simpl. destruct (answer env (tick w)); reflexivity.
Qed.

Lemma mark_processed_member (url : string) (env : environment) (w : world) :
  ContentIdentity.extract_video_id url ∈ processed (mark_processed url env w).2.
Proof.
  unfold mark_processed, bind, modify, emit, save, try_except, write_text.
  simpl. destruct (answer env (tick w)); simpl; set_solver.
Qed.

(** Marking and then asking gives true; the file of a successful save
    holds the same identifiers as the set. *)
Lemma mark_then_is_duplicate (url : string) (env : environment) (w : world) :
  (is_duplicate url env (mark_processed url env w).2).1 = Ret true.
Proof.
  unfold is_duplicate, bind, get_world, ret. cbn [fst].
  rewrite bool_decide_eq_true_2; [reflexivity | apply mark_processed_member].
Qed.

Lemma saved_then_loaded (url : string) (env : environment) (w : world) :
  answer env (tick w) = Fine ->
  load (db_file (mark_processed url env w).2)
  = processed (mark_processed url env w).2.
Proof.
  intros H.
  unfold mark_processed, bind, modify, emit, save, try_except, write_text.
  simpl. rewrite H. simpl. apply list_to_set_elements_L.
Qed.

End LedgerFacts.

(** C10.  [save] and [mark_processed] never raise.  When the write of the
    ledger file fails, [mark_processed] still returns normally and the
    identifier is in the in-memory set, while the file is left as it was or
    unreadable: an identifier that was not in the file before is still not
    in it, and a restart, which rebuilds the set from the file, has forgotten
    it. *)
Theorem mark_processed_swallows_save_failure
    (url : string) (env : environment) (w : world) :
  let id := ContentIdentity.extract_video_id url in
  let w' := (DuplicateTracker.mark_processed url env w).2 in
  (DuplicateTracker.save env w).1 = Ret tt
  /\ (DuplicateTracker.mark_processed url env w).1 = Ret tt
  /\ id ∈ processed w'
  /\ forall e, answer env (tick w) = Fault e ->
       (db_file w' = db_file w \/ db_file w' = Unreadable)
       /\ (id ∉ DuplicateTracker.load (db_file w) ->
           (id ∉ DuplicateTracker.load (db_file w'))
           /\ (id ∉ processed (DuplicateTracker.restart w'))).
Proof.
  cbv zeta. split; [apply save_returns |].
  split; [apply mark_processed_returns |].
  split; [apply mark_processed_member |].
  intros e He.
  unfold DuplicateTracker.mark_processed, bind, modify, emit,
    DuplicateTracker.save, try_except, DuplicateTracker.write_text,
    DuplicateTracker.restart.
  simpl. rewrite He. simpl.
  destruct (torn env (tick w)); simpl.
  - split; [now right |]. intros _. split; set_solver.
  - split; [now left |]. intros H. split; exact H.
Qed.

Lemma mark_processed_swallows_save_failure_witness :
  let env :=
    Environment (fun _ => Fault (Exn OtherError "No space left on device"))
      (fun _ => no_format) (fun _ => 0) (fun _ => "mp4") (fun _ => "0")
      (fun _ => 0%nat) (fun _ => "") (fun _ => "") (fun _ => [])
      (fun _ => false) in
  let w := World 0 [] ∅ NoFile ∅ ∅ in
  let w' := (DuplicateTracker.mark_processed
               "https://www.instagram.com/p/abc123/" env w).2 in
  ("abc123" ∈ processed w')
  /\ ("abc123" ∉ processed (DuplicateTracker.restart w')).
Proof.
  intros env w w'.
  pose proof (mark_processed_swallows_save_failure
                "https://www.instagram.com/p/abc123/" env w) as H.
  cbv zeta in H. destruct H as (_ & _ & Hin & Hfail).
  split; [exact Hin |].
  destruct (Hfail _ eq_refl) as [_ Hforgot].
  apply Hforgot. vm_compute. set_solver.
Defined.

(* ===================================================================== *)
(** * Reasoning about [M] *)
(* ===================================================================== *)

#[local] Open Scope list_scope.

Section Logic.
Import Props.

Lemma spec_conseq {A} (m : M A) (R R' : A -> list event -> Prop)
    (E E' : exn -> list event -> Prop) :
  spec m R E ->
  (forall a evs, R a evs -> R' a evs) ->
  (forall e evs, E e evs -> E' e evs) ->
  spec m R' E'.
Proof.
  intros H HR HE env w. destruct (H env w) as [evs [Ht Hr]].
  exists evs. split; [assumption |].
  destruct (m env w).1; auto.
Qed.

Lemma spec_ret {A} (a : A) (R : A -> list event -> Prop) E :
  R a [] -> spec (ret a) R E.
Proof. intros H env w. exists []. simpl. now rewrite app_nil_r. Qed.

Lemma spec_raise {A} (e : exn) (R : A -> list event -> Prop)
    (E : exn -> list event -> Prop) :
  E e [] -> spec (raise e) R E.
Proof. intros H env w. exists []. simpl. now rewrite app_nil_r. Qed.

Lemma spec_bind {A B} (m : M A) (k : A -> M B)
    (R1 : A -> list event -> Prop) (E1 : exn -> list event -> Prop)
    (R : B -> list event -> Prop) (E : exn -> list event -> Prop) :
  spec m R1 E1 ->
  (forall e evs, E1 e evs -> E e evs) ->
  (forall a evs1, R1 a evs1 ->
     spec (k a) (fun b evs2 => R b (evs1 ++ evs2))
                (fun e evs2 => E e (evs1 ++ evs2))) ->
  spec (bind m k) R E.
Proof.
  intros Hm HE Hk env w. unfold bind.
  destruct (Hm env w) as [evs1 [Ht1 Hr1]].
  destruct (m env w) as [[a | e] w1]; simpl in *.
  - destruct (Hk a evs1 Hr1 env w1) as [evs2 [Ht2 Hr2]].
    exists (evs1 ++ evs2). rewrite Ht2, Ht1, app_assoc. split; [reflexivity | exact Hr2].
  - exists evs1. split; [assumption | now apply HE].
Qed.

Lemma spec_try_except {A} (m : M A) (h : exn -> M A)
    (R1 : A -> list event -> Prop) (E1 : exn -> list event -> Prop)
    (R : A -> list event -> Prop) (E : exn -> list event -> Prop) :
  spec m R1 E1 ->
  (forall a evs, R1 a evs -> R a evs) ->
  (forall e evs1, E1 e evs1 ->
     spec (h e) (fun b evs2 => R b (evs1 ++ evs2))
                (fun e' evs2 => E e' (evs1 ++ evs2))) ->
  spec (try_except m h) R E.
Proof.
  intros Hm HR Hh env w. unfold try_except.
  destruct (Hm env w) as [evs1 [Ht1 Hr1]].
  destruct (m env w) as [[a | e] w1]; simpl in *.
  - exists evs1. split; [assumption | now apply HR].
  - destruct (Hh e evs1 Hr1 env w1) as [evs2 [Ht2 Hr2]].
    exists (evs1 ++ evs2). rewrite Ht2, Ht1, app_assoc. split; [reflexivity | exact Hr2].
Qed.

(** [finally] with a block that never raises. *)
Lemma spec_try_finally {A} (m : M A) (f : M unit)
    (R1 : A -> list event -> Prop) (E1 : exn -> list event -> Prop)
    (F : list event -> Prop)
    (R : A -> list event -> Prop) (E : exn -> list event -> Prop) :
  spec m R1 E1 ->
  spec f (fun _ evs => F evs) (fun _ _ => False) ->
  (forall a evs1 evs2, R1 a evs1 -> F evs2 -> R a (evs1 ++ evs2)) ->
  (forall e evs1 evs2, E1 e evs1 -> F evs2 -> E e (evs1 ++ evs2)) ->
  spec (try_finally m f) R E.
Proof.
  intros Hm Hf HR HE env w. unfold try_finally.
  destruct (Hm env w) as [evs1 [Ht1 Hr1]].
  destruct (m env w) as [r w1]; simpl in *.
  destruct (Hf env w1) as [evs2 [Ht2 Hr2]].
  destruct (f env w1) as [[[] | e'] w2]; simpl in *; [| contradiction].
  exists (evs1 ++ evs2). rewrite Ht2, Ht1, app_assoc. split; [reflexivity |].
  destruct r; [now apply HR | now apply HE].
Qed.

Lemma spec_silent {A} (m : M A) :
  silent m -> spec m (fun _ evs => evs = []) (fun _ evs => evs = []).
Proof.
  intros H env w. exists []. rewrite app_nil_r. split; [apply H |].
  destruct (m env w).1; reflexivity.
Qed.

Lemma spec_emit (e : event) :
  spec (emit e) (fun _ evs => evs = [e]) (fun _ _ => False).
Proof. intros env w. exists [e]. split; reflexivity. Qed.

Lemma spec_external (ev : bool -> event) :
  spec (external ev) (fun _ evs => evs = [ev true])
                     (fun _ evs => evs = [ev false]).
Proof.
  intros env w. unfold external.
  destruct (answer env (tick w)); eexists; split; reflexivity.
Qed.

Lemma spec_telegram (n : notice) :
  spec (telegram n) (fun _ evs => evs = [Telegram n true])
                    (fun _ evs => evs = [Telegram n false]).
Proof.
  unfold telegram. eapply spec_bind; [apply spec_external | auto |].
  intros _ evs1 ->. apply spec_ret. reflexivity.
Qed.

(** A loop keeps what each of its turns keeps. *)
Lemma spec_for_in {A S} (I J : list event -> Prop)
    (body : A -> S -> M S) (xs : list A) :
  (forall x s evs0, In x xs -> I evs0 ->
     spec (body x s) (fun _ evs => I (evs0 ++ evs))
                     (fun _ evs => J (evs0 ++ evs))) ->
  forall s evs0, I evs0 ->
    spec (for_in xs body s) (fun _ evs => I (evs0 ++ evs))
                            (fun _ evs => J (evs0 ++ evs)).
Proof.
  induction xs as [|x xs IH]; intros Hbody s evs0 H0.
  - apply spec_ret. now rewrite app_nil_r.
  - cbn [for_in]. eapply spec_bind.
    + apply (Hbody x s evs0); [now left | assumption].
    + auto.
    + intros s' evs1 H1. simpl.
      eapply spec_conseq.
      * apply (IH (fun y t e0 Hy => Hbody y t e0 (or_intror Hy)) s' _ H1).
      * intros ? evs; simpl. now rewrite app_assoc.
      * intros ? evs; simpl. now rewrite app_assoc.
Qed.

Lemma spec_for_in_silent {A S} (body : A -> S -> M S) (xs : list A) (s : S) :
  (forall x s, spec (body x s) (fun _ evs => evs = []) (fun _ _ => False)) ->
  spec (for_in xs body s) (fun _ evs => evs = []) (fun _ _ => False).
Proof.
  intros Hbody.
  eapply spec_conseq.
  - apply (spec_for_in (fun evs => evs = []) (fun _ => False) body xs)
      with (s := s) (evs0 := []); [| reflexivity].
    intros x s' evs0 _ ->.
    eapply spec_conseq; [apply (Hbody x s') | |]; cbv beta.
    + now intros _ evs ->.
    + now intros _ evs [].
  - now intros.
  - now intros.
Qed.

Lemma spec_ret_value {A} (a : A) :
  spec (ret a) (fun b evs => b = a /\ evs = []) (fun _ _ => False).
Proof. now apply spec_ret. Qed.

Lemma spec_raise_value {A} (e : exn) :
  spec (@raise A e) (fun _ _ => False) (fun e' evs => e' = e /\ evs = []).
Proof. now apply spec_raise. Qed.

Lemma spec_modify (f : world -> world) :
  (forall w, trace (f w) = trace w) ->
  spec (modify f) (fun _ evs => evs = []) (fun _ _ => False).
Proof.
  intros H env w. exists []. rewrite app_nil_r. split; [apply H | reflexivity].
Qed.

(** ** Operations that leave the trace alone *)

Lemma spec_never_raises {A} (m : M A) :
  silent m -> total m ->
  spec m (fun _ evs => evs = []) (fun _ _ => False).
Proof.
  intros Hs Ht env w. exists []. rewrite app_nil_r. split; [apply Hs |].
  destruct (Ht env w) as [a ->]. reflexivity.
Qed.

Lemma spec_get_world :
  spec get_world (fun _ evs => evs = []) (fun _ _ => False).
Proof. apply spec_never_raises; intros env w; [reflexivity | now eexists]. Qed.

Lemma spec_reading {A} (f : environment -> nat -> A) (n : nat) :
  spec (reading f n) (fun _ evs => evs = []) (fun _ _ => False).
Proof. apply spec_never_raises; intros env w; [reflexivity | now eexists]. Qed.

Lemma spec_written (p : path) (f : file) :
  spec (Fs.written p f) (fun _ evs => evs = []) (fun _ _ => False).
Proof. apply spec_never_raises; intros env w; [reflexivity | now eexists]. Qed.

Lemma spec_is_duplicate (url : string) :
  spec (DuplicateTracker.is_duplicate url)
       (fun _ evs => evs = []) (fun _ _ => False).
Proof. apply spec_never_raises; intros env w; [reflexivity | now eexists]. Qed.

Lemma spec_stat (p : path) :
  spec (Fs.stat p) (fun _ evs => evs = []) (fun _ evs => evs = []).
Proof.
  apply spec_silent. intros env w. unfold Fs.stat. now destruct (files w !! p).
Qed.

Lemma silent_read_bytes (p : path) : silent (Fs.read_bytes p).
Proof. intros env w. unfold Fs.read_bytes. now destruct (files w !! p). Qed.

Lemma silent_read_text (p : path) : silent (Fs.read_text p).
Proof.
  intros env w. unfold Fs.read_text, Fs.read_bytes, bind, ret.
  now destruct (files w !! p).
Qed.

Lemma spec_read_bytes (p : path) :
  spec (Fs.read_bytes p) (fun _ evs => evs = []) (fun _ evs => evs = []).
Proof. apply spec_silent, silent_read_bytes. Qed.

Lemma spec_read_text (p : path) :
  spec (Fs.read_text p) (fun _ evs => evs = []) (fun _ evs => evs = []).
Proof. apply spec_silent, silent_read_text. Qed.

(** A call through [run_in_executor] raises and does nothing else. *)
Lemma spec_run_in_executor {A} (f : M A) :
  spec (Main.run_in_executor f)
    (fun _ _ => False) (fun e evs => e = Main.no_run_in_executor /\ evs = []).
Proof. unfold Main.run_in_executor. now apply spec_raise. Qed.

(** The cleanup of the handler's [finally] block: the call raises, which
    is swallowed. *)
Lemma spec_cleanup_in_executor (f : M unit) :
  spec (try_except (Main.run_in_executor f) (fun _ => ret tt))
    (fun _ evs => evs = []) (fun _ _ => False).
Proof.
  apply (spec_try_except _ _ (fun _ _ => False) (fun _ evs => evs = [])).
  - eapply spec_conseq; [apply spec_run_in_executor | auto | now intros ? ? []].
  - intros a evs [].
  - intros e evs ->. now apply spec_ret.
Qed.

Lemma silent_get_world : silent get_world.
Proof. intros env w. reflexivity. Qed.

Lemma silent_reading {A} (f : environment -> nat -> A) (n : nat) :
  silent (reading f n).
Proof. intros env w. reflexivity. Qed.

Lemma silent_stat (p : path) : silent (Fs.stat p).
Proof. intros env w. unfold Fs.stat. now destruct (files w !! p). Qed.

Lemma silent_written (p : path) (f : file) : silent (Fs.written p f).
Proof. intros env w. reflexivity. Qed.

Lemma silent_is_duplicate (url : string) :
  silent (DuplicateTracker.is_duplicate url).
Proof. intros env w. reflexivity. Qed.

End Logic.

Create HintDb contracts discriminated.

#[export] Hint Resolve spec_external spec_telegram spec_emit : contracts.
#[export] Hint Resolve spec_get_world spec_reading spec_written
  spec_is_duplicate spec_stat spec_read_bytes spec_read_text spec_ret_value
  spec_raise_value spec_run_in_executor spec_for_in_silent : contracts.

(** The contract of the program at hand, from the hint base. *)
Ltac by_contract :=
  unfold logger, sleep; solve [eauto 3 with contracts nocore].

(** Opens the conjunctions and existentials of the contracts met so far. *)
Ltac tidy :=
  repeat match goal with
         | H : _ /\ _ |- _ => destruct H
         | H : exists _, _ |- _ => destruct H
         end;
  subst.

(** Walks down a chain of [bind]s.  It leaves one goal for each point where
    the chain can raise, and stops at the first program that is no [bind],
    [ret] or [raise]. *)
Ltac run :=
  repeat lazymatch goal with
    | |- Props.spec (bind _ _) _ _ =>
        eapply spec_bind;
        [ by_contract
        | cbv beta; intros; tidy; try contradiction
        | cbv beta; intros; tidy; try contradiction ]
    | |- Props.spec (ret _) _ _ => apply spec_ret
    | |- Props.spec (raise _) _ _ => apply spec_raise
    | |- Props.spec _ _ _ =>
        eapply spec_conseq;
        [ by_contract
        | cbv beta; intros; tidy; try contradiction
        | cbv beta; intros; tidy; try contradiction ]
    end.


(* ===================================================================== *)
(** * main.py: what each step adds to the trace *)
(* ===================================================================== *)

Section EventFacts.
Import Props.

Lemma calm_quiet (evs : list event) :
  Forall (fun e => calm e = true) evs -> Forall (fun e => quiet e = true) evs.
Proof.
  intros H. eapply Forall_impl; [exact H |].
  intros e He. unfold calm in He. now apply andb_prop in He as [Hq _].
Qed.

Lemma calm_transfers (evs : list event) :
  Forall (fun e => calm e = true) evs ->
  Forall (fun e => failed_transfer e = false) evs.
Proof.
  intros H. eapply Forall_impl; [exact H |].
  intros e He. unfold calm in He. apply andb_prop in He as [_ Hf].
  now apply negb_true_iff in Hf.
Qed.

Lemma quiet_unmarked (evs : list event) :
  Forall (fun e => quiet e = true) evs ->
  Forall (fun e => is_marked e = false) evs.
Proof.
  intros H. eapply Forall_impl; [exact H |].
  intros e He. unfold quiet in He. apply negb_true_iff in He.
  now apply orb_false_elim in He as [Hm _].
Qed.

End EventFacts.

(** What a hypothesis on calm events says of weaker tests. *)
Ltac weaken_calm :=
  repeat match goal with
         | H : Forall (fun e => Props.calm e = true) ?l |- _ =>
             lazymatch goal with
             | _ : Forall (fun e => Props.quiet e = true) l |- _ => fail
             | _ => pose proof (calm_quiet l H)
             end
         | H : Forall (fun e => Props.calm e = true) ?l |- _ =>
             lazymatch goal with
             | _ : Forall (fun e => Props.failed_transfer e = false) l |- _ => fail
             | _ => pose proof (calm_transfers l H)
             end
         | H : Forall (fun e => Props.quiet e = true) ?l |- _ =>
             lazymatch goal with
             | _ : Forall (fun e => Props.is_marked e = false) l |- _ => fail
             | _ => pose proof (quiet_unmarked l H)
             end
         end.

(** Goals on events of a list that all pass a boolean test. *)
Ltac all_events :=
  weaken_calm;
  repeat first [rewrite Forall_app | rewrite Forall_cons | rewrite Forall_nil];
  repeat match goal with
         | |- _ /\ _ => split
         | |- True => exact I
         | |- _ = _ => reflexivity
         | |- Forall _ _ => assumption
         end.

Section MainSteps.
Import Props Main.

Lemma download_contract (url : string) :
  spec (download_instagram_video url)
    (fun f evs => evs = [YtDlp url true; Log (DownloadedTo f)])
    (fun _ evs => evs = [YtDlp url false]).
Proof. unfold download_instagram_video, Fs.written. run; reflexivity. Qed.

Lemma ffprobe_contract (p : path) :
  spec (ffprobe_json p)
    (fun _ evs => exists ok, evs = [Ffprobe p ok]) (fun _ _ => False).
Proof.
  unfold ffprobe_json.
  apply (spec_try_except _ _ (fun _ evs => evs = [Ffprobe p true])
                             (fun _ evs => evs = [Ffprobe p false])).
  - run; reflexivity.
  - intros a evs ->. now exists true.
  - intros e evs ->. apply spec_ret. now exists false.
Qed.

Lemma run_ffmpeg_contract (p out : path) (args : ffmpeg_args) :
  spec (run_ffmpeg p out args)
    (fun _ evs => evs = [Ffmpeg p args true])
    (fun _ evs => evs = [Ffmpeg p args false]).
Proof. unfold run_ffmpeg, Fs.written. run; reflexivity. Qed.

#[local] Hint Resolve download_contract ffprobe_contract
  run_ffmpeg_contract : contracts.

Lemma remove_contract (p : path) :
  spec (Fs.remove p) (fun _ evs => evs = [Remove p true])
                     (fun _ evs => evs = [Remove p false]).
Proof.
  intros env w. unfold Fs.remove, bind, external, modify.
  destruct (answer env (tick w)); eexists; split; reflexivity.
Qed.

Lemma mkdir_contract (p : path) :
  spec (Fs.mkdir p) (fun _ evs => evs = [Mkdir p true])
                    (fun _ evs => evs = [Mkdir p false]).
Proof.
  intros env w. unfold Fs.mkdir, bind, external, modify.
  destruct (answer env (tick w)); eexists; split; reflexivity.
Qed.

#[local] Hint Resolve remove_contract mkdir_contract : contracts.

Lemma sanity_check_contract (p out : path) (orig : Q) (target : Z) :
  spec (sanity_check p out orig target)
    (fun _ evs => Forall (fun e => calm e = true) evs) (fun _ _ => False).
Proof.
  unfold sanity_check.
  apply (spec_try_except _ _
           (fun _ evs => Forall (fun e => calm e = true) evs)
           (fun _ evs => Forall (fun e => calm e = true) evs)).
  - run; [constructor |].
    destruct (PyNum.gt _ _); run; all_events.
  - auto.
  - intros e evs H. apply spec_ret. now rewrite app_nil_r.
Qed.

#[local] Hint Resolve sanity_check_contract : contracts.

Lemma compress_contract (p : path) :
  spec (aggressive_compress p)
    (fun c evs =>
       Forall (fun e => calm e = true) evs
       /\ exists args,
           [Ffmpeg p args true; Log (CompressionFinished c)] `sublist_of` evs)
    (fun _ evs => Forall (fun e => quiet e = true) evs).
Proof.
  unfold aggressive_compress. cbv zeta. run.
  destruct (MainPlanner.duration_of _); run; try solve [all_events].
  split; [all_events |].
    eexists. apply sublist_cons, sublist_skip, sublist_inserts_l.
    apply sublist_skip, sublist_nil.
Qed.

Lemma generate_hls_contract (input : path) (video_id : string) (secs : Z) :
  spec (generate_hls input video_id secs)
    (fun d evs =>
       Forall (fun e => calm e = true) evs
       /\ [FfmpegHls input d secs true; Log (HlsGenerated d)] `sublist_of` evs)
    (fun _ evs => Forall (fun e => quiet e = true) evs).
Proof.
  unfold generate_hls. cbv zeta. run.
  destruct (Fs.exists_ _ _); run; try solve [all_events].
  - split; [all_events |].
    apply sublist_cons, sublist_cons. simpl. apply sublist_skip, sublist_skip, sublist_nil.
  - split; [all_events |].
    apply sublist_cons. simpl. apply sublist_skip, sublist_skip, sublist_nil.
Qed.

Lemma share_segment_contract (remote name : string) urls :
  spec (share_segment remote name urls)
    (fun _ evs => Forall (fun e => calm e = true) evs)
    (fun _ evs => Forall (fun e => calm e = true) evs).
Proof.
  unfold share_segment.
  apply (spec_try_except _ _
           (fun _ evs => evs = [CreateLink remote true])
           (fun _ evs => evs = [CreateLink remote false])).
  - run; reflexivity.
  - intros a evs ->. all_events.
  - intros e evs ->.
    destruct (PyStr.contains _ _); run; try solve [all_events].
    destruct a0; run; all_events.
Qed.

#[local] Hint Resolve share_segment_contract : contracts.

Lemma upload_segment_contract (folder : string) (f : path) urls :
  spec (upload_segment folder f urls)
    (fun _ evs => Forall (fun e => calm e = true) evs)
    (fun _ evs => Forall (fun e => quiet e = true) evs).
Proof.
  unfold upload_segment. cbv zeta. run; all_events.
Qed.

Lemma upload_playlist_contract (folder : string) urls (f : path) :
  spec (upload_playlist folder urls f tt)
    (fun _ evs => Forall (fun e => calm e = true) evs)
    (fun _ evs => Forall (fun e => quiet e = true) evs).
Proof. unfold upload_playlist. cbv zeta. run; all_events. Qed.

Lemma upload_contract (local_dir : path) (base : string) :
  spec (upload_hls_folder local_dir base)
    (fun _ evs =>
       Forall (fun e => calm e = true) evs
       /\ [Log (UploadComplete (Fs.name local_dir))] `sublist_of` evs)
    (fun _ evs => Forall (fun e => quiet e = true) evs).
Proof.
  unfold upload_hls_folder. run.
  destruct (negb _); [run; constructor |]. cbv zeta.
  eapply spec_bind.
  - apply (spec_for_in (fun evs => Forall (fun e => calm e = true) evs)
                       (fun evs => Forall (fun e => quiet e = true) evs))
      with (evs0 := []); [| constructor].
    intros f urls evs0 _ H0.
    eapply spec_conseq; [apply upload_segment_contract | |]; cbv beta.
    + intros _ evs H. all_events.
    + intros _ evs H. all_events.
  - cbv beta. intros e evs H. exact H.
  - cbv beta. intros urls evs1 H1. simpl in H1. run.
    eapply spec_bind.
    + apply (spec_for_in (fun evs => Forall (fun e => calm e = true) evs)
                         (fun evs => Forall (fun e => quiet e = true) evs))
        with (evs0 := []); [| constructor].
      intros f [] evs0 _ H0.
      eapply spec_conseq; [apply upload_playlist_contract | |]; cbv beta.
      * intros _ evs H. all_events.
      * intros _ evs H. all_events.
    + cbv beta. intros e evs H. simpl in H. all_events.
    + cbv beta. intros [] evs2 H2. simpl in H2. run. split; [all_events |].
      simpl. apply sublist_inserts_l, sublist_inserts_l. reflexivity.
Qed.

Lemma mark_processed_contract (url : string) :
  spec (DuplicateTracker.mark_processed url)
    (fun _ evs =>
       exists ids ok,
         evs = [Marked (ContentIdentity.extract_video_id url);
                WriteLedger ids ok])
    (fun _ _ => False).
Proof.
  intros env w.
  unfold DuplicateTracker.mark_processed, bind, modify, emit,
    DuplicateTracker.save, try_except, DuplicateTracker.write_text.
  simpl. destruct (answer env (tick w)); simpl;
    rewrite <- app_assoc; eexists; (split; [reflexivity |]); eauto.
Qed.

Lemma cleanup_entry_contract (p : path) :
  spec (cleanup_entry p tt)
    (fun _ evs => Forall (fun e => housekeeping e = true) evs)
    (fun _ _ => False).
Proof.
  unfold cleanup_entry.
  apply (spec_try_except _ _
           (fun _ evs => Forall (fun e => housekeeping e = true) evs)
           (fun _ evs => Forall (fun e => housekeeping e = true) evs)).
  - run. destruct (Fs.is_file _ _); [run; all_events |].
    destruct (Fs.is_dir _ _); run; all_events.
  - auto.
  - intros e evs H. apply spec_ret. now rewrite app_nil_r.
Qed.

Lemma cleanup_local_contract :
  spec cleanup_local
    (fun _ evs => Forall (fun e => housekeeping e = true) evs)
    (fun _ _ => False).
Proof.
  unfold cleanup_local.
  apply (spec_try_except _ _
           (fun _ evs => Forall (fun e => housekeeping e = true) evs)
           (fun _ evs => False)).
  - run. destruct (Fs.exists_ _ _); [| run; constructor].
    apply (spec_for_in (fun evs => Forall (fun e => housekeeping e = true) evs)
                       (fun _ => False))
      with (evs0 := []); [| constructor].
    intros p [] evs0 _ H0.
    eapply spec_conseq; [apply cleanup_entry_contract | |]; cbv beta.
    + intros _ evs H. all_events.
    + intros _ evs [].
  - auto.
  - intros e evs [].
Qed.

End MainSteps.

#[export] Hint Resolve download_contract compress_contract
  generate_hls_contract upload_contract mark_processed_contract
  cleanup_local_contract remove_contract mkdir_contract : contracts.

(* ===================================================================== *)
(** * main.py: the ledger is updated after the whole pipeline (C1) *)
(* ===================================================================== *)

Section ShapeFacts.
Import Props.

(** A list has at most one place where its only marked element can be. *)
Lemma split_unique (l1 l2 k1 k2 : list event) (x y : event) :
  l1 ++ x :: l2 = k1 ++ y :: k2 ->
  is_marked x = true -> is_marked y = true ->
  Forall (fun e => is_marked e = false) l1 ->
  Forall (fun e => is_marked e = false) l2 ->
  l1 = k1 /\ x = y /\ l2 = k2.
Proof.
  revert k1. induction l1 as [|a l1 IH]; intros [|b k1] Heq Hx Hy H1 H2;
    simpl in Heq; injection Heq as -> Heq.
  - now subst.
  - subst l2. apply Forall_app in H2 as [_ H2].
    apply Forall_cons in H2 as [H2 _]. congruence.
  - apply Forall_cons in H1 as [H1 _]. congruence.
  - apply Forall_cons in H1 as [_ H1].
    destruct (IH k1 Heq Hx Hy H1 H2) as (-> & -> & ->). now repeat split.
Qed.

Lemma shape_discipline (url : string) (evs : list event) :
  job_shape url evs -> mark_discipline url evs /\ success_is_marked evs.
Proof.
  intros [Hq | (pre & post & -> & Hpub & Hpre & Hpost)].
  - split.
    + intros pre id post ->. apply Forall_app in Hq as [_ Hq].
      apply Forall_cons in Hq as [Hq _]. discriminate.
    + intros Hs. apply Exists_exists in Hs as (e & He & Hs).
      rewrite Forall_forall in Hq. specialize (Hq e He).
      unfold quiet in Hq. rewrite Hs, orb_true_r in Hq. discriminate.
  - split.
    + intros pre' id post' Heq.
      destruct (split_unique _ _ _ _ _ _ Heq eq_refl eq_refl
                  (quiet_unmarked _ Hpre) Hpost) as (<- & [= <-] & <-).
      auto.
    + intros _. apply Exists_app. right. now left.
Qed.

Lemma published_prepend (url : string) (evs0 evs : list event) :
  Forall (fun e => calm e = true) evs0 ->
  published url evs -> published url (evs0 ++ evs).
Proof.
  intros H0 [(f & args & c & d & v & Hsub) Hok]. split.
  - exists f, args, c, d, v. now apply sublist_inserts_l.
  - apply Forall_app. split; [now apply calm_transfers | assumption].
Qed.

Lemma shape_prepend (url : string) (evs0 evs : list event) :
  Forall (fun e => calm e = true) evs0 ->
  job_shape url evs -> job_shape url (evs0 ++ evs).
Proof.
  intros H0 [Hq | (pre & post & -> & Hpub & Hpre & Hpost)].
  - left. all_events.
  - right. exists (evs0 ++ pre), post. rewrite app_assoc.
    split; [reflexivity |]. split; [now apply published_prepend |].
    split; [all_events | assumption].
Qed.

Lemma shape_append (url : string) (evs evs' : list event) :
  Forall (fun e => quiet e = true) evs' ->
  job_shape url evs -> job_shape url (evs ++ evs').
Proof.
  intros H' [Hq | (pre & post & -> & Hpub & Hpre & Hpost)].
  - left. all_events.
  - right. exists pre, (post ++ evs'). rewrite <- app_assoc.
    split; [reflexivity |]. split; [assumption |].
    split; [assumption | all_events].
Qed.

Lemma housekeeping_quiet (evs : list event) :
  Forall (fun e => housekeeping e = true) evs ->
  Forall (fun e => quiet e = true) evs.
Proof.
  intros H. eapply Forall_impl; [exact H |]. now intros [].
Qed.

End ShapeFacts.

Section MainJobs.
Import Props Main.

(** What precedes the ledger update when the four steps have returned. *)
Lemma steps_published (url : string) (f c d : path) (args : ffmpeg_args)
    (v : string) (n1 n2 n3 : list event) (ec eh eu : list event) :
  Forall (fun e => calm e = true) (n1 ++ n2 ++ n3) ->
  Forall (fun e => calm e = true) ec ->
  Forall (fun e => calm e = true) eh ->
  Forall (fun e => calm e = true) eu ->
  [Ffmpeg f args true; Log (CompressionFinished c)] `sublist_of` ec ->
  [FfmpegHls c d 2 true; Log (HlsGenerated d)] `sublist_of` eh ->
  [Log (UploadComplete v)] `sublist_of` eu ->
  published url
    ([YtDlp url true; Log (DownloadedTo f)] ++ n1 ++ ec ++ n2 ++ eh ++ n3 ++ eu).
Proof.
  intros Hn Hc Hh Hu Sc Sh Su. split.
  - exists f, args, c, d, v.
    change [YtDlp url true; Log (DownloadedTo f); Ffmpeg f args true;
            Log (CompressionFinished c); FfmpegHls c d 2 true;
            Log (HlsGenerated d); Log (UploadComplete v)]
      with ([YtDlp url true; Log (DownloadedTo f)]
            ++ [Ffmpeg f args true; Log (CompressionFinished c)]
            ++ [FfmpegHls c d 2 true; Log (HlsGenerated d)]
            ++ [Log (UploadComplete v)]).
    apply sublist_app; [reflexivity |].
    apply sublist_inserts_l, sublist_app; [assumption |].
    apply sublist_inserts_l, sublist_app; [assumption |].
    now apply sublist_inserts_l.
  - apply Forall_app in Hn as [Hn1 Hn]. apply Forall_app in Hn as [Hn2 Hn3].
    all_events.
Qed.

Lemma pipeline_shape (url : string) :
  spec (pipeline url) (fun _ evs => job_shape url evs)
                      (fun _ evs => job_shape url evs).
Proof.
  unfold pipeline. run. destruct a; run; try solve [left; all_events].
  all: right.
  all: lazymatch goal with
       | |- exists pre post,
             [] ++ ?n1 ++ ?dl ++ ?n2 ++ ?ec ++ ?n3 ++ ?eh ++ ?n4 ++ ?eu
             ++ [Marked _; ?wl] ++ ?t = _ /\ _ =>
           exists (n1 ++ dl ++ n2 ++ ec ++ n3 ++ eh ++ n4 ++ eu), (wl :: t)
       end.
  all: split; [rewrite <- !app_assoc; reflexivity |].
  all: split;
    [ apply published_prepend; [all_events |];
      eapply steps_published; eauto; all_events
    | split; all_events ].
Qed.

Lemma handle_message_shape (text : string) :
  spec (handle_message text)
    (fun _ evs => job_shape (PyStr.strip text) evs)
    (fun _ evs => job_shape (PyStr.strip text) evs).
Proof.
  unfold handle_message. cbv zeta. set (url := PyStr.strip text).
  destruct (negb _); [run; left; all_events |].
  eapply spec_bind; [apply spec_telegram | |]; cbv beta.
  { intros e evs ->. left. all_events. }
  intros _ evs0 ->.
  apply (spec_try_finally _ _
           (fun _ evs => job_shape url evs) (fun _ evs => job_shape url evs)
           (fun evs => evs = [])).
  - apply (spec_try_except _ _
             (fun _ evs => job_shape url evs) (fun _ evs => job_shape url evs)).
    + apply pipeline_shape.
    + auto.
    + intros e evs1 H1. run; apply shape_append; auto; all_events.
  - apply spec_cleanup_in_executor.
  - intros a evs1 evs2 H1 ->. apply shape_prepend; [all_events |].
    now rewrite app_nil_r.
  - intros e evs1 evs2 H1 ->. apply shape_prepend; [all_events |].
    now rewrite app_nil_r.
Qed.

Lemma bg_shape (url : string) :
  spec (bg url) (fun _ evs => job_shape url evs)
                (fun _ evs => job_shape url evs).
Proof.
  unfold bg.
  apply (spec_try_except _ _
           (fun _ evs => job_shape url evs) (fun _ evs => job_shape url evs)).
  - cbv zeta. run; try solve [left; all_events].
    right.
    lazymatch goal with
    | |- exists pre post,
          ?dl ++ ?ec ++ ?eh ++ ?eu ++ [Marked _; ?wl] ++ ?t = _ /\ _ =>
        exists (dl ++ ec ++ eh ++ eu), (wl :: t)
    end.
    split; [rewrite <- !app_assoc; reflexivity |].
    split; [| split].
    + eapply (steps_published url _ _ _ _ _ [] [] []); eauto; all_events.
    + all_events.
    + match goal with
      | H : Forall (fun e => housekeeping e = true) ?l |- _ =>
          pose proof (housekeeping_quiet l H)
      end.
      all_events.
  - auto.
  - intros e evs H. run. apply shape_append; [all_events | assumption].
Qed.

(** ** Every artifact of the folder is uploaded *)

Lemma iterdir_same (d : path) (w w' : world) :
  files w' = files w -> dirs w' = dirs w -> Fs.iterdir d w' = Fs.iterdir d w.
Proof. intros Hf Hd. unfold Fs.iterdir, Fs.nodes. now rewrite Hf, Hd. Qed.

Lemma upload_segment_returns (env : environment) (folder : string) (f : path)
    (urls urls' : gmap string string) (w w' : world) :
  upload_segment folder f urls env w = (Ret urls', w') ->
  files w' = files w /\ dirs w' = dirs w
  /\ exists body evs,
       trace w' = trace w ++ FilesUpload (remote_of folder f) body true :: evs.
Proof.
  unfold upload_segment, share_segment, bind, try_except, Fs.read_bytes,
    external, reading, ret.
  destruct (files w !! f) as [file|]; [| discriminate]. simpl.
  destruct (answer env (tick w)); [| discriminate]. simpl.
  destruct (answer env (S (tick w))) as [|e]; simpl.
  - intros [= <- <-]. simpl. split; [reflexivity |]. split; [reflexivity |].
    rewrite <- app_assoc. now eexists _, _.
  - destruct (PyStr.contains _ _); simpl.
    + destruct (answer env (S (S (tick w)))); [| discriminate]. simpl.
      destruct (listed_links env _); intros [= <- <-]; simpl;
        (split; [reflexivity |]); (split; [reflexivity |]);
        rewrite <- !app_assoc; now eexists _, _.
    + intros [= <- <-]. simpl. split; [reflexivity |]. split; [reflexivity |].
      rewrite <- app_assoc. now eexists _, _.
Qed.

Lemma upload_segments_cover (env : environment) (folder : string)
    (fs : list (list string)) :
  forall (urls urls' : gmap string string) (w w' : world),
    for_in fs (upload_segment folder) urls env w = (Ret urls', w') ->
    files w' = files w /\ dirs w' = dirs w
    /\ exists evs, trace w' = trace w ++ evs /\ all_uploaded folder fs evs.
Proof.
  induction fs as [|f fs IH]; intros urls urls' w w'.
  - intros [= <- <-]. repeat split. exists []. rewrite app_nil_r.
    split; [reflexivity | intros f []].
  - cbn [for_in]. unfold bind at 1.
    destruct (upload_segment folder f urls env w) as [[u | e] w1] eqn:E1;
      [| discriminate].
    intros Hrest.
    destruct (upload_segment_returns _ _ _ _ _ _ _ E1)
      as (Hf1 & Hd1 & body & evs1 & Ht1).
    destruct (IH _ _ _ _ Hrest) as (Hf2 & Hd2 & evs2 & Ht2 & Hall).
    split; [congruence |]. split; [congruence |].
    exists ((FilesUpload (remote_of folder f) body true :: evs1) ++ evs2).
    split; [now rewrite Ht2, Ht1, app_assoc |].
    intros g [<- | Hg].
    + exists body. apply in_or_app. left. now left.
    + destruct (Hall g Hg) as [b Hb]. exists b. apply in_or_app. now right.
Qed.

Lemma upload_playlists_cover (env : environment) (folder : string)
    (urls : gmap string string) (fs : list (list string)) :
  forall (w w' : world),
    for_in fs (upload_playlist folder urls) tt env w = (Ret tt, w') ->
    exists evs, trace w' = trace w ++ evs /\ all_uploaded folder fs evs.
Proof.
  induction fs as [|f fs IH]; intros w w'.
  - intros [= <-]. exists []. rewrite app_nil_r.
    split; [reflexivity | intros f []].
  - cbn [for_in]. unfold bind at 1.
    destruct (upload_playlist folder urls f tt env w) as [[[] | e] w1] eqn:E1;
      [| discriminate].
    intros Hrest. destruct (IH _ _ Hrest) as (evs2 & Ht2 & Hall).
    revert E1.
    unfold upload_playlist, Fs.read_text, bind, Fs.read_bytes, external, ret.
    destruct (files w !! f) as [file|]; [| discriminate]. cbn [fst snd].
    destruct (answer env (tick w)); [| discriminate]. cbn [fst snd].
    intros [= <-]. cbn [trace set_trace set_tick] in Ht2.
    eexists (_ :: evs2). split; [now rewrite Ht2, <- app_assoc |].
    intros g [<- | Hg].
    + eexists. now left.
    + destruct (Hall g Hg) as [b Hb]. exists b. now right.
Qed.

Lemma upload_covers (env : environment) (local_dir : path) (base : string)
    (w w' : world) :
  upload_hls_folder local_dir base env w = (Ret tt, w') ->
  exists evs,
    trace w' = trace w ++ evs
    /\ all_uploaded (base +:+ "/" +:+ Fs.name local_dir)
                    (artifacts w local_dir) evs.
Proof.
  unfold upload_hls_folder, bind at 1, get_world.
  destruct (negb _); [discriminate |]. cbv zeta. unfold bind at 1.
  destruct (for_in _ _ _ env w) as [[urls | e] w1] eqn:E1; [| discriminate].
  destruct (upload_segments_cover _ _ _ _ _ _ _ E1)
    as (Hf & Hd & evs1 & Ht1 & Hall1).
  unfold bind at 1, get_world. unfold bind at 1.
  unfold with_suffix at 1. rewrite (iterdir_same _ _ _ Hf Hd).
  fold (with_suffix ".m3u8" w local_dir).
  destruct (for_in _ _ _ env w1) as [[[] | e] w2] eqn:E2; [| discriminate].
  destruct (upload_playlists_cover _ _ _ _ _ _ E2) as (evs2 & Ht2 & Hall2).
  unfold logger, emit, modify. intros [= <-]. simpl.
  exists (evs1 ++ evs2 ++ [Log (UploadComplete (Fs.name local_dir))]).
  split; [now rewrite Ht2, Ht1, <- !app_assoc |].
  intros f Hf'. apply in_app_or in Hf' as [Hin | Hin].
  - destruct (Hall1 f Hin) as [b Hb]. exists b. apply in_or_app. now left.
  - destruct (Hall2 f Hin) as [b Hb]. exists b.
    apply in_or_app. right. apply in_or_app. now left.
Qed.

End MainJobs.

(** C1.  In both jobs of main.py, the Telegram handler and the HTTP
    endpoint's thread, wherever the ledger is updated it is with the
    identifier of the submitted URL and after download, compression,
    packaging and upload have all returned, in that order, with no transfer
    that raised; nothing before the update reports success and there is no
    second update.  A job that reports success has updated the ledger.  And
    an upload that returns has uploaded every segment and every playlist of
    the folder. *)
Theorem ledger_updated_after_publish :
  (forall env w text,
      exists evs,
        trace (Main.handle_message text env w).2 = trace w ++ evs
        /\ Props.mark_discipline (PyStr.strip text) evs
        /\ Props.success_is_marked evs)
  /\ (forall env w url,
        exists evs,
          trace (Main.bg url env w).2 = trace w ++ evs
          /\ Props.mark_discipline url evs
          /\ Props.success_is_marked evs)
  /\ (forall env w w' local_dir base,
        Main.upload_hls_folder local_dir base env w = (Ret tt, w') ->
        exists evs,
          trace w' = trace w ++ evs
          /\ Props.all_uploaded (base +:+ "/" +:+ Fs.name local_dir)
                                (Props.artifacts w local_dir) evs).
Proof.
  split; [| split].
  - intros env w text.
    destruct (handle_message_shape text env w) as [evs [Ht Hs]].
    exists evs. split; [assumption |]. apply shape_discipline.
    now destruct (Main.handle_message text env w).1.
  - intros env w url.
    destruct (bg_shape url env w) as [evs [Ht Hs]].
    exists evs. split; [assumption |]. apply shape_discipline.
    now destruct (Main.bg url env w).1.
  - intros env w w' local_dir base. apply upload_covers.
Qed.

(* ===================================================================== *)
(** * instagram_to_HLS_dropbox.py: retries of the HTTP job (C3) *)
(* ===================================================================== *)

Section Emits.
Import Props.

Context (P : event -> bool).

Lemma emits_ret {A} (a : A) : Props.emits P (ret a).
Proof. apply spec_ret. constructor. Qed.

Lemma emits_raise {A} (e : exn) : Props.emits P (@raise A e).
Proof. apply spec_raise. constructor. Qed.

Lemma emits_bind {A B} (m : M A) (k : A -> M B) :
  Props.emits P m -> (forall a, Props.emits P (k a)) -> Props.emits P (bind m k).
Proof.
  intros Hm Hk. eapply spec_bind; [exact Hm | auto |].
  intros a evs1 H1. eapply spec_conseq; [apply Hk | |]; cbv beta;
    intros ? evs2 H2; apply Forall_app; auto.
Qed.

Lemma emits_try_except {A} (m : M A) (h : exn -> M A) :
  Props.emits P m -> (forall e, Props.emits P (h e)) -> Props.emits P (try_except m h).
Proof.
  intros Hm Hh. eapply spec_try_except; [exact Hm | auto |].
  intros e evs1 H1. eapply spec_conseq; [apply Hh | |]; cbv beta;
    intros ? evs2 H2; apply Forall_app; auto.
Qed.

Lemma emits_external (ev : bool -> event) :
  P (ev true) = true -> P (ev false) = true -> Props.emits P (external ev).
Proof.
  intros Ht Hf. eapply spec_conseq; [apply spec_external | |]; cbv beta;
    intros ? evs ->; repeat constructor; assumption.
Qed.

Lemma emits_emit (e : event) : P e = true -> Props.emits P (emit e).
Proof.
  intros H. eapply spec_conseq; [apply spec_emit | |]; cbv beta;
    [intros ? evs ->; repeat constructor; assumption | intros ? ? []].
Qed.

Lemma emits_silent {A} (m : M A) : silent m -> Props.emits P m.
Proof.
  intros H. eapply spec_conseq; [apply (spec_silent m H) | |]; cbv beta;
    intros ? evs ->; constructor.
Qed.

Lemma emits_for_in {A S} (body : A -> S -> M S) (xs : list A) (s : S) :
  (forall x s, Props.emits P (body x s)) -> Props.emits P (for_in xs body s).
Proof.
  intros Hbody.
  apply (spec_for_in (fun evs => Forall (fun e => P e = true) evs)
                     (fun evs => Forall (fun e => P e = true) evs)
                     body xs) with (s := s) (evs0 := []); [| constructor].
  intros x s' evs0 _ H0.
  eapply spec_conseq; [apply (Hbody x s') | |]; cbv beta;
    intros ? evs H; apply Forall_app; auto.
Qed.

Lemma emits_write_text : Props.emits P DuplicateTracker.write_text ->
                         Props.emits P DuplicateTracker.save.
Proof.
  intros H. apply emits_try_except; [exact H |].
  intros e. apply emits_ret.
Qed.

End Emits.

Lemma silent_modify (f : world -> world) :
  (forall w, trace (f w) = trace w) -> Props.silent (modify f).
Proof. intros H env w. apply H. Qed.

Lemma emits_ledger_write (P : event -> bool) :
  (forall ids ok, P (WriteLedger ids ok) = true) ->
  Props.emits P DuplicateTracker.write_text.
Proof.
  intros H env w. unfold DuplicateTracker.write_text.
  destruct (answer env (tick w)); eexists; (split; [reflexivity |]);
    repeat constructor; apply H.
Qed.

(** Proves [Props.emits P m] for a program [m] built from the operations above:
    it walks the program, testing each event it can add. *)
Ltac emits_step :=
  first
    [ apply emits_ret
    | apply emits_raise
    | apply emits_bind; [| intros ?]
    | apply emits_try_except; [| intros ?]
    | apply emits_external; reflexivity
    | apply emits_emit; reflexivity
    | apply emits_for_in; intros ? ?
    | apply emits_write_text
    | apply emits_ledger_write; reflexivity
    | apply emits_silent;
      first [ apply silent_get_world | apply silent_reading | apply silent_stat
            | apply silent_read_bytes | apply silent_read_text
            | apply silent_written
            | apply silent_is_duplicate
            | apply silent_modify; reflexivity ]
    | match goal with
      | |- Props.emits _ (match ?x with _ => _ end) => destruct x
      end ].

Ltac emits_all := repeat emits_step.

Section HlsSteps.
Import Props HlsDropbox.

Lemma schedule_app (l1 l2 : list event) :
  schedule (l1 ++ l2) = schedule l1 ++ schedule l2.
Proof. apply List.filter_app. Qed.

Lemma uncontrolled_schedule (evs : list event) :
  Forall (fun e => negb (control e) = true) evs -> schedule evs = [].
Proof.
  induction 1 as [|e evs He _ IH]; [reflexivity |].
  unfold schedule in *. simpl. apply negb_true_iff in He. now rewrite He.
Qed.

Lemma cleanup_uncontrolled :
  Props.emits (fun e => negb (control e)) cleanup_local_files.
Proof.
  unfold cleanup_local_files, cleanup_entry, Fs.remove, telegram.
  emits_all.
Qed.

(** The job body only works; it tells nothing of failures or retries. *)
Lemma process_uncontrolled (url : string) :
  Props.emits (fun e => negb (control e)) (process url).
Proof.
  unfold process. apply emits_bind; [emits_all | intros dup].
  destruct dup; [unfold telegram; emits_all |].
  unfold setup_directories, Fs.mkdir, telegram. emits_step.
  { emits_all. }
  emits_step. { emits_all. }
  emits_step.
  { unfold download_instagram_video, logger. emits_all. }
  emits_step. { emits_all. }
  emits_step.
  { unfold compress_video, get_video_info, value_error, Fs.remove.
    emits_all. }
  emits_step. { emits_all. }
  emits_step.
  { unfold upload_to_dropbox. emits_all. }
  emits_step.
  { unfold DuplicateTracker.mark_processed. emits_all. }
  emits_step. { apply cleanup_uncontrolled. }
  emits_all.
Qed.

(** A message sent on a best-effort basis: its failure is swallowed. *)
Lemma best_effort_telegram (n : notice) :
  spec (try_except (telegram n) (fun _ => ret tt))
    (fun _ evs => exists told, evs = [Telegram n told]) (fun _ _ => False).
Proof.
  apply (spec_try_except _ _ (fun _ evs => evs = [Telegram n true])
                             (fun _ evs => evs = [Telegram n false])).
  - apply spec_telegram.
  - intros a evs ->. eauto.
  - intros e evs ->. apply spec_ret. rewrite app_nil_r. eauto.
Qed.

Lemma best_effort_cleanup :
  spec (try_except cleanup_local_files (fun _ => ret tt))
    (fun _ evs => schedule evs = []) (fun _ _ => False).
Proof.
  apply (spec_try_except _ _ (fun _ evs => schedule evs = [])
                             (fun _ evs => schedule evs = [])).
  - eapply spec_conseq; [apply cleanup_uncontrolled | |]; cbv beta;
      intros ? evs H; now apply uncontrolled_schedule.
  - auto.
  - intros e evs H. apply spec_ret. now rewrite app_nil_r.
Qed.

#[local] Hint Resolve best_effort_telegram best_effort_cleanup : contracts.

Lemma process_in_thread_contract (url : string) :
  spec (process_in_thread url)
    (fun _ evs => schedule evs = [])
    (fun _ evs => exists reason told,
                    schedule evs = [Telegram (Failed reason) told]).
Proof.
  unfold process_in_thread.
  apply (spec_try_except _ _ (fun _ evs => schedule evs = [])
                             (fun _ evs => schedule evs = [])).
  - eapply spec_conseq; [apply process_uncontrolled | |]; cbv beta;
      intros ? evs H; now apply uncontrolled_schedule.
  - auto.
  - intros e evs1 H1. run.
    eexists _, _. rewrite !schedule_app, H1.
    match goal with H : schedule _ = [] |- _ => rewrite H end.
    reflexivity.
Qed.

#[local] Hint Resolve process_in_thread_contract : contracts.

(** One turn of the loop, numbered from 1: it ends the job, done or failed
    for good, or hands over to the next turn. *)
Lemma attempt_contract (url : string) (retry_count : Z) :
  spec (attempt url retry_count)
    (fun next evs =>
       let n := retry_count + 1 in
       match next with
       | Some retry_count' =>
           retry_count' = n /\ n < max_retries
           /\ exists r t, schedule evs = failed_attempt n r t
       | None =>
           schedule evs = [Sleep (2 * n - 1); Log ProcessingCompleted]
           \/ (max_retries <= n
               /\ exists r t r' t',
                    schedule evs =
                      [Sleep (2 * n - 1); Telegram (Failed r) t;
                       Log (AttemptFailed n);
                       Telegram (FinalFailure r') t';
                       Log FailedPermanently])
       end)
    (fun _ _ => False).
Proof.
  unfold attempt.
  apply (spec_try_except _ _
           (fun next evs =>
              next = None
              /\ schedule evs
                 = [Sleep (2 * (retry_count + 1) - 1); Log ProcessingCompleted])
           (fun _ evs =>
              exists r t,
                schedule evs
                = [Sleep (2 * (retry_count + 1) - 1); Telegram (Failed r) t])).
  - replace (2 * (retry_count + 1) - 1) with (retry_count * 2 + 1) by lia.
    run.
    + eexists _, _. rewrite !schedule_app.
      match goal with H : schedule _ = _ |- _ => rewrite H end. reflexivity.
    + split; [reflexivity |]. rewrite !schedule_app.
      match goal with H : schedule _ = _ |- _ => rewrite H end. reflexivity.
  - intros next evs [-> H]. cbv zeta. now left.
  - intros e evs1 (r & t & H1). cbv zeta. run.
    destruct (Z.leb_spec max_retries (retry_count + 1)) as [Hle | Hlt]; run.
    + right. split; [assumption |].
      eexists r, t, _, _. rewrite !schedule_app, H1. reflexivity.
    + split; [reflexivity |]. split; [assumption |].
      exists r, t. rewrite !schedule_app, H1. reflexivity.
Qed.


(** ** The loop needs no more than three turns *)

Lemma attempt_next (url : string) (retry_count retry_count' : Z)
    (env : environment) (w w' : world) :
  attempt url retry_count env w = (Ret (Some retry_count'), w') ->
  retry_count' = retry_count + 1 /\ retry_count + 1 < max_retries.
Proof.
  intros H. pose proof (attempt_contract url retry_count env w) as [evs [_ Hc]].
  rewrite H in Hc. simpl in Hc. tauto.
Qed.

Lemma while_retries_fuel (url : string) (env : environment) (n : nat) :
  forall (m : nat) (retry_count : Z) (w : world),
    (Z.to_nat (max_retries - retry_count) <= n)%nat ->
    (Z.to_nat (max_retries - retry_count) <= m)%nat ->
    while_retries n url retry_count env w
    = while_retries m url retry_count env w.
Proof.
  unfold max_retries.
  induction n as [|n IH]; intros [|m] rc w Hn Hm; cbn [while_retries];
    try reflexivity.
  - destruct (Z.ltb_spec rc max_retries) as [Hlt | _]; [| reflexivity].
    unfold max_retries in Hlt. lia.
  - destruct (Z.ltb_spec rc max_retries) as [Hlt | _]; [| reflexivity].
    unfold max_retries in Hlt. lia.
  - destruct (Z.ltb_spec rc max_retries) as [Hlt | _]; [| reflexivity].
    unfold bind.
    destruct (attempt url rc env w) as [[[rc' |] | e] w1] eqn:E;
      try reflexivity.
    destruct (attempt_next _ _ _ _ _ _ E) as [-> _].
    apply IH; lia.
Qed.

(** ** Every attempt runs the whole job body *)



Lemma cleanup_housekeeping :
  Props.emits housekeeping cleanup_local_files.
Proof.
  unfold cleanup_local_files, cleanup_entry, Fs.remove. emits_all.
Qed.


End HlsSteps.

Section SingleAttempt.
Import Props.




End SingleAttempt.



(** The loop is cut at three turns without loss: any larger bound gives the
    same run. *)
Lemma background_process_fuel (url : string) (k : nat) (env : environment)
    (w : world) :
  HlsDropbox.while_retries (3 + k) url 0 env w
  = HlsDropbox.background_process url env w.
Proof.
  unfold HlsDropbox.background_process.
  apply while_retries_fuel; unfold HlsDropbox.max_retries; simpl; lia.
Qed.

(** Scenario C: the download raises on attempts 1 and 2 and returns on
    attempt 3; the job is done after exactly three attempts. *)
Example third_attempt_succeeds :
  let env :=
    Environment
      (fun n => if ((n =? 2) || (n =? 6))%nat
                then Fault (Exn OtherError "Unable to download")
                else Fine)
      (fun _ => FormatInfo (Value 10%Q) (Value 2000000)) (fun _ => 1000)
      (fun _ => "mp4") (fun _ => "0") (fun _ => 0%nat) (fun _ => "")
      (fun _ => "https://www.dropbox.com/s/x?dl=0") (fun _ => [])
      (fun _ => false) in
  let w := World 0 [] ∅ NoFile ∅ ∅ in
  let url := "https://www.instagram.com/p/abc123/" in
  let w' := (HlsDropbox.background_process url env w).2 in
  Props.schedule (trace w')
  = Props.failed_attempt 1 "Download failed: Unable to download" true
    ++ Props.failed_attempt 2 "Download failed: Unable to download" true
    ++ [Sleep 5; Log ProcessingCompleted]
  /\ List.length (Props.downloads (trace w')) = 3%nat
  /\ processed w' = {["abc123"]}.
Proof. vm_compute. repeat split. Qed.

(* ===================================================================== *)
(** * The duplicate check and the cleanup, entry point by entry point
      (C2, C4) *)
(* ===================================================================== *)

Section DuplicateCheck.
Import Props.

(** On a known identifier the pipeline of main.py's Telegram handler is
    the "already processed" message alone. *)
Lemma pipeline_on_duplicate (url : string) (env : environment) (w : world) :
  ContentIdentity.extract_video_id url ∈ processed w ->
  Main.pipeline url env w = telegram AlreadyProcessed env w.
Proof.
  intros H. unfold Main.pipeline, bind at 1, DuplicateTracker.is_duplicate,
    bind, get_world, ret.
  now rewrite bool_decide_eq_true_2.
Qed.

(** The Telegram handler of main.py, on a URL whose identifier is in the
    ledger, does no work: it only sends messages. *)
Lemma handle_message_skips_duplicate
    (text : string) (env : environment) (w : world) :
  ContentIdentity.extract_video_id (PyStr.strip text) ∈ processed w ->
  exists evs,
    trace (Main.handle_message text env w).2 = trace w ++ evs
    /\ Forall (fun e => is_work e = false) evs.
Proof.
  intros Hdup. unfold Main.handle_message. cbv zeta.
  destruct (negb _).
  { unfold telegram, bind, external, ret.
    destruct (answer env (tick w)); eexists; split; try reflexivity;
      repeat constructor. }
  unfold bind at 1, telegram at 1, bind, external, ret.
  destruct (answer env (tick w)) as [|e0]; cbn [fst snd].
  2: { eexists; split; [reflexivity | repeat constructor]. }
  unfold try_finally, try_except at 1.
  set (w1 := set_trace _ _).
  rewrite pipeline_on_duplicate by exact Hdup.
  assert (Hw1 : trace w1 = trace w ++ [Telegram Starting true]) by reflexivity.
  assert (Hfin : forall w0,
             try_except (Main.run_in_executor Main.cleanup_local)
               (fun _ => ret tt) env w0 = (Ret tt, w0)) by reflexivity.
  destruct (spec_telegram AlreadyProcessed env w1) as [evs2 [Ht2 Hr2]].
  destruct (telegram AlreadyProcessed env w1) as [[[] | e] w2];
    cbn [fst snd] in *; subst evs2.
  - rewrite Hfin. cbn [fst snd].
    exists ([Telegram Starting true] ++ [Telegram AlreadyProcessed true]).
    split; [now rewrite Ht2, Hw1, <- !app_assoc | repeat constructor].
  - cbv beta. unfold bind, logger, emit, modify. cbn [fst snd].
    set (w2' := set_trace _ w2).
    destruct (spec_telegram (Failed (exn_msg e)) env w2') as [evs3 [Ht3 Hr3]].
    assert (Hw2 : trace w2' = trace w2 ++ [Log ProcessingError]) by reflexivity.
    destruct (telegram (Failed (exn_msg e)) env w2') as [r3 w3];
      cbn [fst snd] in *.
    rewrite Hfin. cbn [fst snd].
    exists ([Telegram Starting true] ++ [Telegram AlreadyProcessed false]
            ++ [Log ProcessingError] ++ evs3).
    split; [now rewrite Ht3, Hw2, Ht2, Hw1, <- !app_assoc |].
    repeat (apply Forall_cons; split; [reflexivity |]).
    destruct r3; subst evs3; repeat constructor.
Qed.

(** So does the job body of instagram_to_HLS_dropbox.py, on both of its
    entry points. *)
Lemma process_skips_duplicate (url : string) (env : environment) (w : world) :
  ContentIdentity.extract_video_id url ∈ processed w ->
  HlsDropbox.process url env w = telegram AlreadyProcessed env w.
Proof.
  intros H. unfold HlsDropbox.process, bind at 1,
    DuplicateTracker.is_duplicate, bind, get_world, ret.
  now rewrite bool_decide_eq_true_2.
Qed.

(** The HTTP job of main.py starts with the download, whatever the
    ledger holds. *)
Lemma bg_starts_with_download (url : string) :
  spec (Main.bg url)
    (fun _ evs => exists ok rest, evs = YtDlp url ok :: rest)
    (fun _ evs => exists ok rest, evs = YtDlp url ok :: rest).
Proof.
  unfold Main.bg.
  apply (spec_try_except _ _
           (fun _ evs => exists ok rest, evs = YtDlp url ok :: rest)
           (fun _ evs => exists ok rest, evs = YtDlp url ok :: rest)).
  - cbv zeta. run; eexists _, _; reflexivity.
  - auto.
  - intros e evs (ok & rest & ->). run. eexists _, _; reflexivity.
Qed.

End DuplicateCheck.

(** C2 fails on the HTTP endpoint of main.py.  For a URL whose identifier
    is already in the ledger the endpoint answers 202 and runs the whole
    pipeline again: it never asks the ledger.  The Telegram handler, on the
    same input, sends "already processed" and does nothing else. *)
Theorem http_endpoint_reprocesses_duplicate :
  let w := World 0 [] {["abc123"]} (Stored ["abc123"]) ∅ {[ ["video"] ]} in
  let url := "https://www.instagram.com/p/abc123/" in
  let r := Main.process_instagram (Some url) Scenario.all_fine w in
  (DuplicateTracker.is_duplicate url Scenario.all_fine w).1 = Ret true
  /\ r.1 = Ret 202
  /\ List.filter Props.is_work (trace r.2)
     = [YtDlp url true;
        Ffprobe ["video"; "abc123.mp4"] true;
        Ffmpeg ["video"; "abc123.mp4"]
          (FfmpegArgs Medium (Some 26) 1000 1200 2000 96) true;
        Mkdir ["video"; "hls"; "abc123"] true;
        FfmpegHls ["video"; "compressed_abc123.mp4"]
          ["video"; "hls"; "abc123"] 2 true;
        FilesUpload "/hls/abc123/abc123_00000.ts" "" true;
        CreateLink "/hls/abc123/abc123_00000.ts" true;
        FilesUpload "/hls/abc123/abc123.m3u8" "#EXTM3U
https://www.dropbox.com/s/x?raw=1
" true]
  /\ trace (Main.handle_message url Scenario.all_fine w).2
     = [Telegram Starting true; Telegram AlreadyProcessed true].
Proof. vm_compute. repeat split. Qed.

(** The jobs of instagram_to_HLS_dropbox.py clean up when a step raises:
    for the same failure of the encoder, the downloaded file is removed. *)
Example hls_job_cleans_up_after_failure :
  let w := World 0 [] ∅ NoFile ∅ ∅ in
  let url := "https://www.instagram.com/p/abc123/" in
  let chat :=
    HlsDropbox.process_instagram_url url (Scenario.ffmpeg_fails_at 5) w in
  List.filter Props.housekeeping (trace chat.2)
  = [Remove ["video"; "instagram_abc123.mp4"] true]
  /\ elements (dom (files chat.2)) = [].
Proof. vm_compute. split; reflexivity. Qed.

(** C4 fails on the HTTP endpoint of main.py.  When the encoder raises, the
    thread logs the error and ends: nothing is removed, and the downloaded
    file stays in the video folder. *)
Theorem http_endpoint_leaves_files_on_failure :
  let w := World 0 [] ∅ NoFile ∅ {[ ["video"] ]} in
  let url := "https://www.instagram.com/p/abc123/" in
  let http := Main.process_instagram (Some url) (Scenario.ffmpeg_fails_at 2) w in
  http.1 = Ret 202
  /\ trace http.2
     = [YtDlp url true; Log (DownloadedTo ["video"; "abc123.mp4"]);
        Ffprobe ["video"; "abc123.mp4"] true;
        Ffmpeg ["video"; "abc123.mp4"]
          (FfmpegArgs Medium (Some 26) 1000 1200 2000 96) false;
        Log HttpBgError]
  /\ List.filter Props.housekeeping (trace http.2) = []
  /\ elements (dom (files http.2)) = [["video"; "abc123.mp4"]].
Proof. vm_compute. repeat split. Qed.

(* ===================================================================== *)
(** * The fallback pass of main.py's [aggressive_compress] (C5) *)
(* ===================================================================== *)

Arguments MainPlanner.first_pass : simpl never.
Arguments MainPlanner.fallback_pass : simpl never.
Arguments MainPlanner.target_kbps : simpl never.
Arguments MainPlanner.current_bitrate_kbps : simpl never.
Arguments PyNum.megabytes : simpl never.
Arguments PyNum.gt : simpl never.
Arguments Fs.parent : simpl never.
Arguments Fs.name : simpl never.

Section FallbackFacts.

Lemma py_int_six_tenths (t : Z) :
  PyNum.py_int (inject_Z t * (6 # 10)) = Z.quot (t * 6) 10.
Proof. reflexivity. Qed.

Lemma lower_kbps_le (t : Z) : 150 <= t -> MainPlanner.lower_kbps t <= t.
Proof.
  intros H. unfold MainPlanner.lower_kbps. rewrite py_int_six_tenths.
  apply Z.max_lub; [assumption |].
  rewrite Z.quot_div_nonneg by lia. apply Z.div_le_upper_bound; lia.
Qed.

Lemma lower_kbps_lt (t : Z) : 150 < t -> MainPlanner.lower_kbps t < t.
Proof.
  intros H. unfold MainPlanner.lower_kbps. rewrite py_int_six_tenths.
  apply Z.max_lub_lt; [assumption |].
  rewrite Z.quot_div_nonneg by lia. apply Z.div_lt_upper_bound; lia.
Qed.

(** The run of [aggressive_compress] when the first pass returns. *)
Lemma aggressive_compress_encodes
    (env : environment) (w : world) (p : path) (f : file) (d : Q) :
  files w !! p = Some f ->
  MainPlanner.duration_of (Props.probed env (tick w)) = Some d ->
  answer env (S (tick w)) = Fine ->
  let orig_size_mb := PyNum.megabytes (st_size f) in
  let first :=
    MainPlanner.first_pass orig_size_mb
      (MainPlanner.current_bitrate_kbps (Props.probed env (tick w))
         orig_size_mb d) in
  let fallback := MainPlanner.fallback_pass (arg_bv first) in
  let out_size := produced_size env (S (tick w)) in
  let told := Props.is_fine (answer env (S (S (tick w)))) in
  exists evs,
    trace (Main.aggressive_compress p env w).2 = trace w ++ evs
    /\ (exists out, (Main.aggressive_compress p env w).1 = Ret out)
    /\ Props.encodes evs
       = if st_size f <? out_size
         then [(first, true); (fallback, told)]
         else [(first, true)].
Proof.
  intros Hf Hd Hfine. cbv zeta.
  unfold Main.aggressive_compress, Main.ffprobe_json, Main.sanity_check,
    Main.run_ffmpeg, Fs.stat, Fs.written, logger, emit, modify, reading,
    try_except, bind, external, ret, raise.
  unfold Props.probed in *.
  destruct (answer env (tick w)) as [|e0]; simpl;
    [rewrite Hd | simpl in Hd; injection Hd as <-];
    simpl; rewrite Hf; simpl; rewrite Hfine; simpl;
    rewrite lookup_insert_eq; simpl; rewrite megabytes_gt;
    (destruct (st_size f <? produced_size env (S (tick w))); simpl;
     [destruct (answer env (S (S (tick w)))); simpl |]).
  all: rewrite <- ?app_assoc; eexists; (split; [reflexivity |]);
    (split; [eauto |]).
  all: reflexivity.
Qed.

Lemma video_info_contract (p : path) :
  Props.spec (HlsDropbox.get_video_info p)
    (fun _ evs => exists ok, evs = [Ffprobe p ok]) (fun _ _ => False).
Proof. exact (ffprobe_contract p). Qed.

#[local] Hint Resolve video_info_contract : contracts.

(** [compress_video] of instagram_to_HLS_dropbox.py runs the encoder once
    at most. *)
Lemma compress_video_single_pass (p : path) :
  Props.spec (HlsDropbox.compress_video p)
    (fun _ evs => List.length (Props.encodes evs) = 1%nat)
    (fun _ evs => (List.length (Props.encodes evs) <= 1)%nat).
Proof.
  unfold HlsDropbox.compress_video.
  apply (spec_try_except _ _
           (fun _ evs => List.length (Props.encodes evs) = 1%nat)
           (fun _ evs => (List.length (Props.encodes evs) <= 1)%nat)).
  - cbv zeta. run; try (simpl; lia).
    unfold HlsDropbox.value_error.
    destruct (HlsPlanner.duration_of _); run; try (simpl; lia).
    destruct (HlsPlanner.current_bitrate_kbps _ _ _); run;
      try (simpl; lia); reflexivity.
  - auto.
  - intros e evs H. destruct (exn_cls e); apply spec_raise;
      now rewrite app_nil_r.
Qed.

End FallbackFacts.

(** C5, as the specification states it, fails: an output of exactly the
    size of the input, 1000 bytes, triggers no second pass. *)
Lemma no_fallback_on_equal_size :
  let out := ["video"; "compressed_abc123.mp4"] in
  let r := Main.aggressive_compress Scenario.clip Scenario.all_fine
             Scenario.downloaded in
  r.1 = Ret out
  /\ st_size <$> files r.2 !! out = st_size <$> files r.2 !! Scenario.clip
  /\ Props.encodes (trace r.2)
     = [(FfmpegArgs Medium (Some 26) 1000 1200 2000 96, true)].
Proof. vm_compute. repeat split. Qed.

(** At the 150 kbps floor the fallback pass does not go lower than the
    first pass. *)
Example fallback_at_floor :
  Props.encodes
    (trace (Main.aggressive_compress Scenario.clip (Scenario.writes_2000 100000)
              Scenario.downloaded).2)
  = [(FfmpegArgs Medium (Some 26) 150 180 300 96, true);
     (FfmpegArgs Veryfast None 150 150 300 64, true)].
Proof. vm_compute. reflexivity. Qed.

(** C5, amended.  In main.py's [aggressive_compress], once the first pass
    has returned: when the output is strictly larger than the input, exactly
    one fallback pass runs, whatever it produces and whether it returns or
    raises; it uses the veryfast preset, which is faster than the first
    pass's, and a fixed bitrate that is never above the first pass's target
    and is strictly below it when that target is above the 150 kbps floor.
    When the output is not larger than the input, no second pass runs.
    [compress_video] of instagram_to_HLS_dropbox.py never runs a second
    pass. *)
Theorem fallback_pass_when_output_larger
    (env : environment) (w : world) (p : path) (f : file) (d : Q)
    (Hfile : files w !! p = Some f)
    (Hduration : MainPlanner.duration_of (Props.probed env (tick w)) = Some d)
    (Hfirst : answer env (S (tick w)) = Fine) :
  let orig_size_mb := PyNum.megabytes (st_size f) in
  let first :=
    MainPlanner.first_pass orig_size_mb
      (MainPlanner.current_bitrate_kbps (Props.probed env (tick w))
         orig_size_mb d) in
  let fallback := MainPlanner.fallback_pass (arg_bv first) in
  let out_size := produced_size env (S (tick w)) in
  let told := Props.is_fine (answer env (S (S (tick w)))) in
  (exists evs,
      trace (Main.aggressive_compress p env w).2 = trace w ++ evs
      /\ (exists out, (Main.aggressive_compress p env w).1 = Ret out)
      /\ Props.encodes evs
         = if st_size f <? out_size
           then [(first, true); (fallback, told)]
           else [(first, true)])
  /\ arg_preset fallback = Veryfast
  /\ (preset_rank (arg_preset first) < preset_rank (arg_preset fallback))%nat
  /\ arg_bv fallback <= arg_bv first
  /\ (150 < arg_bv first -> arg_bv fallback < arg_bv first)
  /\ forall q, Props.spec (HlsDropbox.compress_video q)
                 (fun _ evs => List.length (Props.encodes evs) = 1%nat)
                 (fun _ evs => (List.length (Props.encodes evs) <= 1)%nat).
Proof.
  cbv zeta. split; [now apply aggressive_compress_encodes |].
  split; [reflexivity |].
  split.
  { unfold MainPlanner.first_pass, MainPlanner.tier_preset, MainPlanner.tier.
    cbn [arg_preset MainPlanner.fallback_pass].
    repeat destruct (PyNum.gt _ _); simpl; lia. }
  split; [apply lower_kbps_le, main_target_floor |].
  split; [apply lower_kbps_lt |].
  apply compress_video_single_pass.
Qed.

Lemma fallback_pass_when_output_larger_witness :
  exists evs,
    trace (Main.aggressive_compress Scenario.clip (Scenario.writes_2000 2000000)
             Scenario.downloaded).2 = [] ++ evs
    /\ Props.encodes evs
       = [(FfmpegArgs Medium (Some 26) 1000 1200 2000 96, true);
          (FfmpegArgs Veryfast None 600 600 1200 64, true)].
Proof.
  destruct (fallback_pass_when_output_larger
              (Scenario.writes_2000 2000000) Scenario.downloaded Scenario.clip
              (File 1000 "") 10%Q eq_refl eq_refl eq_refl)
    as [(evs & Ht & _ & He) _].
  exists evs. split; [exact Ht | exact He].
Defined.

(* ===================================================================== *)
(** * The names of the segments that the pipeline publishes *)
(* ===================================================================== *)

Section SegmentNames.
Import ContentIdentity Props.

Lemma id_char_not_space (c : ascii) :
  is_id_char c = true -> PyStr.isspace c = false.
Proof.
  destruct c as [[] [] [] [] [] [] [] []]; intros H;
    try reflexivity; discriminate H.
Qed.

Lemma hex_digit_not_space (n : Z) :
  PyStr.isspace (MD5.hex_digit (Z.land n 15)) = false.
Proof.
  change 15 with (Z.ones 4). rewrite Z.land_ones by lia.
  pose proof (Z.mod_pos_bound n (2 ^ 4) ltac:(lia)) as Hm.
  set (m := n mod 2 ^ 4) in *.
  rewrite <- (Z2Nat.id m) by lia.
  assert (Hk : (Z.to_nat m < 16)%nat) by lia.
  generalize dependent (Z.to_nat m). intros k Hk.
  do 16 (destruct k as [|k]; [reflexivity |]). lia.
Qed.

(** The short hash starts with a hexadecimal digit. *)
Lemma md5_short_head (url : string) :
  exists n rest, md5_short url = String (MD5.hex_digit (Z.land n 15)) rest.
Proof.
  unfold md5_short, MD5.hexdigest, MD5.digest. cbv zeta.
  set (st := MD5.blocks _ _ _).
  cbn [MD5.le_bytes seq List.map app MD5.hex PyStr.take substring].
  now eexists _, _.
Qed.

(** An identifier is never empty and never starts with white space. *)
Lemma extract_video_id_head (url : string) :
  exists c rest,
    extract_video_id url = String c rest /\ PyStr.isspace c = false.
Proof.
  unfold extract_video_id.
  destruct (re_search url) as [g|] eqn:Hs.
  - destruct (re_search_Some _ _ Hs) as (pre & tail & _ & Hm & _).
    destruct (match_here_Some _ _ Hm) as (m & rest & _ & _ & Hne & Hall & _).
    destruct g as [|c g]; [congruence |].
    simpl in Hall. apply andb_prop in Hall as [Hc _].
    exists c, g. split; [reflexivity | now apply id_char_not_space].
  - destruct (md5_short_head url) as (n & rest & ->).
    eexists _, rest. split; [reflexivity | apply hex_digit_not_space].
Qed.

(** The segments that [generate_hls] lets ffmpeg write for a submitted URL
    have names of the shape that the manifest rewrite takes for granted. *)
Lemma segment_names_well_formed (url : string) (i : nat) :
  segment_file_name (Main.segment_name (extract_video_id url) i).
Proof.
  destruct (extract_video_id_head url) as (c & rest & -> & Hc).
  exists c, (rest +:+ "_" +:+ PyStr.pad5 i). split; [| exact Hc].
  unfold Main.segment_name. now rewrite append_cons, !append_assoc.
Qed.

End SegmentNames.

(* ===================================================================== *)
(** * Further properties of the content identity and of the ledger *)
(* ===================================================================== *)

Section IdentityCharset.
Import ContentIdentity Props.

Lemma hex_digit_id_char (n : Z) :
  is_id_char (MD5.hex_digit (Z.land n 15)) = true.
Proof.
  change 15 with (Z.ones 4). rewrite Z.land_ones by lia.
  pose proof (Z.mod_pos_bound n (2 ^ 4) ltac:(lia)) as Hm.
  set (m := n mod 2 ^ 4) in *.
  rewrite <- (Z2Nat.id m) by lia.
  assert (Hk : (Z.to_nat m < 16)%nat) by lia.
  generalize dependent (Z.to_nat m). intros k Hk.
  do 16 (destruct k as [|k]; [reflexivity |]). lia.
Qed.

Lemma hex_id_chars (bs : list Z) : all_chars is_id_char (MD5.hex bs) = true.
Proof.
  induction bs as [|b bs IH]; [reflexivity |].
  cbn [MD5.hex all_chars]. now rewrite !hex_digit_id_char, IH.
Qed.

Lemma all_chars_substring (P : ascii -> bool) (s : string) :
  all_chars P s = true ->
  forall i n, all_chars P (substring i n s) = true.
Proof.
  induction s as [|c s IH]; intros H i n.
  - now destruct i, n.
  - cbn [all_chars] in H. apply andb_prop in H as [Hc Hs].
    destruct i as [|i]; [destruct n as [|n] |]; cbn [substring all_chars].
    + reflexivity.
    + now rewrite Hc, IH.
    + now apply IH.
Qed.

Lemma md5_short_id_chars (url : string) :
  all_chars is_id_char (md5_short url) = true.
Proof.
  unfold md5_short, PyStr.take, MD5.hexdigest.
  apply all_chars_substring, hex_id_chars.
Qed.

Lemma extract_video_id_chars (url : string) :
  extract_video_id url <> ""
  /\ all_chars is_id_char (extract_video_id url) = true.
Proof.
  unfold extract_video_id.
  destruct (re_search url) as [g|] eqn:Hs.
  - destruct (re_search_Some _ _ Hs) as (pre & tail & _ & Hm & _).
    destruct (match_here_Some _ _ Hm) as (m & rest & _ & _ & Hne & Hall & _).
    now split.
  - split; [| apply md5_short_id_chars].
    intros H. pose proof (md5_short_length url) as Hl.
    rewrite H in Hl. discriminate Hl.
Qed.

End IdentityCharset.

(** X1.  Whatever the URL, and whichever branch computes it, the identifier
    is not empty and holds only characters of [[A-Za-z0-9_-]]: the
    characters captured by the pattern, or hexadecimal digits of the MD5
    digest.  It holds no path separator, no dot and no white space. *)
Theorem video_id_charset (url : string) :
  let id := ContentIdentity.extract_video_id url in
  id <> ""
  /\ Props.all_chars ContentIdentity.is_id_char id = true
  /\ Props.all_chars
       (fun c => negb (Ascii.eqb c "/") && negb (Ascii.eqb c ".")
                 && negb (PyStr.isspace c)) id = true.
Proof.
  cbv zeta.
  pose proof (extract_video_id_chars url) as H.
  destruct H as [Hne Hall]. repeat split; [exact Hne | exact Hall |].
  revert Hall. generalize (ContentIdentity.extract_video_id url).
  induction s as [|c s IH]; [reflexivity |].
  cbn [Props.all_chars]. intros H. apply andb_prop in H as [Hc Hs].
  rewrite (IH Hs), andb_true_r.
  rewrite (id_char_not_space c Hc), andb_true_r.
  destruct c as [[] [] [] [] [] [] [] []]; try reflexivity; discriminate Hc.
Qed.

(** X2.  After [mark_processed u], [is_duplicate u'] answers true exactly
    when [u'] has the identifier of [u] or an identifier that the set held
    before: two URLs of the same post are duplicates of each other, however
    they differ elsewhere. *)
Theorem marked_then_duplicate_iff
    (u u' : string) (env env' : environment) (w : world) :
  let id := ContentIdentity.extract_video_id in
  (DuplicateTracker.is_duplicate u' env'
     (DuplicateTracker.mark_processed u env w).2).1
  = Ret (bool_decide (id u' = id u \/ id u' ∈ processed w)).
Proof.
  cbv zeta.
  unfold DuplicateTracker.is_duplicate, DuplicateTracker.mark_processed, bind,
    modify, emit, DuplicateTracker.save, try_except,
    DuplicateTracker.write_text, get_world, ret.
  simpl. f_equal.
  destruct (answer env (tick w)); simpl; apply bool_decide_ext; set_solver.
Qed.

(** X3.  When the write of the ledger file succeeds, a restart, which
    builds the set anew from the file, finds exactly the set that was in
    memory: the identifier just marked and every identifier held before. *)
Theorem saved_ledger_survives_restart
    (url : string) (env : environment) (w : world) :
  answer env (tick w) = Fine ->
  let w' := (DuplicateTracker.mark_processed url env w).2 in
  processed (DuplicateTracker.restart w')
  = {[ContentIdentity.extract_video_id url]} ∪ processed w
  /\ processed (DuplicateTracker.restart w') = processed w'.
Proof.
  intros H. cbv zeta.
  unfold DuplicateTracker.restart, DuplicateTracker.mark_processed, bind,
    modify, emit, DuplicateTracker.save, try_except,
    DuplicateTracker.write_text.
  simpl. rewrite H. simpl.
  split; apply list_to_set_elements_L.
Qed.

Lemma saved_ledger_survives_restart_witness :
  processed
    (DuplicateTracker.restart
       (DuplicateTracker.mark_processed "https://www.instagram.com/reel/Cxyz/"
          Scenario.all_fine (World 0 [] {["abc123"]} NoFile ∅ ∅)).2)
  = {["Cxyz"]} ∪ {["abc123"]}.
Proof.
  exact (proj1 (saved_ledger_survives_restart
                  "https://www.instagram.com/reel/Cxyz/" Scenario.all_fine
                  (World 0 [] {["abc123"]} NoFile ∅ ∅) eq_refl)).
Defined.

(* ===================================================================== *)
(** * Further properties of the compression planners *)
(* ===================================================================== *)

Section TruncationFacts.
Import PyNum.

Lemma py_int_inject (k : Z) : py_int (inject_Z k) = k.
Proof. unfold py_int, inject_Z; simpl. apply Z.quot_1_r. Qed.

(** [int] is monotone. *)
Lemma py_int_mono (x y : Q) : (x <= y)%Q -> py_int x <= py_int y.
Proof.
  destruct x as [a b], y as [c d]. unfold Qle, py_int; simpl. intros H.
  destruct (Z.le_gt_cases 0 a) as [Ha | Ha].
  - assert (Hc : 0 <= c) by nia.
    rewrite !Z.quot_div_nonneg by lia.
    apply Z.div_le_lower_bound; [lia |].
    pose proof (Z.mul_div_le a (Z.pos b) ltac:(lia)). nia.
  - destruct (Z.le_gt_cases 0 c) as [Hc | Hc].
    + transitivity 0.
      * rewrite <- (Z.opp_involutive a), Z.quot_opp_l by lia.
        rewrite Z.quot_div_nonneg by lia.
        pose proof (Z.div_pos (- a) (Z.pos b) ltac:(lia) ltac:(lia)). lia.
      * rewrite Z.quot_div_nonneg by lia. apply Z.div_pos; lia.
    + rewrite <- (Z.opp_involutive a), <- (Z.opp_involutive c).
      rewrite (Z.quot_opp_l (- a)), (Z.quot_opp_l (- c)) by lia.
      rewrite !Z.quot_div_nonneg by lia.
      apply -> Z.opp_le_mono.
      apply Z.div_le_lower_bound; [lia |].
      pose proof (Z.mul_div_le (- c) (Z.pos d) ltac:(lia)). nia.
Qed.

Lemma min_upper_r (x y : Q) : (min x y <= y)%Q.
Proof.
  unfold min. destruct (lt y x) eqn:H; [apply Qle_refl |].
  apply Qnot_lt_le. intros Hlt. apply lt_iff in Hlt. congruence.
Qed.

Lemma max_upper (x y z : Q) : (x <= z)%Q -> (y <= z)%Q -> (max x y <= z)%Q.
Proof. intros Hx Hy. unfold max. now destruct (gt y x). Qed.

Lemma max_lower_l (x y : Q) : (x <= max x y)%Q.
Proof.
  unfold max. destruct (gt y x) eqn:H; [| apply Qle_refl].
  apply gt_iff in H. now apply Qlt_le_weak.
Qed.

Lemma min_mono (x x' y : Q) : (x <= x')%Q -> (min x y <= min x' y)%Q.
Proof.
  intros H. unfold min at 2. destruct (lt y x') eqn:H'.
  - apply min_upper_r.
  - eapply Qle_trans; [apply min_upper_l | exact H].
Qed.

Lemma max_mono (x x' y : Q) : (x <= x')%Q -> (max x y <= max x' y)%Q.
Proof.
  intros H. apply max_upper.
  - eapply Qle_trans; [exact H | apply max_lower_l].
  - apply max_lower.
Qed.

End TruncationFacts.

Section PlannerBounds.
Import PyNum.

Lemma main_cap_bounds (mb : Q) :
  exists k : Z, MainPlanner.cap mb = inject_Z k /\ 150 <= k <= 2000.
Proof.
  unfold MainPlanner.cap, MainPlanner.tier.
  destruct (gt mb 50); [exists 1500; split; [reflexivity | lia] |].
  destruct (gt mb 20); [exists 2000; split; [reflexivity | lia] |].
  destruct (gt mb 5); [exists 1500 | exists 1000]; (split; [reflexivity | lia]).
Qed.

Lemma hls_cap_bounds (mb : Q) :
  exists k : Z, HlsPlanner.cap mb = inject_Z k /\ 150 <= k <= 700.
Proof.
  unfold HlsPlanner.cap, HlsPlanner.tier.
  destruct (gt mb 50); [exists 600; split; [reflexivity | lia] |].
  destruct (gt mb 20); [exists 700; split; [reflexivity | lia] |].
  destruct (gt mb 5); [exists 500 | exists 400]; (split; [reflexivity | lia]).
Qed.

Lemma main_fraction_pos (mb : Q) : (0 < MainPlanner.fraction mb)%Q.
Proof.
  unfold MainPlanner.fraction, MainPlanner.tier.
  destruct (gt mb 50); [reflexivity |]. destruct (gt mb 20); [reflexivity |].
  destruct (gt mb 5); reflexivity.
Qed.

Lemma hls_fraction_pos (mb : Q) : (0 < HlsPlanner.fraction mb)%Q.
Proof.
  unfold HlsPlanner.fraction, HlsPlanner.tier.
  destruct (gt mb 50); [reflexivity |]. destruct (gt mb 20); [reflexivity |].
  destruct (gt mb 5); reflexivity.
Qed.

Lemma main_target_cap (mb : Q) (current : Z) :
  (inject_Z (MainPlanner.target_kbps mb current) <= MainPlanner.cap mb)%Q.
Proof.
  destruct (main_cap_bounds mb) as (k & Hk & Hb).
  unfold MainPlanner.target_kbps. rewrite Hk. rewrite <- Zle_Qle.
  apply Z.max_lub; [| lia].
  transitivity (py_int (inject_Z k));
    [apply py_int_mono, min_upper_r | rewrite py_int_inject; lia].
Qed.

Lemma hls_target_cap (mb : Q) (current : Z) :
  (HlsPlanner.target_bitrate mb current <= HlsPlanner.cap mb)%Q.
Proof.
  destruct (hls_cap_bounds mb) as (k & Hk & Hb).
  unfold HlsPlanner.target_bitrate. apply max_upper; [apply min_upper_r |].
  rewrite Hk. change 150%Q with (inject_Z 150). rewrite <- Zle_Qle. lia.
Qed.

End PlannerBounds.

(** X4.  The video bitrate handed to the encoder never exceeds the cap of
    the input's size tier: at most 2000 kbps in main.py and at most 700 kbps
    in instagram_to_HLS_dropbox.py, whatever bitrate the source has. *)
Theorem target_bitrate_ceiling :
  (forall (mb : Q) (current : Z),
      (inject_Z (arg_bv (MainPlanner.first_pass mb current))
       <= MainPlanner.cap mb)%Q
      /\ arg_bv (MainPlanner.first_pass mb current) <= 2000)
  /\ (forall (mb : Q) (current : Z),
        (inject_Z (arg_bv (HlsPlanner.encode_args mb current))
         <= HlsPlanner.cap mb)%Q
        /\ arg_bv (HlsPlanner.encode_args mb current) <= 700).
Proof.
  split; intros mb current.
  - change (arg_bv (MainPlanner.first_pass mb current))
      with (MainPlanner.target_kbps mb current).
    pose proof (main_target_cap mb current) as H.
    split; [exact H |].
    destruct (main_cap_bounds mb) as (k & Hk & Hb).
    rewrite Hk, <- Zle_Qle in H. lia.
  - change (arg_bv (HlsPlanner.encode_args mb current))
      with (PyNum.py_int (HlsPlanner.target_bitrate mb current)).
    pose proof (hls_target_cap mb current) as H.
    destruct (hls_cap_bounds mb) as (k & Hk & Hb).
    assert (Hle : PyNum.py_int (HlsPlanner.target_bitrate mb current) <= k).
    { transitivity (PyNum.py_int (inject_Z k));
        [apply py_int_mono; now rewrite <- Hk | rewrite py_int_inject; lia]. }
    split; [| lia]. rewrite Hk, <- Zle_Qle. exact Hle.
Qed.

(** X5.  The rate-control window of every encoder run is well formed: the
    maximum rate is never below the target bitrate and the buffer never
    below the maximum rate.  In main.py the first pass has a buffer of
    twice the target; the fallback pass pins the maximum rate to the target
    itself. *)
Theorem rate_control_window :
  (forall (mb : Q) (current : Z),
      let a := MainPlanner.first_pass mb current in
      arg_bv a <= arg_maxrate a <= arg_bufsize a
      /\ arg_bufsize a = 2 * arg_bv a)
  /\ (forall target : Z,
        let a := MainPlanner.fallback_pass target in
        arg_maxrate a = arg_bv a /\ arg_bufsize a = 2 * arg_bv a)
  /\ (forall (mb : Q) (current : Z),
        let a := HlsPlanner.encode_args mb current in
        arg_bv a <= arg_maxrate a <= arg_bufsize a).
Proof.
  split; [| split].
  - intros mb current. cbv zeta.
    change (arg_bv (MainPlanner.first_pass mb current))
      with (MainPlanner.target_kbps mb current).
    change (arg_maxrate (MainPlanner.first_pass mb current))
      with (PyNum.py_int
              (inject_Z (MainPlanner.target_kbps mb current) * (12 # 10))).
    change (arg_bufsize (MainPlanner.first_pass mb current))
      with (PyNum.py_int (inject_Z (MainPlanner.target_kbps mb current * 2))).
    pose proof (main_target_floor mb current) as Hf.
    set (t := MainPlanner.target_kbps mb current) in *.
    rewrite py_int_inject.
    assert (H1 : t <= PyNum.py_int (inject_Z t * (12 # 10))).
    { apply py_int_lower; [lia |].
      unfold Qle, Qmult, inject_Z; simpl. lia. }
    assert (H2 : PyNum.py_int (inject_Z t * (12 # 10)) <= t * 2).
    { transitivity (PyNum.py_int (inject_Z (t * 2)));
        [apply py_int_mono | rewrite py_int_inject; lia].
      unfold Qle, Qmult, inject_Z; simpl. lia. }
    lia.
  - intros target. cbv zeta.
    change (arg_maxrate (MainPlanner.fallback_pass target))
      with (MainPlanner.lower_kbps target).
    change (arg_bv (MainPlanner.fallback_pass target))
      with (MainPlanner.lower_kbps target).
    change (arg_bufsize (MainPlanner.fallback_pass target))
      with (MainPlanner.lower_kbps target * 2).
    split; [reflexivity | lia].
  - intros mb current. cbv zeta.
    change (arg_bv (HlsPlanner.encode_args mb current))
      with (PyNum.py_int (HlsPlanner.target_bitrate mb current)).
    change (arg_maxrate (HlsPlanner.encode_args mb current))
      with (PyNum.py_int (HlsPlanner.target_bitrate mb current * (11 # 10))).
    change (arg_bufsize (HlsPlanner.encode_args mb current))
      with (PyNum.py_int (HlsPlanner.target_bitrate mb current * (15 # 10))).
    pose proof (hls_target_floor mb current) as Hf.
    set (t := HlsPlanner.target_bitrate mb current) in *.
    assert (Hpos : (0 <= t)%Q).
    { eapply Qle_trans; [| exact Hf]. discriminate. }
    destruct t as [n d]. unfold Qle in Hpos; simpl in Hpos.
    split; apply py_int_mono; unfold Qle, Qmult; simpl; nia.
Qed.

(** X6.  For inputs of one size, a source with a higher bitrate is never
    given a lower target than a source with a lower bitrate. *)
Theorem target_monotone_in_bitrate (mb : Q) (c1 c2 : Z) :
  c1 <= c2 ->
  arg_bv (MainPlanner.first_pass mb c1) <= arg_bv (MainPlanner.first_pass mb c2)
  /\ arg_bv (HlsPlanner.encode_args mb c1)
     <= arg_bv (HlsPlanner.encode_args mb c2).
Proof.
  intros H.
  assert (Hq : forall f : Q, (0 < f)%Q ->
                 (inject_Z c1 * f <= inject_Z c2 * f)%Q).
  { intros f Hf. apply Qmult_le_compat_r; [now rewrite <- Zle_Qle |].
    now apply Qlt_le_weak. }
  split.
  - change (arg_bv (MainPlanner.first_pass mb c1))
      with (MainPlanner.target_kbps mb c1).
    change (arg_bv (MainPlanner.first_pass mb c2))
      with (MainPlanner.target_kbps mb c2).
    unfold MainPlanner.target_kbps.
    apply Z.max_le_compat_r, py_int_mono, min_mono, Hq, main_fraction_pos.
  - change (arg_bv (HlsPlanner.encode_args mb c1))
      with (PyNum.py_int (HlsPlanner.target_bitrate mb c1)).
    change (arg_bv (HlsPlanner.encode_args mb c2))
      with (PyNum.py_int (HlsPlanner.target_bitrate mb c2)).
    unfold HlsPlanner.target_bitrate.
    apply py_int_mono, max_mono, min_mono, Hq, hls_fraction_pos.
Qed.

Lemma target_monotone_in_bitrate_witness :
  arg_bv (MainPlanner.first_pass 10 1000)
  <= arg_bv (MainPlanner.first_pass 10 3000).
Proof.
  exact (proj1 (target_monotone_in_bitrate 10 1000 3000 ltac:(lia))).
Defined.

(** X7.  A probe that fails, or reports neither a duration nor a bit rate,
    does not stop the planning.  main.py then plans as for a source of
    2000 kbps, which gives a target of 700, 800, 900 or 1000 kbps by size
    tier; instagram_to_HLS_dropbox.py assumes a duration of 30 seconds and
    estimates the bitrate from the file size. *)
Theorem failed_probe_defaults (st_size : Z) :
  let mb := PyNum.megabytes st_size in
  MainPlanner.plan no_format st_size = Some (MainPlanner.first_pass mb 2000)
  /\ arg_bv (MainPlanner.first_pass mb 2000)
     = (if 50 * Props.MB <? st_size then 700
        else if 20 * Props.MB <? st_size then 800
        else if 5 * Props.MB <? st_size then 900 else 1000)
  /\ HlsPlanner.plan no_format st_size
     = Some (HlsPlanner.encode_args mb
               (PyNum.py_int ((mb * 8 * 1024) / 30))).
Proof.
  cbv zeta. split; [reflexivity |]. split; [| reflexivity].
  change (arg_bv (MainPlanner.first_pass (PyNum.megabytes st_size) 2000))
    with (MainPlanner.target_kbps (PyNum.megabytes st_size) 2000).
  unfold MainPlanner.target_kbps, MainPlanner.fraction, MainPlanner.cap.
  rewrite main_tier_bytes.
  destruct (50 * Props.MB <? st_size); [reflexivity |].
  destruct (20 * Props.MB <? st_size); [reflexivity |].
  destruct (5 * Props.MB <? st_size); reflexivity.
Qed.

(* ===================================================================== *)
(** * Links, message text and segment names *)
(* ===================================================================== *)

Section RawUrl.
Import PyStr.

Lemma contains_cons (p : string) (c : ascii) (s : string) :
  contains p (String c s) = startswith (String c s) p || contains p s.
Proof. reflexivity. Qed.

Lemma replace_absent (old new s : string) :
  contains old s = false -> replace_from old new 0 s = s.
Proof.
  induction s as [|c s IH]; [reflexivity |].
  rewrite contains_cons. intros H. apply orb_false_elim in H as [Hh Ht].
  cbn [replace_from]. now rewrite Hh, (IH Ht).
Qed.

Lemma replace_query_free (base : string) :
  Props.all_chars (fun c => negb (Ascii.eqb c "?")) base = true ->
  replace_from "?dl=0" "?raw=1" 0 (base +:+ "?dl=0") = base +:+ "?raw=1".
Proof.
  induction base as [|c base IH]; [reflexivity |].
  cbn [Props.all_chars]. intros H. apply andb_prop in H as [Hc Hb].
  rewrite !append_cons. cbn [replace_from].
  assert (Hs : startswith (String c (base +:+ "?dl=0")) "?dl=0" = false).
  { unfold startswith. cbn [strip_prefix].
    apply negb_true_iff in Hc. rewrite Ascii.eqb_sym in Hc. now rewrite Hc. }
  now rewrite Hs, (IH Hb).
Qed.

End RawUrl.

(** X8.  The link stored for a segment is the shared link with its
    [?dl=0] turned into [?raw=1]: a link that ends in [?dl=0], with no
    other question mark, gets [?raw=1] in its place, and a link in which
    [?dl=0] does not occur is stored as it is. *)
Theorem raw_url_spec :
  (forall base : string,
      Props.all_chars (fun c => negb (Ascii.eqb c "?")) base = true ->
      Main.raw_url (base +:+ "?dl=0") = base +:+ "?raw=1")
  /\ (forall url : string,
        PyStr.contains "?dl=0" url = false -> Main.raw_url url = url).
Proof.
  split.
  - intros base H. now apply replace_query_free.
  - intros url H. now apply replace_absent.
Qed.

Lemma raw_url_spec_witness :
  Main.raw_url ("https://www.dropbox.com/s/k1/abc123_00000.ts" +:+ "?dl=0")
  = "https://www.dropbox.com/s/k1/abc123_00000.ts" +:+ "?raw=1"
  /\ Main.raw_url "https://www.dropbox.com/s/k1/abc123_00000.ts?rlkey=z"
     = "https://www.dropbox.com/s/k1/abc123_00000.ts?rlkey=z".
Proof.
  split.
  - exact (proj1 raw_url_spec
             "https://www.dropbox.com/s/k1/abc123_00000.ts" eq_refl).
  - exact (proj2 raw_url_spec
             "https://www.dropbox.com/s/k1/abc123_00000.ts?rlkey=z" eq_refl).
Defined.

Section Strip.
Import PyStr.

Lemma lstrip_space (pre s : string) :
  Props.all_chars isspace pre = true -> lstrip (pre +:+ s) = lstrip s.
Proof.
  induction pre as [|c pre IH]; [reflexivity |].
  cbn [Props.all_chars]. intros H. apply andb_prop in H as [Hc Hp].
  rewrite append_cons. cbn [lstrip]. now rewrite Hc, (IH Hp).
Qed.

Lemma rstrip_space (post : string) :
  Props.all_chars isspace post = true -> rstrip post = "".
Proof.
  induction post as [|c post IH]; [reflexivity |].
  cbn [Props.all_chars]. intros H. apply andb_prop in H as [Hc Hp].
  cbn [rstrip]. now rewrite (IH Hp), Hc.
Qed.

Lemma rstrip_append_space (s post : string) :
  Props.all_chars isspace post = true -> rstrip (s +:+ post) = rstrip s.
Proof.
  intros H. induction s as [|c s IH].
  - rewrite append_nil_l. now apply rstrip_space.
  - rewrite append_cons. cbn [rstrip]. now rewrite IH.
Qed.

Lemma lstrip_append (s post : string) :
  lstrip s <> "" -> lstrip (s +:+ post) = lstrip s +:+ post.
Proof.
  induction s as [|c s IH]; [intros H; now destruct H |].
  rewrite append_cons. cbn [lstrip].
  destruct (isspace c); [exact IH | intros _; reflexivity].
Qed.

Lemma lstrip_all_space (s : string) :
  lstrip s = "" -> Props.all_chars isspace s = true.
Proof.
  induction s as [|c s IH]; [reflexivity |]. cbn [lstrip Props.all_chars].
  destruct (isspace c); [exact IH | discriminate].
Qed.

Lemma lstrip_of_space (s : string) :
  Props.all_chars isspace s = true -> lstrip s = "".
Proof.
  induction s as [|c s IH]; [reflexivity |].
  cbn [Props.all_chars]. intros H. apply andb_prop in H as [Hc Hs].
  cbn [lstrip]. now rewrite Hc, (IH Hs).
Qed.

Lemma strip_surrounding_space (pre s post : string) :
  Props.all_chars isspace pre = true ->
  Props.all_chars isspace post = true ->
  strip (pre +:+ s +:+ post) = strip s.
Proof.
  intros Hpre Hpost. unfold strip. rewrite (lstrip_space _ _ Hpre).
  destruct (string_dec (lstrip s) "") as [He | Hne].
  - rewrite (lstrip_space s post (lstrip_all_space s He)).
    now rewrite (lstrip_of_space post Hpost), He.
  - rewrite (lstrip_append _ _ Hne). now apply rstrip_append_space.
Qed.

End Strip.

(** X9.  White space around the text of a Telegram message does not
    matter: the handler of main.py does on the padded text exactly what it
    does on the text itself. *)
Theorem handle_message_ignores_surrounding_space (pre text post : string) :
  Props.all_chars PyStr.isspace pre = true ->
  Props.all_chars PyStr.isspace post = true ->
  Main.handle_message (pre +:+ text +:+ post) = Main.handle_message text.
Proof.
  intros Hpre Hpost. unfold Main.handle_message.
  now rewrite (strip_surrounding_space pre text post Hpre Hpost).
Qed.

Lemma handle_message_ignores_surrounding_space_witness :
  Main.handle_message
    ("  " +:+ "https://www.instagram.com/p/abc123/" +:+ String PyStr.newline "")
  = Main.handle_message "https://www.instagram.com/p/abc123/".
Proof.
  exact (handle_message_ignores_surrounding_space
           "  " "https://www.instagram.com/p/abc123/"
           (String PyStr.newline "") eq_refl eq_refl).
Defined.

Section SegmentFiles.
Import PyStr Props ContentIdentity.

Lemma all_chars_app (P : ascii -> bool) (a b : string) :
  all_chars P (a +:+ b) = all_chars P a && all_chars P b.
Proof.
  induction a as [|c a IH]; [reflexivity |].
  rewrite append_cons. cbn [all_chars]. now rewrite IH, andb_assoc.
Qed.

Lemma all_chars_impl (P Q : ascii -> bool) (s : string) :
  (forall c, P c = true -> Q c = true) ->
  all_chars P s = true -> all_chars Q s = true.
Proof.
  intros HPQ. induction s as [|c s IH]; [reflexivity |].
  cbn [all_chars]. intros H. apply andb_prop in H as [Hc Hs].
  now rewrite (HPQ c Hc), (IH Hs).
Qed.

Lemma uint_id_chars (d : Decimal.uint) :
  all_chars is_id_char (NilEmpty.string_of_uint d) = true.
Proof. induction d; cbn [NilEmpty.string_of_uint all_chars]; auto. Qed.

Lemma decimal_id_chars (n : nat) : all_chars is_id_char (decimal n) = true.
Proof.
  unfold decimal, NilZero.string_of_uint.
  destruct (Nat.to_uint n) eqn:E; try apply uint_id_chars. reflexivity.
Qed.

Lemma zeros_id_chars (k : nat) : all_chars is_id_char (zeros k) = true.
Proof. induction k as [|k IH]; [reflexivity | exact IH]. Qed.

Lemma pad5_id_chars (n : nat) : all_chars is_id_char (pad5 n) = true.
Proof.
  unfold pad5. cbv zeta.
  now rewrite all_chars_app, zeros_id_chars, decimal_id_chars.
Qed.

Lemma rfind_dot_append (a b : string) (i : nat) (found : option nat) :
  Fs.rfind_dot (a +:+ b) i found
  = Fs.rfind_dot b (i + String.length a) (Fs.rfind_dot a i found).
Proof.
  revert i found. induction a as [|c a IH]; intros i found.
  - rewrite append_nil_l. cbn [Fs.rfind_dot String.length]. now rewrite Nat.add_0_r.
  - rewrite append_cons. cbn [Fs.rfind_dot String.length].
    rewrite IH. f_equal. lia.
Qed.

Lemma rfind_dot_none (a : string) (i : nat) (found : option nat) :
  all_chars (fun c => negb (Ascii.eqb c ".")) a = true ->
  Fs.rfind_dot a i found = found.
Proof.
  revert i found. induction a as [|c a IH]; intros i found; [reflexivity |].
  cbn [all_chars]. intros H. apply andb_prop in H as [Hc Ha].
  cbn [Fs.rfind_dot]. apply negb_true_iff in Hc. rewrite Hc. now apply IH.
Qed.

Lemma name_last (dir : list string) (n : string) :
  Fs.name (dir ++ [n]) = n.
Proof. unfold Fs.name. apply last_last. Qed.

(** [Path.suffix] of a name with one dot, after at least one character. *)
Lemma suffix_of_stem (dir : list string) (stem : string) :
  stem <> "" ->
  all_chars (fun c => negb (Ascii.eqb c ".")) stem = true ->
  Fs.suffix (dir ++ [stem +:+ ".ts"]) = ".ts".
Proof.
  intros Hne Hdots. unfold Fs.suffix. rewrite name_last. cbv zeta.
  rewrite rfind_dot_append, (rfind_dot_none _ _ _ Hdots).
  cbn [Fs.rfind_dot Ascii.eqb Bool.eqb]. cbn [Nat.add].
  rewrite length_append. cbn [String.length].
  assert (Hl : (0 < String.length stem)%nat).
  { destruct stem; [congruence | simpl; lia]. }
  replace ((0 <? String.length stem)%nat) with true
    by (symmetry; apply Nat.ltb_lt; lia).
  replace ((String.length stem <? String.length stem + 3 - 1)%nat) with true
    by (symmetry; apply Nat.ltb_lt; lia).
  cbn [andb].
  replace (String.length stem + 3 - String.length stem)%nat
    with (String.length ".ts") by (simpl; lia).
  apply substring_append.
Qed.

Lemma id_char_plain (c : ascii) :
  is_id_char c = true ->
  negb (Ascii.eqb c ".") = true /\ negb (Ascii.eqb c "#") = true
  /\ isspace c = false.
Proof.
  destruct c as [[] [] [] [] [] [] [] []]; intros H;
    try discriminate H; repeat split.
Qed.

End SegmentFiles.

(** X10.  The segment files that [generate_hls] has ffmpeg write for a
    URL, [<video_id>_%05d.ts], fit the rest of the pipeline: each has the
    suffix [.ts] by which [upload_hls_folder] picks the segments to upload,
    and its name, standing on a line of the playlist, is a line that the
    pattern of the manifest rewrite matches. *)
Theorem segment_names_fit_the_pipeline
    (url : string) (i : nat) (dir : list string) :
  let name := Main.segment_name (ContentIdentity.extract_video_id url) i in
  Fs.suffix (dir ++ [name]) = ".ts"
  /\ Manifest.is_segment_line name = true
  /\ Props.single_line name = true.
Proof.
  cbv zeta. unfold Main.segment_name.
  destruct (extract_video_id_chars url) as [Hne Hall].
  set (vid := ContentIdentity.extract_video_id url) in *.
  assert (Hstem : Props.all_chars ContentIdentity.is_id_char
                    (vid +:+ "_" +:+ PyStr.pad5 i) = true).
  { now rewrite !all_chars_app, Hall, pad5_id_chars. }
  replace (vid +:+ "_" +:+ PyStr.pad5 i +:+ ".ts")
    with ((vid +:+ "_" +:+ PyStr.pad5 i) +:+ ".ts")
    by now rewrite !append_assoc.
  split; [| split].
  - apply suffix_of_stem.
    + destruct vid; [congruence | discriminate].
    + revert Hstem. apply all_chars_impl. intros c Hc.
      now destruct (id_char_plain c Hc).
  - destruct vid as [|c rest]; [congruence |].
    rewrite !append_cons. unfold Manifest.is_segment_line.
    cbn [Props.all_chars] in Hall. apply andb_prop in Hall as [Hc _].
    destruct (id_char_plain c Hc) as (_ & Hhash & Hsp).
    now rewrite Hhash, Hsp, endswith_append.
  - unfold Props.single_line. rewrite all_chars_app.
    apply andb_true_intro; split; [| reflexivity].
    revert Hstem. apply all_chars_impl. intros c Hc.
    destruct c as [[] [] [] [] [] [] [] []]; try discriminate Hc; reflexivity.
Qed.

Section TextMode.
Import PyStr.

(** A text without carriage returns is read as it is. *)
Lemma universal_newlines_plain (s : string) :
  Props.all_chars (fun c => negb (Ascii.eqb c carriage_return)) s = true ->
  universal_newlines s = s.
Proof.
  induction s as [|c s IH]; [reflexivity |].
  cbn [Props.all_chars universal_newlines]. intros H.
  apply andb_prop in H as [Hc Hs]. apply negb_true_iff in Hc.
  now rewrite Hc, (IH Hs).
Qed.

(** One turn of the loop over the playlists, for a file that is there. *)
Lemma upload_playlist_runs (folder : string) (urls : gmap string string)
    (f : list string) (file0 : file) (env : environment) (w : world) :
  files w !! f = Some file0 ->
  trace (Main.upload_playlist folder urls f tt env w).2
  = trace w
    ++ [FilesUpload (Main.remote_of folder f)
          (Manifest.fix_playlist urls (universal_newlines (text file0)))
          (Props.is_fine (answer env (tick w)))].
Proof.
  intros Hf.
  unfold Main.upload_playlist, Fs.read_text, bind, Fs.read_bytes, external,
    ret.
  rewrite Hf. cbn [fst snd]. now destruct (answer env (tick w)).
Qed.

End TextMode.

(** X11.  A playlist none of whose lines is a key of the dictionary is
    uploaded as it was read: the text of the file, in which reading has
    turned every CR LF and every lone CR into LF, and nothing else is
    changed; a file without carriage returns is uploaded exactly as ffmpeg
    wrote it.  So it is when no link could be obtained for any segment and
    the dictionary is empty. *)
Theorem playlist_without_links_unchanged
    (folder : string) (segment_urls : gmap string string) (f : list string)
    (file0 : file) (env : environment) (w : world) :
  files w !! f = Some file0 ->
  (forall l,
      In l (PyStr.split_lines (PyStr.universal_newlines (text file0))) ->
      segment_urls !! l = None) ->
  trace (Main.upload_playlist folder segment_urls f tt env w).2
  = trace w
    ++ [FilesUpload (Main.remote_of folder f)
          (PyStr.universal_newlines (text file0))
          (Props.is_fine (answer env (tick w)))]
  /\ (Props.all_chars (fun c => negb (Ascii.eqb c PyStr.carriage_return))
        (text file0) = true ->
      PyStr.universal_newlines (text file0) = text file0).
Proof.
  intros Hf H. split; [| apply universal_newlines_plain].
  rewrite (upload_playlist_runs _ _ _ _ _ _ Hf). do 3 f_equal.
  unfold Manifest.fix_playlist.
  rewrite (map_ext_in _ (fun l => l)), map_id; [apply join_split |].
  intros l Hl. apply unknown_unchanged. now apply H.
Qed.

Lemma playlist_without_links_unchanged_witness :
  let f := ["video"; "hls"; "abc123"; "abc123.m3u8"] in
  let written :=
    "#EXTM3U" +:+ String PyStr.carriage_return (String PyStr.newline "")
    +:+ "abc123_00000.ts" +:+ String PyStr.newline "" in
  let w := World 0 [] ∅ NoFile {[ f := File 0 written ]} ∅ in
  trace (Main.upload_playlist "/hls/abc123" ∅ f tt Scenario.all_fine w).2
  = [] ++ [FilesUpload "/hls/abc123/abc123.m3u8"
             ("#EXTM3U" +:+ String PyStr.newline ""
              +:+ "abc123_00000.ts" +:+ String PyStr.newline "")
             true].
Proof.
  intros f written w.
  exact (proj1 (playlist_without_links_unchanged "/hls/abc123" ∅ f
                  (File 0 written) Scenario.all_fine w
                  ltac:(vm_compute; reflexivity)
                  (fun l _ => lookup_empty l))).
Defined.

(* ===================================================================== *)
(** * What the jobs leave alone *)
(* ===================================================================== *)

Section Keeps.
Import Laws.

Context (id : string).

Lemma marks_kept_trans (w1 w2 w3 : world) :
  processed w2 ⊆ processed w3 ->
  marks_kept id w1 w2 -> marks_kept id w2 w3 -> marks_kept id w1 w3.
Proof.
  intros Hsub (evs1 & Ht1 & Hm1) (evs2 & Ht2 & Hm2).
  exists (evs1 ++ evs2). split; [now rewrite Ht2, Ht1, app_assoc |].
  intros H. apply Exists_app in H as [H | H]; [apply Hsub |]; auto.
Qed.

Lemma ledger_step_grows (w w' : world) :
  ledger_step id w w' -> processed w ⊆ processed w'.
Proof. intros [-> | ->]; set_solver. Qed.

Lemma ledger_file_kept_trans (w1 w2 w3 : world) :
  processed w2 ⊆ processed w3 ->
  ledger_file_kept w1 w2 -> ledger_file_kept w2 w3 -> ledger_file_kept w1 w3.
Proof.
  unfold ledger_file_kept.
  intros Hsub H1 [H2 | [H2 | (ids & H2 & Hin)]]; rewrite H2.
  - destruct H1 as [H1 | [H1 | (ids & H1 & Hin)]]; [auto | auto |].
    right. right. exists ids. split; [exact H1 |].
    intros x Hx. apply Hsub. now apply Hin.
  - auto.
  - right. right. now exists ids.
Qed.

Lemma confined_refl (w : world) : confined id w w.
Proof.
  split; [now intros q _ |]. split; [now left |]. split; [| now left].
  exists []. rewrite app_nil_r. split; [reflexivity |].
  intros H. now apply Exists_nil in H.
Qed.

Lemma confined_trans (w1 w2 w3 : world) :
  confined id w1 w2 -> confined id w2 w3 -> confined id w1 w3.
Proof.
  intros (Hf1 & Hl1 & Hm1 & Hd1) (Hf2 & Hl2 & Hm2 & Hd2).
  split; [| split; [| split]].
  - intros q Hq. now rewrite (Hf2 q Hq), (Hf1 q Hq).
  - unfold ledger_step in *.
    destruct Hl1 as [H1 | H1], Hl2 as [H2 | H2]; rewrite H2, H1;
      [now left | now right | now right |].
    right. apply set_eq. intros x. rewrite !elem_of_union. tauto.
  - apply (marks_kept_trans w1 w2 w3); auto. now apply ledger_step_grows.
  - apply (ledger_file_kept_trans w1 w2 w3); auto.
    now apply ledger_step_grows.
Qed.

Lemma confined_same (w w' : world) (evs : list event) :
  files w' = files w -> processed w' = processed w ->
  db_file w' = db_file w ->
  trace w' = trace w ++ evs ->
  Forall (fun e => Props.is_marked e = false) evs ->
  confined id w w'.
Proof.
  intros Hf Hp Hd Ht Hm. split; [intros q _; now rewrite Hf |].
  split; [now left |]. split; [| now left]. exists evs. split; [exact Ht |].
  intros H. apply Exists_exists in H as (e & He & Hmark).
  rewrite Forall_forall in Hm. rewrite (Hm e He) in Hmark. discriminate.
Qed.

Lemma keeps_inert {A} (m : M A) : inert m -> keeps (confined id) m.
Proof.
  intros H env w. destruct (H env w) as (Hf & Hp & Hd & evs & Ht & Hm).
  now apply (confined_same _ _ evs).
Qed.

Lemma keeps_ret {A} (a : A) : keeps (confined id) (ret a).
Proof. intros env w. apply confined_refl. Qed.

Lemma keeps_raise {A} (e : exn) : keeps (confined id) (@raise A e).
Proof. intros env w. apply confined_refl. Qed.

Lemma keeps_bind_to {A B} (R : A -> Prop) (m : M A) (k : A -> M B) :
  keeps (confined id) m -> lands R m ->
  (forall a, R a -> keeps (confined id) (k a)) ->
  keeps (confined id) (bind m k).
Proof.
  intros Hm HR Hk env w. unfold bind.
  specialize (Hm env w). specialize (HR env w).
  destruct (m env w) as [[a | e] w1]; cbn [fst snd] in *; [| exact Hm].
  eapply confined_trans; [exact Hm | apply (Hk a HR)].
Qed.

Lemma keeps_bind {A B} (m : M A) (k : A -> M B) :
  keeps (confined id) m -> (forall a, keeps (confined id) (k a)) ->
  keeps (confined id) (bind m k).
Proof.
  intros Hm Hk. apply (keeps_bind_to (fun _ => True)); auto.
  intros env w. now destruct (m env w).1.
Qed.

Lemma keeps_try_except {A} (m : M A) (h : exn -> M A) :
  keeps (confined id) m -> (forall e, keeps (confined id) (h e)) ->
  keeps (confined id) (try_except m h).
Proof.
  intros Hm Hh env w. unfold try_except. specialize (Hm env w).
  destruct (m env w) as [[a | e] w1]; cbn [fst snd] in *; [exact Hm |].
  eapply confined_trans; [exact Hm | apply Hh].
Qed.

Lemma keeps_try_finally {A} (m : M A) (f : M unit) :
  keeps (confined id) m -> keeps (confined id) f ->
  keeps (confined id) (try_finally m f).
Proof.
  intros Hm Hf env w. unfold try_finally. specialize (Hm env w).
  destruct (m env w) as [r w1]; cbn [fst snd] in *.
  specialize (Hf env w1).
  destruct (f env w1) as [[[] | e] w2]; cbn [fst snd] in *;
    eapply confined_trans; eauto.
Qed.

Lemma keeps_for_in {A S} (body : A -> S -> M S) (xs : list A) (s : S) :
  (forall x s, In x xs -> keeps (confined id) (body x s)) ->
  keeps (confined id) (for_in xs body s).
Proof.
  revert s. induction xs as [|x xs IH]; intros s Hbody.
  - apply keeps_ret.
  - cbn [for_in]. apply keeps_bind; [apply Hbody; now left |].
    intros s'. apply IH. intros y t Hy. apply Hbody. now right.
Qed.

Lemma inert_external (ev : bool -> event) :
  (forall ok, Props.is_marked (ev ok) = false) -> inert (external ev).
Proof.
  intros Hev env w. unfold external.
  destruct (answer env (tick w)); (split; [reflexivity |]);
    (split; [reflexivity |]); (split; [reflexivity |]);
    eexists; (split; [reflexivity |]);
    repeat constructor; apply Hev.
Qed.

Lemma inert_emit (e : event) : Props.is_marked e = false -> inert (emit e).
Proof.
  intros He env w. split; [reflexivity |]. split; [reflexivity |].
  split; [reflexivity |].
  exists [e]. split; [reflexivity | now repeat constructor].
Qed.

Lemma inert_silent {A} (m : M A) :
  (forall env w, (m env w).2 = w) -> inert m.
Proof.
  intros H env w. rewrite H. do 3 (split; [reflexivity |]).
  exists []. rewrite app_nil_r. split; [reflexivity | constructor].
Qed.

Lemma inert_get_world : inert get_world.
Proof. now apply inert_silent. Qed.

Lemma inert_reading {A} (f : environment -> nat -> A) (n : nat) :
  inert (reading f n).
Proof. now apply inert_silent. Qed.

Lemma inert_stat (p : path) : inert (Fs.stat p).
Proof.
  apply inert_silent. intros env w. unfold Fs.stat.
  now destruct (files w !! p).
Qed.

Lemma inert_read_bytes (p : path) : inert (Fs.read_bytes p).
Proof.
  apply inert_silent. intros env w. unfold Fs.read_bytes.
  now destruct (files w !! p).
Qed.

Lemma inert_read_text (p : path) : inert (Fs.read_text p).
Proof.
  apply inert_silent. intros env w.
  unfold Fs.read_text, bind, Fs.read_bytes, ret.
  now destruct (files w !! p).
Qed.

Lemma inert_is_duplicate (url : string) :
  inert (DuplicateTracker.is_duplicate url).
Proof. now apply inert_silent. Qed.

Lemma inert_mkdir (p : path) : inert (Fs.mkdir p).
Proof.
  intros env w. unfold Fs.mkdir, bind, external, modify.
  destruct (answer env (tick w)); (split; [reflexivity |]);
    (split; [reflexivity |]); (split; [reflexivity |]);
    eexists; (split; [reflexivity |]);
    now repeat constructor.
Qed.

Lemma keeps_written (p : path) (f : file) :
  Main.VIDEO_FOLDER `prefix_of` p -> keeps (confined id) (Fs.written p f).
Proof.
  intros Hp env w. split; [| split; [now left | split; [| now left]]].
  - intros q Hq. cbn. apply lookup_insert_ne. now intros <-.
  - exists []. rewrite app_nil_r. split; [reflexivity |].
    intros H. now apply Exists_nil in H.
Qed.

Lemma keeps_remove (p : path) :
  Main.VIDEO_FOLDER `prefix_of` p -> keeps (confined id) (Fs.remove p).
Proof.
  intros Hp env w. unfold Fs.remove, bind, external, modify.
  destruct (answer env (tick w)); cbn [fst snd];
    [| now apply (confined_same _ _ [Remove p false]); repeat constructor].
  split; [| split; [now left | split; [| now left]]].
  - intros q Hq. cbn.
    assert (Hnp : ~ p `prefix_of` q).
    { intros Hpq. apply Hq. now transitivity p. }
    destruct (files w !! q) as [x|] eqn:E.
    + apply map_lookup_filter_Some. now split.
    + apply map_lookup_filter_None. now left.
  - exists [Remove p true]. split; [reflexivity |].
    intros H. apply Exists_cons in H as [H | H]; [discriminate H |].
    now apply Exists_nil in H.
Qed.

End Keeps.

Lemma keeps_mark_processed (url : string) :
  Laws.keeps (Laws.confined (ContentIdentity.extract_video_id url))
    (DuplicateTracker.mark_processed url).
Proof.
  intros env w.
  unfold DuplicateTracker.mark_processed, bind, modify, emit,
    DuplicateTracker.save, try_except, DuplicateTracker.write_text.
  cbn. destruct (answer env (tick w)); cbn;
    (split; [now intros q _ |]); (split; [now right |]).
  - split.
    + eexists. split; [now rewrite <- app_assoc |]. intros _. cbn. set_solver.
    + right. right. eexists. split; [reflexivity |].
      intros x Hx. cbn. now apply list_elem_of_In, elem_of_elements in Hx.
  - split.
    + eexists. split; [now rewrite <- app_assoc |]. intros _. cbn. set_solver.
    + unfold Laws.ledger_file_kept. cbn. destruct (torn env (tick w)); auto.
Qed.

Lemma iterdir_under (d p : path) (w : world) :
  In p (Fs.iterdir d w) -> d `prefix_of` p.
Proof.
  unfold Fs.iterdir. intros H.
  apply list_elem_of_In, elem_of_remove_dups, list_elem_of_omap in H.
  destruct H as (q & _ & Hq).
  destruct (decide (Fs.above d q)) as [[[k ->] _] |]; [| discriminate].
  injection Hq as <-.
  rewrite firstn_app, firstn_all2 by lia.
  now apply prefix_app_r.
Qed.

(** A path under the video folder. *)
Ltac under_video :=
  unfold Main.VIDEO_FOLDER, HlsDropbox.VIDEO_FOLDER; cbn [app];
  first [ apply prefix_cons, prefix_nil | assumption
        | eapply iterdir_under; eassumption ].

(** Proves [Laws.keeps (Laws.confined id) m] for a program [m] built from
    the operations above. *)
Ltac keeps_step :=
  lazymatch goal with
  | |- Laws.keeps _ (ret _) => apply keeps_ret
  | |- Laws.keeps _ (raise _) => apply keeps_raise
  | |- Laws.keeps _ (Fs.written _ _) => apply keeps_written; under_video
  | |- Laws.keeps _ (Fs.remove _) => apply keeps_remove; under_video
  | |- Laws.keeps _ (Fs.mkdir _) => apply keeps_inert, inert_mkdir
  | |- Laws.keeps _ (Fs.stat _) => apply keeps_inert, inert_stat
  | |- Laws.keeps _ (Fs.read_bytes _) => apply keeps_inert, inert_read_bytes
  | |- Laws.keeps _ (Fs.read_text _) => apply keeps_inert, inert_read_text
  | |- Laws.keeps _ (Main.run_in_executor _) => apply keeps_raise
  | |- Laws.keeps _ (DuplicateTracker.mark_processed _) =>
      apply keeps_mark_processed
  | |- Laws.keeps _ (DuplicateTracker.is_duplicate _) =>
      apply keeps_inert, inert_is_duplicate
  | |- Laws.keeps _ (external _) =>
      apply keeps_inert, inert_external; reflexivity
  | |- Laws.keeps _ (telegram _) => unfold telegram
  | |- Laws.keeps _ (logger _) => apply keeps_inert, inert_emit; reflexivity
  | |- Laws.keeps _ (sleep _) => apply keeps_inert, inert_emit; reflexivity
  | |- Laws.keeps _ (emit _) => apply keeps_inert, inert_emit; reflexivity
  | |- Laws.keeps _ get_world => apply keeps_inert, inert_get_world
  | |- Laws.keeps _ (reading _ _) => apply keeps_inert, inert_reading
  | |- Laws.keeps _ (bind _ _) => apply keeps_bind; [| intros ?]
  | |- Laws.keeps _ (try_except _ _) => apply keeps_try_except; [| intros ?]
  | |- Laws.keeps _ (try_finally _ _) => apply keeps_try_finally
  | |- Laws.keeps _ (for_in _ _ _) => apply keeps_for_in; intros ? ? ?
  | |- Laws.keeps _ (match ?x with _ => _ end) => destruct x
  end.

Ltac keeps_all := repeat keeps_step.

Section MainConfined.
Import Laws Main.

Context (id : string).

Lemma download_lands (url : string) :
  lands (fun f => exists n, f = VIDEO_FOLDER ++ [n])
        (download_instagram_video url).
Proof.
  intros env w.
  unfold download_instagram_video, bind, external, reading, Fs.written,
    logger, emit, modify, ret.
  destruct (answer env (tick w)); cbn; eauto.
Qed.

Lemma keeps_download (url : string) :
  keeps (confined id) (download_instagram_video url).
Proof. unfold download_instagram_video. keeps_all. Qed.

Lemma keeps_aggressive_compress (n : string) :
  keeps (confined id) (aggressive_compress (VIDEO_FOLDER ++ [n])).
Proof.
  unfold aggressive_compress, ffprobe_json, sanity_check, run_ffmpeg.
  cbv zeta. change (Fs.parent (VIDEO_FOLDER ++ [n])) with VIDEO_FOLDER.
  keeps_all.
Qed.

Lemma keeps_generate_hls (input : path) (vid : string) (secs : Z) :
  keeps (confined id) (generate_hls input vid secs).
Proof. unfold generate_hls. cbv zeta. keeps_all. Qed.

Lemma keeps_upload (local_dir : path) (base : string) :
  keeps (confined id) (upload_hls_folder local_dir base).
Proof.
  unfold upload_hls_folder, upload_segment, share_segment, upload_playlist.
  keeps_all.
Qed.

Lemma keeps_cleanup_local : keeps (confined id) cleanup_local.
Proof.
  unfold cleanup_local, cleanup_entry. keeps_all.
Qed.

End MainConfined.

Section JobsConfined.
Import Laws.

Lemma keeps_pipeline (url : string) :
  keeps (confined (ContentIdentity.extract_video_id url)) (Main.pipeline url).
Proof.
  unfold Main.pipeline. keeps_step; [keeps_all |].
  destruct a; [keeps_all |].
  keeps_step; [keeps_all |].
  keeps_step; [keeps_all |].
  keeps_step; [keeps_all |].
  keeps_step; [keeps_all |].
  keeps_step; [keeps_all |]. cbv zeta.
  keeps_step; [keeps_all |].
  keeps_step; [keeps_all |].
  keeps_step; [keeps_all |].
  keeps_all.
Qed.

Lemma keeps_handle_message (text : string) :
  keeps (confined (ContentIdentity.extract_video_id (PyStr.strip text)))
    (Main.handle_message text).
Proof.
  unfold Main.handle_message. cbv zeta. destruct (negb _); [keeps_all |].
  keeps_step; [keeps_all |].
  keeps_step; [| keeps_all].
  keeps_step; [apply keeps_pipeline | keeps_all].
Qed.

Lemma keeps_bg (url : string) :
  keeps (confined (ContentIdentity.extract_video_id url)) (Main.bg url).
Proof.
  unfold Main.bg. keeps_step; [| keeps_all].
  apply (keeps_bind_to _ _ _ _ (keeps_download _ url) (download_lands url)).
  intros f [n ->].
  keeps_step; [apply keeps_aggressive_compress |]. cbv zeta.
  keeps_step; [apply keeps_generate_hls |].
  keeps_step; [apply keeps_upload |].
  keeps_step; [keeps_all |].
  keeps_step; [apply keeps_cleanup_local | keeps_all].
Qed.

Lemma hls_download_lands (url : string) :
  lands (fun f => exists n, f = HlsDropbox.VIDEO_FOLDER ++ [n])
        (HlsDropbox.download_instagram_video url).
Proof.
  intros env w.
  unfold HlsDropbox.download_instagram_video, try_except, bind, external,
    reading, Fs.written, logger, emit, modify, ret, raise.
  destruct (answer env (tick w)); cbn; eauto.
Qed.

Lemma keeps_hls_download (id url : string) :
  keeps (confined id) (HlsDropbox.download_instagram_video url).
Proof. unfold HlsDropbox.download_instagram_video. cbv zeta. keeps_all. Qed.

Lemma keeps_compress_video (id n : string) :
  keeps (confined id)
    (HlsDropbox.compress_video (HlsDropbox.VIDEO_FOLDER ++ [n])).
Proof.
  unfold HlsDropbox.compress_video, HlsDropbox.get_video_info,
    HlsDropbox.value_error.
  cbv zeta.
  change (Fs.parent (HlsDropbox.VIDEO_FOLDER ++ [n]))
    with HlsDropbox.VIDEO_FOLDER.
  keeps_all.
Qed.

Lemma keeps_upload_to_dropbox (id : string) (p : path) :
  keeps (confined id) (HlsDropbox.upload_to_dropbox p).
Proof. unfold HlsDropbox.upload_to_dropbox. cbv zeta. keeps_all. Qed.

Lemma keeps_cleanup_local_files (id : string) :
  keeps (confined id) HlsDropbox.cleanup_local_files.
Proof.
  unfold HlsDropbox.cleanup_local_files, HlsDropbox.cleanup_entry. keeps_all.
Qed.

Lemma keeps_process (url : string) :
  keeps (confined (ContentIdentity.extract_video_id url))
    (HlsDropbox.process url).
Proof.
  unfold HlsDropbox.process, HlsDropbox.setup_directories.
  keeps_step; [keeps_all |].
  destruct a; [keeps_all |].
  keeps_step; [keeps_all |].
  keeps_step; [keeps_all |].
  apply (keeps_bind_to _ _ _ _ (keeps_hls_download _ url)
           (hls_download_lands url)).
  intros f [n ->].
  keeps_step; [keeps_all |].
  keeps_step; [apply keeps_compress_video |].
  keeps_step; [keeps_all |].
  keeps_step; [apply keeps_upload_to_dropbox |].
  keeps_step; [keeps_all |].
  keeps_step; [apply keeps_cleanup_local_files | keeps_all].
Qed.

Lemma keeps_send_error (id : string) (attempts : list Z) (n : notice) :
  keeps (confined id) (HlsDropbox.send_error attempts n).
Proof.
  induction attempts as [|a attempts IH]; cbn [HlsDropbox.send_error];
    [keeps_all |].
  keeps_step; [keeps_all |]. destruct a0; [keeps_all | exact IH].
Qed.

Lemma keeps_process_instagram_url (url : string) :
  keeps (confined (ContentIdentity.extract_video_id url))
    (HlsDropbox.process_instagram_url url).
Proof.
  unfold HlsDropbox.process_instagram_url.
  keeps_step; [apply keeps_process |].
  keeps_step; [apply keeps_send_error |].
  keeps_step; [apply keeps_cleanup_local_files | keeps_all].
Qed.

Lemma keeps_attempt (url : string) (retry_count : Z) :
  keeps (confined (ContentIdentity.extract_video_id url))
    (HlsDropbox.attempt url retry_count).
Proof.
  unfold HlsDropbox.attempt, HlsDropbox.process_in_thread. cbv zeta.
  keeps_step.
  - keeps_step; [keeps_all |].
    keeps_step; [| keeps_all].
    keeps_step; [apply keeps_process |].
    keeps_step; [keeps_all |].
    keeps_step; [| keeps_all].
    keeps_step; [apply keeps_cleanup_local_files | keeps_all].
  - keeps_all.
Qed.

Lemma keeps_while_retries (fuel : nat) (url : string) :
  forall retry_count,
    keeps (confined (ContentIdentity.extract_video_id url))
      (HlsDropbox.while_retries fuel url retry_count).
Proof.
  induction fuel as [|fuel IH]; intros rc; cbn [HlsDropbox.while_retries];
    [keeps_all |].
  destruct (rc <? HlsDropbox.max_retries); [| keeps_all].
  keeps_step; [apply keeps_attempt |].
  destruct a; [apply IH | keeps_all].
Qed.

End JobsConfined.

(** X12.  The only files a job leaves its mark on are media files under
    the video folder and the ledger file.  After the Telegram handler or the
    HTTP job of either source file, every path of the file system that does
    not lie under [video/] holds what it held before, whatever the outside
    world answered; and the ledger file [processed_videos.json] is as it
    was, or holds identifiers of the in-memory ledger, or was left
    unreadable by a write that failed.  (The token cache of the Dropbox
    client is not part of the file system modelled.) *)
Theorem jobs_stay_in_video_folder :
  (forall text env w,
      Laws.footprint Main.VIDEO_FOLDER w (Main.handle_message text env w).2)
  /\ (forall url env w,
        Laws.footprint Main.VIDEO_FOLDER w (Main.bg url env w).2)
  /\ (forall url env w,
        Laws.footprint HlsDropbox.VIDEO_FOLDER w
          (HlsDropbox.process_instagram_url url env w).2)
  /\ (forall url env w,
        Laws.footprint HlsDropbox.VIDEO_FOLDER w
          (HlsDropbox.background_process url env w).2).
Proof.
  assert (H : forall id w w', Laws.confined id w w' ->
                              Laws.footprint Main.VIDEO_FOLDER w w').
  { intros id w w' (Hf & _ & _ & Hd). now split. }
  split; [| split; [| split]].
  - intros text env w. apply (H _ _ _ (keeps_handle_message text env w)).
  - intros url env w. apply (H _ _ _ (keeps_bg url env w)).
  - intros url env w.
    apply (H _ _ _ (keeps_process_instagram_url url env w)).
  - intros url env w. apply (H _ _ _ (keeps_while_retries _ url 0 env w)).
Qed.

(** X13.  A job adds at most its own identifier to the in-memory ledger and
    never takes one away: after the Telegram handler or the HTTP job of
    either source file, the set is the one before, or the one before with
    the identifier of the submitted URL. *)
Theorem jobs_add_only_their_own_id :
  let id := ContentIdentity.extract_video_id in
  (forall text env w,
      Laws.ledger_step (id (PyStr.strip text)) w
        (Main.handle_message text env w).2)
  /\ (forall url env w, Laws.ledger_step (id url) w (Main.bg url env w).2)
  /\ (forall url env w,
        Laws.ledger_step (id url) w
          (HlsDropbox.process_instagram_url url env w).2)
  /\ (forall url env w,
        Laws.ledger_step (id url) w
          (HlsDropbox.background_process url env w).2).
Proof.
  cbv zeta. split; [| split; [| split]].
  - intros text env w. apply (keeps_handle_message text env w).
  - intros url env w. apply (keeps_bg url env w).
  - intros url env w. apply (keeps_process_instagram_url url env w).
  - intros url env w. apply (keeps_while_retries _ url 0 env w).
Qed.

(* ===================================================================== *)
(** * main.py: what the cleanup leaves behind *)
(* ===================================================================== *)

Section CleanupFacts.
Import Laws.

Lemma take_prefix (n : nat) (q : list string) : firstn n q `prefix_of` q.
Proof. exists (skipn n q). symmetry. apply firstn_skipn. Qed.

(** Nothing lies at or under a path that does not exist. *)
Lemma nothing_under_missing (p q : path) (w : world) :
  Fs.exists_ p w = false -> q ∈ dom (files w) -> ¬ p `prefix_of` q.
Proof.
  unfold Fs.exists_, Fs.is_dir, Fs.is_file. intros H Hq Hpq.
  apply orb_false_elim in H as [Hfile Hdir].
  apply bool_decide_eq_false in Hfile.
  rewrite bool_decide_eq_false_2 in Hdir by exact Hfile. cbn [negb andb] in Hdir.
  apply orb_false_elim in Hdir as [_ Hex].
  apply bool_decide_eq_false in Hex. apply Hex.
  apply Exists_exists. exists q. split.
  - unfold Fs.nodes. apply elem_of_elements. set_solver.
  - split; [exact Hpq |]. intros ->. contradiction.
Qed.

(** Nothing lies at or under a path that has been removed. *)
Lemma nothing_under_removed (p q : path) (w : world) :
  q ∈ dom (files (Fs.without p w)) -> q ∈ dom (files w) /\ ¬ p `prefix_of` q.
Proof.
  unfold Fs.without. cbn. intros H.
  apply elem_of_dom in H as [x Hx].
  apply map_lookup_filter_Some in Hx as [Hx Hp].
  split; [apply elem_of_dom; eauto | exact Hp].
Qed.

(** One entry of the folder: it is gone with all it held, unless its
    removal raised. *)
Lemma cleanup_entry_result (p : path) (env : environment) (w : world) :
  let r := Main.cleanup_entry p tt env w in
  r.1 = Ret tt
  /\ exists evs,
       trace r.2 = trace w ++ evs
       /\ (forall q, q ∈ dom (files r.2) -> q ∈ dom (files w))
       /\ (forall q, q ∈ dom (files r.2) -> p `prefix_of` q ->
                     In (Remove p false) evs).
Proof.
  cbv zeta.
  assert (Hnone : Fs.exists_ p w = false ->
            Main.cleanup_entry p tt env w = (Ret tt, w)).
  { unfold Fs.exists_, Main.cleanup_entry, try_except, bind, get_world.
    intros H. apply orb_false_elim in H as [-> ->]. reflexivity. }
  assert (Hsome : Fs.exists_ p w = true ->
            Main.cleanup_entry p tt env w
            = try_except (Fs.remove p) (fun _ => ret tt) env w).
  { unfold Fs.exists_, Main.cleanup_entry, try_except, bind, get_world.
    destruct (Fs.is_file p w); [reflexivity |].
    cbn [orb]. now intros ->. }
  destruct (Fs.exists_ p w) eqn:E.
  - rewrite (Hsome eq_refl).
    unfold try_except, Fs.remove, bind, external, modify, ret.
    destruct (answer env (tick w)) as [|e]; cbn [fst snd].
    + split; [reflexivity |]. exists [Remove p true].
      split; [reflexivity |]. split.
      * intros q Hq. now apply nothing_under_removed in Hq as [Hq _].
      * intros q Hq Hp. now apply nothing_under_removed in Hq as [_ Hq].
    + split; [reflexivity |]. exists [Remove p false].
      split; [reflexivity |]. split; [now intros q Hq | intros; now left].
  - rewrite (Hnone eq_refl). cbn [fst snd].
    split; [reflexivity |]. exists []. rewrite app_nil_r.
    split; [reflexivity |]. split; [now intros q Hq |].
    intros q Hq Hp. exfalso. exact (nothing_under_missing p q w E Hq Hp).
Qed.

Lemma cleanup_loop_result (env : environment) (ps : list (list string)) :
  forall w : world,
    let r := for_in ps Main.cleanup_entry tt env w in
    r.1 = Ret tt
    /\ exists evs,
         trace r.2 = trace w ++ evs
         /\ (forall q, q ∈ dom (files r.2) -> q ∈ dom (files w))
         /\ (forall p q, In p ps -> q ∈ dom (files r.2) -> p `prefix_of` q ->
                         In (Remove p false) evs).
Proof.
  induction ps as [|p ps IH]; intros w; cbv zeta.
  - cbn. split; [reflexivity |]. exists []. rewrite app_nil_r.
    repeat split; [now intros | intros p q []].
  - cbn [for_in].
    destruct (cleanup_entry_result p env w) as (Hr & evs1 & Ht1 & Hs1 & Hp1).
    destruct (Main.cleanup_entry p tt env w) as [[[] | e] w1] eqn:E;
      cbn [fst snd] in *; [| discriminate].
    assert (Hb : bind (Main.cleanup_entry p tt)
                   (fun s' => for_in ps Main.cleanup_entry s') env w
                 = for_in ps Main.cleanup_entry tt env w1)
      by (unfold bind; now rewrite E).
    rewrite Hb.
    destruct (IH w1) as (Hr2 & evs2 & Ht2 & Hs2 & Hp2).
    split; [exact Hr2 |]. exists (evs1 ++ evs2).
    split; [now rewrite Ht2, Ht1, app_assoc |].
    split; [intros q Hq; auto |].
    intros p' q [<- | Hin] Hq Hpq; apply in_or_app.
    + left. apply (Hp1 q); auto.
    + right. now apply (Hp2 p' q).
Qed.

Lemma entry_listed (q : path) (w : world) :
  q ∈ dom (files w) -> Fs.above Main.VIDEO_FOLDER q ->
  In (entry q) (Fs.iterdir Main.VIDEO_FOLDER w).
Proof.
  intros Hq Hab. unfold Fs.iterdir.
  apply list_elem_of_In, elem_of_remove_dups, list_elem_of_omap.
  exists q. split.
  - unfold Fs.nodes. apply elem_of_elements. set_solver.
  - now rewrite decide_True by exact Hab.
Qed.

Lemma cleanup_local_result (env : environment) (w : world) :
  let r := Main.cleanup_local env w in
  r.1 = Ret tt
  /\ exists evs,
       trace r.2 = trace w ++ evs
       /\ forall q, q ∈ dom (files r.2) -> Fs.above Main.VIDEO_FOLDER q ->
                    q ∈ dom (files w) /\ In (Remove (entry q) false) evs.
Proof.
  cbv zeta.
  assert (Hc : Main.cleanup_local env w
               = if Fs.exists_ Main.VIDEO_FOLDER w
                 then try_except
                        (for_in (Fs.iterdir Main.VIDEO_FOLDER w)
                           Main.cleanup_entry tt)
                        (fun _ => ret tt) env w
                 else (Ret tt, w)).
  { unfold Main.cleanup_local, try_except, bind, get_world.
    now destruct (Fs.exists_ Main.VIDEO_FOLDER w). }
  rewrite Hc. clear Hc.
  destruct (Fs.exists_ Main.VIDEO_FOLDER w) eqn:E.
  - destruct (cleanup_loop_result env (Fs.iterdir Main.VIDEO_FOLDER w) w)
      as (Hr & evs & Ht & Hs & Hp).
    unfold try_except.
    destruct (for_in _ _ _ env w) as [[[] | e] w1]; cbn [fst snd] in *;
      [| discriminate].
    split; [reflexivity |]. exists evs. split; [exact Ht |].
    intros q Hq Hab. split; [auto |].
    apply (Hp (entry q) q); [apply entry_listed; auto | exact Hq |].
    apply take_prefix.
  - cbn. split; [reflexivity |]. exists []. rewrite app_nil_r.
    split; [reflexivity |]. intros q Hq [Hpre _]. exfalso.
    exact (nothing_under_missing _ q w E Hq Hpre).
Qed.

End CleanupFacts.

(** X14.  [cleanup_local] never raises, and what it leaves under the video
    folder is only what it could not remove: every file still there was
    there before and lies in an entry of the folder whose removal raised.
    When no removal raises, nothing is left under the folder. *)
Theorem cleanup_local_leaves_only_failures (env : environment) (w : world) :
  let r := Main.cleanup_local env w in
  r.1 = Ret tt
  /\ exists evs,
       trace r.2 = trace w ++ evs
       /\ (forall q, q ∈ dom (files r.2) -> Fs.above Main.VIDEO_FOLDER q ->
                     q ∈ dom (files w)
                     /\ In (Remove (Laws.entry q) false) evs)
       /\ (Forall (fun e => match e with Remove _ ok => ok = true | _ => True end)
                  evs ->
           forall q, q ∈ dom (files r.2) -> ¬ Fs.above Main.VIDEO_FOLDER q).
Proof.
  cbv zeta. destruct (cleanup_local_result env w) as (Hr & evs & Ht & Hq).
  split; [exact Hr |]. exists evs. split; [exact Ht |].
  split; [exact Hq |].
  intros Hall q Hin Hab. destruct (Hq q Hin Hab) as [_ Hrem].
  apply list_elem_of_In in Hrem.
  rewrite Forall_forall in Hall. specialize (Hall _ Hrem). discriminate Hall.
Qed.

(** X15.  The Telegram handler of main.py never gets to work on a video
    and never cleans up.  Every step of its pipeline, and the cleanup of its
    [finally] block, is called through [context.application.run_in_executor],
    which does not exist: the call raises [AttributeError].  So, whatever
    the message and the outside world, the handler only sends messages and
    logs: the files, the directories and the ledger, in memory and on disk,
    are as they were, and nothing is downloaded, encoded, uploaded or
    removed.  For a URL that is not in the ledger it announces the
    download and then reports that processing failed, with the text of the
    [AttributeError]. *)
Theorem handle_message_does_no_work :
  (forall text env w,
      let w' := (Main.handle_message text env w).2 in
      files w' = files w /\ dirs w' = dirs w
      /\ processed w' = processed w /\ db_file w' = db_file w
      /\ exists evs,
           trace w' = trace w ++ evs
           /\ Forall (fun e => Laws.talk e = true) evs)
  /\ (forall text env w,
        PyStr.contains "instagram.com" (PyStr.strip text) = true ->
        ContentIdentity.extract_video_id (PyStr.strip text) ∉ processed w ->
        answer env (tick w) = Fine ->
        answer env (S (tick w)) = Fine ->
        trace (Main.handle_message text env w).2
        = trace w
          ++ [Telegram Starting true; Telegram Downloading true;
              Log ProcessingError;
              Telegram (Failed (exn_msg Main.no_run_in_executor))
                (Props.is_fine (answer env (S (S (tick w)))))]).
Proof.
  split.
  - intros text env w. cbv zeta.
    unfold Main.handle_message, Main.pipeline, Main.run_in_executor.
    cbv zeta. destruct (negb _).
    + unfold telegram, bind, external, ret.
      destruct (answer env (tick w)); cbn [fst snd files dirs processed
        db_file trace set_trace set_tick];
        do 4 (split; [reflexivity |]); eexists;
        (split; [reflexivity | repeat constructor]).
    + unfold try_finally, try_except, telegram, logger, emit, modify,
        DuplicateTracker.is_duplicate, get_world, bind, external, raise, ret.
      destruct (answer env (tick w));
        cbn [fst snd files dirs processed db_file trace tick set_trace
             set_tick];
        [| do 4 (split; [reflexivity |]); eexists;
           (split; [reflexivity | repeat constructor])].
      destruct (bool_decide _);
        cbn [fst snd files dirs processed db_file trace tick set_trace
             set_tick];
        destruct (answer env (S (tick w)));
        cbn [fst snd files dirs processed db_file trace tick set_trace
             set_tick];
        try destruct (answer env (S (S (tick w))));
        cbn [fst snd files dirs processed db_file trace tick set_trace
             set_tick];
        do 4 (split; [reflexivity |]); eexists;
        (split; [rewrite <- ?app_assoc; reflexivity | repeat constructor]).
  - intros text env w Hurl Hnew H0 H1.
    unfold Main.handle_message, Main.pipeline, Main.run_in_executor.
    cbv zeta. rewrite Hurl. cbn [negb].
    unfold try_finally, try_except, telegram, logger, emit, modify,
      DuplicateTracker.is_duplicate, get_world, bind, external, raise, ret.
    rewrite H0.
    cbn [fst snd files dirs processed db_file trace tick set_trace set_tick].
    rewrite (bool_decide_eq_false_2 _ Hnew).
    cbn [fst snd files dirs processed db_file trace tick set_trace set_tick].
    rewrite H1.
    cbn [fst snd files dirs processed db_file trace tick set_trace set_tick].
    destruct (answer env (S (S (tick w))));
      cbn [fst snd trace set_trace set_tick Props.is_fine];
      now rewrite <- !app_assoc.
Qed.

Lemma handle_message_does_no_work_witness :
  let w :=
    World 0 [] ∅ NoFile {[ ["video"; "stale.mp4"] := File 1 "" ]}
      {[ ["video"] ]} in
  trace (Main.handle_message "https://www.instagram.com/p/abc123/"
           Scenario.all_fine w).2
  = trace w
    ++ [Telegram Starting true; Telegram Downloading true;
        Log ProcessingError;
        Telegram (Failed (exn_msg Main.no_run_in_executor)) true].
Proof.
  intros w.
  exact (proj2 handle_message_does_no_work
           "https://www.instagram.com/p/abc123/" Scenario.all_fine w
           eq_refl (not_elem_of_empty _) eq_refl eq_refl).
Defined.

(* ===================================================================== *)
(** * main.py: what the entry points and the steps do with odd input *)
(* ===================================================================== *)

Section EntryFacts.

(** The thread of the HTTP endpoint swallows every exception. *)
Lemma bg_returns (url : string) (env : environment) (w : world) :
  (Main.bg url env w).1 = Ret tt.
Proof.
  unfold Main.bg, try_except.
  match goal with |- context [?body env w] => destruct (body env w) as [[[] | e] w1] end;
    reflexivity.
Qed.

End EntryFacts.

(** X16.  The HTTP endpoint of main.py answers 400, and does nothing else,
    when the [url] parameter is missing, empty or without ["instagram.com"];
    otherwise it answers 202, whatever becomes of the job, which never
    raises into the handler.  The Telegram handler, on a text without
    ["instagram.com"], only asks for a URL: it sends that one message and
    touches nothing. *)
Theorem entry_points_validate_input :
  (forall (url : option string) (env : environment) (w : world),
      let r := Main.process_instagram url env w in
      r.1 = Ret (if Laws.accepted url then 202 else 400)
      /\ (Laws.accepted url = false -> r.2 = w))
  /\ (forall (text : string) (env : environment) (w : world),
        PyStr.contains "instagram.com" (PyStr.strip text) = false ->
        exists ok,
          (Main.handle_message text env w).2
          = set_trace (trace w ++ [Telegram PleaseSendUrl ok])
              (set_tick (S (tick w)) w)).
Proof.
  split.
  - intros [[|c u] |] env w; cbv zeta; [now split | | now split].
    unfold Main.process_instagram, Laws.accepted.
    destruct (PyStr.contains "instagram.com" (String c u)); cbn [negb].
    + split; [| discriminate].
      unfold bind. pose proof (bg_returns (String c u) env w) as H.
      destruct (Main.bg (String c u) env w) as [[[] | e] w1];
        [reflexivity | discriminate H].
    + now split.
  - intros text env w H. unfold Main.handle_message. cbv zeta.
    rewrite H. cbn [negb]. unfold telegram, bind, external, ret.
    destruct (answer env (tick w)); eexists; reflexivity.
Qed.

Lemma entry_points_validate_input_witness :
  exists ok,
    (Main.handle_message "hello there" Scenario.all_fine
       (World 0 [] ∅ NoFile ∅ ∅)).2
    = set_trace ([] ++ [Telegram PleaseSendUrl ok])
        (set_tick 1 (World 0 [] ∅ NoFile ∅ ∅)).
Proof.
  exact (proj2 entry_points_validate_input "hello there" Scenario.all_fine
           (World 0 [] ∅ NoFile ∅ ∅) eq_refl).
Defined.

(** X18.  Sharing a segment changes the dictionary at the segment's own
    name only, and only to a link turned raw.  When the link is created, it
    is stored.  When the creation raises, the failure is swallowed and the
    dictionary is handed on as it was, with no entry added, unless the error
    says that the link exists already: then the links are listed, the first
    one listed is stored, none is stored when the list is empty, and only a
    failure of that listing raises. *)
Theorem share_segment_outcomes
    (remote name : string) (urls : gmap string string)
    (env : environment) (w : world) :
  let stored u := <[name := Main.raw_url u]> urls in
  (Main.share_segment remote name urls env w).1
  = match answer env (tick w) with
    | Fine => Ret (stored (shared_url env (tick w)))
    | Fault e =>
        if PyStr.contains "shared_link_already_exists" (exn_msg e) then
          match answer env (S (tick w)) with
          | Fine =>
              match listed_links env (S (tick w)) with
              | u :: _ => Ret (stored u)
              | [] => Ret urls
              end
          | Fault e' => Raise e'
          end
        else Ret urls
    end.
Proof.
  cbv zeta.
  unfold Main.share_segment, try_except, bind, external, reading, ret.
  destruct (answer env (tick w)) as [|e]; [reflexivity |].
  cbn [fst snd tick set_trace set_tick].
  destruct (PyStr.contains _ _); [| reflexivity].
  cbn [fst snd tick set_trace set_tick].
  destruct (answer env (S (tick w))) as [|e']; [| reflexivity].
  cbn [fst snd]. now destruct (listed_links env (S (tick w))).
Qed.

(* ===================================================================== *)
(** * main.py: the folder that [generate_hls] fills *)
(* ===================================================================== *)

Section HlsFolder.
Import Main Laws.

Context (input : list string) (vid : string) (secs : Z).

Lemma generate_hls_steps (env : environment) (w : world) :
  generate_hls input vid secs env w
  = bind (clear_outdir (VIDEO_FOLDER ++ ["hls"; vid]) w)
         (fun _ => fill_outdir input vid secs (VIDEO_FOLDER ++ ["hls"; vid])) env w.
Proof. reflexivity. Qed.

Lemma clear_outdir_result (env : environment) (w w1 : world) :
  clear_outdir (VIDEO_FOLDER ++ ["hls"; vid]) w env w = (Ret tt, w1) ->
  forall q, q ∈ dom (files w1) -> ¬ (VIDEO_FOLDER ++ ["hls"; vid]) `prefix_of` q.
Proof.
  unfold clear_outdir. destruct (Fs.exists_ (VIDEO_FOLDER ++ ["hls"; vid]) w) eqn:E.
  - unfold Fs.remove, bind, external, modify.
    destruct (answer env (tick w)); [| discriminate].
    intros [= <-] q Hq. now apply nothing_under_removed in Hq as [_ Hq].
  - intros [= <-] q Hq. exact (nothing_under_missing _ q w E Hq).
Qed.

Lemma clear_outdir_returns (env : environment) (w : world) :
  (forall k, answer env k = Fine) ->
  exists w1, clear_outdir (VIDEO_FOLDER ++ ["hls"; vid]) w env w = (Ret tt, w1).
Proof.
  intros Hfine. unfold clear_outdir. destruct (Fs.exists_ (VIDEO_FOLDER ++ ["hls"; vid]) w).
  - unfold Fs.remove, bind, external, modify. rewrite Hfine. eauto.
  - now eexists.
Qed.

Lemma written_segments (env : environment) (idx : list nat) :
  forall w : world,
    let r := for_in idx
               (fun i _ => Fs.written ((VIDEO_FOLDER ++ ["hls"; vid]) ++ [segment_name vid i])
                             (File 0 EmptyString)) tt env w in
    r.1 = Ret tt
    /\ forall q, q ∈ dom (files r.2)
                 <-> q ∈ dom (files w)
                     \/ exists i, In i idx /\ q = (VIDEO_FOLDER ++ ["hls"; vid]) ++ [segment_name vid i].
Proof.
  induction idx as [|i idx IH]; intros w; cbv zeta.
  - cbn. split; [reflexivity |]. intros q. split; [now left |].
    now intros [H | (i & [] & _)].
  - cbn [for_in].
    set (w1 := set_files (<[(VIDEO_FOLDER ++ ["hls"; vid]) ++ [segment_name vid i] := File 0 EmptyString]>
                            (files w)) w).
    change (bind _ _ env w)
      with (for_in idx
              (fun i _ => Fs.written ((VIDEO_FOLDER ++ ["hls"; vid]) ++ [segment_name vid i])
                            (File 0 EmptyString)) tt env w1).
    destruct (IH w1) as [Hr Hq]. split; [exact Hr |].
    intros q. rewrite Hq. subst w1. cbn [files set_files].
    rewrite dom_insert, elem_of_union, elem_of_singleton.
    split.
    + intros [[-> | H] | (j & Hj & ->)]; [right | now left | right].
      * exists i. split; [now left | reflexivity].
      * exists j. split; [now right | reflexivity].
    + intros [H | (j & [<- | Hj] & ->)]; [left; now right | left; now left |].
      right. now exists j.
Qed.

Lemma fill_outdir_result (env : environment) (w1 : world) :
  exists r w',
    fill_outdir input vid secs (VIDEO_FOLDER ++ ["hls"; vid]) env w1 = (r, w')
    /\ ((forall k, answer env k = Fine) -> r = Ret (VIDEO_FOLDER ++ ["hls"; vid]))
    /\ (r = Ret (VIDEO_FOLDER ++ ["hls"; vid]) ->
        exists count : nat,
          forall q, q ∈ dom (files w')
                    <-> q ∈ dom (files w1)
                        \/ q = (VIDEO_FOLDER ++ ["hls"; vid]) ++ [(vid +:+ ".m3u8")]
                        \/ exists i, (i < count)%nat
                                     /\ q = (VIDEO_FOLDER ++ ["hls"; vid]) ++ [segment_name vid i]).
Proof.
  unfold fill_outdir, Fs.mkdir.
  unfold bind at 1. unfold bind at 1, external at 1.
  destruct (answer env (tick w1)) eqn:E1; cbv beta iota.
  2: { eexists _, _. split; [reflexivity |].
       split; [intros H; rewrite H in E1; discriminate | discriminate]. }
  unfold modify at 1. cbv beta iota.
  set (w2 := set_dirs _ _).
  unfold bind at 1, external at 1.
  destruct (answer env (tick w2)) eqn:E2; cbv beta iota.
  2: { eexists _, _. split; [reflexivity |].
       split; [intros H; rewrite H in E2; discriminate | discriminate]. }
  set (w3 := set_trace _ _).
  unfold bind at 1, reading at 1. cbv beta iota.
  unfold bind at 1, reading at 1. cbv beta iota.
  set (count := segment_count env (tick w2)).
  unfold bind at 1.
  destruct (written_segments env (seq 0 count) w3) as [Hr Hq].
  destruct (for_in _ _ _ env w3) as [[[] | e] w4]; cbn [fst snd] in *;
    [| discriminate].
  unfold bind, Fs.written, logger, emit, modify, ret.
  eexists _, _. split; [reflexivity |].
  split; [reflexivity |]. intros _. exists count. intros q. cbn.
  rewrite dom_insert, elem_of_union, elem_of_singleton, Hq.
  subst w3 w2. cbn [files set_trace set_tick set_dirs].
  split.
  - intros [-> | [H | (i & Hi & ->)]]; [right; now left | now left |].
    right. right. exists i. split; [| reflexivity].
    apply in_seq in Hi. lia.
  - intros [H | [-> | (i & Hi & ->)]]; [right; now left | now left |].
    right. right. exists i. split; [| reflexivity].
    apply in_seq. lia.
Qed.

End HlsFolder.

(** X19.  [generate_hls] returns when the removal of an earlier folder, the
    [mkdir] and ffmpeg all return; and when it returns, its folder
    [video/hls/<video_id>] holds the playlist and the segments that ffmpeg
    has just written and nothing else: what an earlier run had left there
    is gone. *)
Theorem generate_hls_fresh_folder
    (input : list string) (vid : string) (secs : Z)
    (env : environment) (w : world) :
  let d := Main.VIDEO_FOLDER ++ ["hls"; vid] in
  let r := Main.generate_hls input vid secs env w in
  ((forall k, answer env k = Fine) -> r.1 = Ret d)
  /\ (r.1 = Ret d ->
      exists count : nat,
        forall q, d `prefix_of` q ->
          (q ∈ dom (files r.2)
           <-> q = d ++ [(vid +:+ ".m3u8")]
               \/ exists i, (i < count)%nat
                            /\ q = d ++ [Main.segment_name vid i])).
Proof.
  cbv zeta. rewrite generate_hls_steps. unfold bind.
  destruct (Laws.clear_outdir _ w env w) as [[[] | e] w1] eqn:E1;
    cbn [fst snd].
  - destruct (fill_outdir_result input vid secs env w1)
      as (r & w' & -> & Hret & Hfiles).
    cbn [fst snd]. split; [exact Hret |].
    intros Hr. destruct (Hfiles Hr) as [count Hq].
    exists count. intros q Hpre. rewrite Hq. split.
    + intros [H | H]; [| exact H].
      exfalso. exact (clear_outdir_result vid env w w1 E1 q H Hpre).
    + intros H. now right.
  - split; [| discriminate]. intros Hfine.
    destruct (clear_outdir_returns vid env w Hfine) as [w1' E].
    rewrite E in E1. discriminate E1.
Qed.

Lemma generate_hls_fresh_folder_witness :
  (Main.generate_hls Scenario.clip "abc123" 2 Scenario.all_fine
     Scenario.downloaded).1
  = Ret ["video"; "hls"; "abc123"].
Proof.
  exact (proj1 (generate_hls_fresh_folder Scenario.clip "abc123" 2
                  Scenario.all_fine Scenario.downloaded)
           (fun _ => eq_refl)).
Defined.

(* ===================================================================== *)
(** * instagram_to_HLS_dropbox.py: what each step leaves and how it fails *)
(* ===================================================================== *)

Section HlsStepFacts.

Lemma parent_last (dir : list string) (n : string) :
  Fs.parent (dir ++ [n]) = dir.
Proof. unfold Fs.parent. apply removelast_last. Qed.

Lemma longer_name_differs (pre n : string) :
  pre <> "" -> pre +:+ n <> n.
Proof.
  intros Hpre H. apply (f_equal String.length) in H.
  rewrite length_append in H. destruct pre; [congruence | simpl in H; lia].
Qed.

Lemma sibling_not_under (dir : list string) (a b : string) :
  a <> b -> ~ ((dir ++ [a]) `prefix_of` (dir ++ [b])).
Proof.
  intros Hab H. apply prefix_app_inv in H. destruct H as [k Hk].
  injection Hk as ->. congruence.
Qed.

End HlsStepFacts.

(** X20.  [compress_video] of instagram_to_HLS_dropbox.py replaces its
    input: when it returns, the compressed file
    [compressed_480p_<name>] stands beside where the input was and the
    input is gone; when it raises, at whatever step, the input is as it
    was. *)
Theorem compress_video_replaces_original
    (dir : list string) (n : string) (env : environment) (w : world) :
  let p := dir ++ [n] in
  let out := dir ++ ["compressed_480p_" +:+ n] in
  match HlsDropbox.compress_video p env w with
  | (Ret c, w') =>
      c = out /\ (p ∉ dom (files w')) /\ (out ∈ dom (files w'))
  | (Raise _, w') => files w' !! p = files w !! p
  end.
Proof.
  cbv zeta.
  assert (Hne : "compressed_480p_" +:+ n <> n)
    by now apply longer_name_differs.
  assert (Hsib : ~ ((dir ++ [n])
                      `prefix_of` (dir ++ ["compressed_480p_" +:+ n])))
    by (apply sibling_not_under; congruence).
  assert (Hpo : dir ++ ["compressed_480p_" +:+ n] <> dir ++ [n]).
  { intros H. apply app_inv_head in H. congruence. }
  unfold HlsDropbox.compress_video. cbv zeta.
  rewrite parent_last, name_last.
  unfold HlsDropbox.get_video_info, HlsDropbox.value_error, Fs.stat,
    Fs.written, Fs.remove, try_except, bind, external, reading, modify, ret,
    raise.
  destruct (files w !! (dir ++ [n])) as [f|] eqn:Hf; simpl;
    [| now rewrite Hf].
  destruct (answer env (tick w)) as [|e0]; simpl.
  all: try (destruct (HlsPlanner.duration_of _) as [d|]; simpl;
            [| exact Hf]).
  all: try (destruct (HlsPlanner.current_bitrate_kbps _ _ _) as [c|]; simpl;
            [| exact Hf]).
  all: destruct (answer env (S (tick w))) as [|e1]; simpl;
    [| destruct (exn_cls e1); exact Hf].
  all: rewrite lookup_insert_eq; simpl.
  all: destruct (answer env (S (S (tick w)))) as [|e2]; simpl.
  all: try (destruct (exn_cls e2); simpl; rewrite lookup_insert_ne by exact Hpo;
            exact Hf).
  all: split; [reflexivity |]; split.
  all: try (intros H; apply elem_of_dom in H as [x Hx];
            apply map_lookup_filter_Some in Hx as [_ Hx]; now apply Hx).
  all: apply elem_of_dom; eexists; apply map_lookup_filter_Some;
    (split; [apply lookup_insert_eq | exact Hsib]).
Qed.

(** X21.  A failure of a step of instagram_to_HLS_dropbox.py comes out
    labelled with its step.  When yt-dlp raises, the download raises
    ["Download failed: "] followed by the message of that exception.  Every
    exception of the upload is ["Upload failed: "] followed by the message of
    what failed: the missing file, the upload, the creation of the link or
    the listing of the links.  When the encoder exits with an error
    ([CalledProcessError]), the compression raises ["Compression failed: "]
    followed by what the encoder wrote; an exception of another class
    passes as it is.  And every exception of the compression is one of
    these: a labelled failure of the encoder or of the removal of the input,
    or, unchanged, the missing input, the [ValueError] of a garbled probe, or
    what the encoder or the removal raised. *)
Theorem step_failures_are_labelled :
  (forall url env w,
      match answer env (tick w) with
      | Fine =>
          exists f, (HlsDropbox.download_instagram_video url env w).1 = Ret f
      | Fault e =>
          (HlsDropbox.download_instagram_video url env w).1
          = Raise (Exn OtherError ("Download failed: " +:+ exn_msg e))
      end)
  /\ (forall p env w,
        match (HlsDropbox.upload_to_dropbox p env w).1 with
        | Raise e =>
            exists e0,
              e = Exn OtherError ("Upload failed: " +:+ exn_msg e0)
              /\ ((files w !! p = None
                   /\ e0 = Exn FileNotFoundError "No such file or directory")
                  \/ answer env (tick w) = Fault e0
                  \/ answer env (S (tick w)) = Fault e0
                  \/ answer env (S (S (tick w))) = Fault e0)
        | Ret _ => True
        end)
  /\ (forall p env w f args e,
        files w !! p = Some f ->
        HlsPlanner.plan (Props.probed env (tick w)) (st_size f) = Some args ->
        answer env (S (tick w)) = Fault e ->
        (exn_cls e = CalledProcessError ->
         (HlsDropbox.compress_video p env w).1
         = Raise (Exn OtherError ("Compression failed: " +:+ exn_msg e)))
        /\ (exn_cls e <> CalledProcessError ->
            (HlsDropbox.compress_video p env w).1 = Raise e))
  /\ (forall p env w,
        match (HlsDropbox.compress_video p env w).1 with
        | Raise e =>
            (exists e0,
                exn_cls e0 = CalledProcessError
                /\ (answer env (S (tick w)) = Fault e0
                    \/ answer env (S (S (tick w))) = Fault e0)
                /\ e = Exn OtherError ("Compression failed: " +:+ exn_msg e0))
            \/ (exn_cls e <> CalledProcessError
                /\ (e = Exn FileNotFoundError "No such file or directory"
                    \/ e = Exn ValueError "could not convert string"
                    \/ answer env (S (tick w)) = Fault e
                    \/ answer env (S (S (tick w))) = Fault e))
        | Ret _ => True
        end).
Proof.
  split; [| split; [| split]].
  - intros url env w.
    unfold HlsDropbox.download_instagram_video, try_except, bind, external,
      reading, Fs.written, logger, emit, modify, ret, raise.
    destruct (answer env (tick w)); cbn [fst snd]; [eexists |]; reflexivity.
  - intros p env w.
    unfold HlsDropbox.upload_to_dropbox, Fs.read_bytes, try_except, bind,
      external, reading, ret, raise.
    destruct (files w !! p) as [f|]; cbn [fst snd];
      [| eexists; split; [reflexivity | now left]].
    destruct (answer env (tick w)) as [|e0] eqn:E0; cbn [fst snd];
      [| eexists; split; [reflexivity | right; now left]].
    cbn [tick set_trace set_tick].
    destruct (answer env (S (tick w))) as [|e1] eqn:E1; cbn [fst snd];
      [exact I |].
    assert (H1 : exists e0 : exn,
               Exn OtherError ("Upload failed: " +:+ exn_msg e1)
               = Exn OtherError ("Upload failed: " +:+ exn_msg e0)
               /\ ((None = @None file
                    /\ e0 = Exn FileNotFoundError "No such file or directory")
                   \/ Fine = Fault e0 \/ Fault e1 = Fault e0
                   \/ answer env (S (S (tick w))) = Fault e0)).
    { exists e1. split; [reflexivity |]. right. right. now left. }
    assert (H1' : exists e0 : exn,
               Exn OtherError ("Upload failed: " +:+ exn_msg e1)
               = Exn OtherError ("Upload failed: " +:+ exn_msg e0)
               /\ ((Some f = None
                    /\ e0 = Exn FileNotFoundError "No such file or directory")
                   \/ Fine = Fault e0 \/ Fault e1 = Fault e0
                   \/ answer env (S (S (tick w))) = Fault e0)).
    { exists e1. split; [reflexivity |]. right. right. now left. }
    destruct (exn_cls e1); cbn [fst snd]; try exact H1'.
    destruct (PyStr.contains _ _); cbn [fst snd]; [| exact H1'].
    cbn [tick set_trace set_tick].
    destruct (answer env (S (S (tick w)))) as [|e2] eqn:E2; cbn [fst snd].
    + destruct (listed_links env (S (S (tick w)))); cbn [fst snd];
        [| exact I].
      exists e1. split; [reflexivity |]. right. right. now left.
    + exists e2. split; [reflexivity |]. right. right. now right.
  - intros p env w f args e Hf Hplan He.
    unfold HlsPlanner.plan in Hplan.
    unfold HlsDropbox.compress_video, HlsDropbox.get_video_info,
      HlsDropbox.value_error, Fs.stat, try_except, bind, external, reading,
      ret, raise.
    rewrite Hf. cbn [fst snd].
    assert (Hprobe :
              (match answer env (tick w) with
               | Fine => probe env (tick w)
               | Fault _ => no_format
               end) = Props.probed env (tick w)) by reflexivity.
    destruct (answer env (tick w)) as [|e0];
      cbn [fst snd tick set_trace set_tick]; rewrite Hprobe;
      destruct (HlsPlanner.duration_of (Props.probed env (tick w)));
      try discriminate Hplan;
      destruct (HlsPlanner.current_bitrate_kbps _ _ _);
      try discriminate Hplan;
      cbn [fst snd tick set_trace set_tick]; rewrite He; cbn [fst snd];
      (split; [intros Hc; now rewrite Hc |]);
      intros Hc; destruct e as [[] msg]; cbn in *; congruence.
  - intros p env w.
    unfold HlsDropbox.compress_video, HlsDropbox.get_video_info,
      HlsDropbox.value_error, Fs.stat, Fs.written, Fs.remove, try_except,
      bind, external, reading, modify, ret, raise.
    destruct (files w !! p) as [f|]; cbn [fst snd exn_cls];
      [| right; split; [discriminate | now left]].
    assert (Hlabel : forall (a1 a2 : reply) (e : exn),
               a1 = Fault e \/ a2 = Fault e ->
               match
                 (match exn_cls e with
                  | CalledProcessError =>
                      @Raise (list string)
                        (Exn OtherError ("Compression failed: " +:+ exn_msg e))
                  | _ => Raise e
                  end)
               with
               | Raise e' =>
                   (exists e0,
                       exn_cls e0 = CalledProcessError
                       /\ (a1 = Fault e0 \/ a2 = Fault e0)
                       /\ e' = Exn OtherError
                                 ("Compression failed: " +:+ exn_msg e0))
                   \/ (exn_cls e' <> CalledProcessError
                       /\ (e' = Exn FileNotFoundError
                                  "No such file or directory"
                           \/ e' = Exn ValueError "could not convert string"
                           \/ a1 = Fault e' \/ a2 = Fault e'))
               | Ret _ => True
               end).
    { intros a1 a2 e He. destruct (exn_cls e) eqn:Hc;
        try (right; split; [congruence | tauto]).
      left. exists e. now repeat split. }
    destruct (answer env (tick w)) as [|e0];
      cbn [fst snd tick files set_trace set_tick set_files];
      (destruct (HlsPlanner.duration_of _); cbn [fst snd exn_cls];
       [| right; split; [discriminate | right; now left]]);
      (destruct (HlsPlanner.current_bitrate_kbps _ _ _); cbn [fst snd exn_cls];
       [| right; split; [discriminate | right; now left]]);
      cbn [fst snd tick files set_trace set_tick set_files];
      (destruct (answer env (S (tick w))) as [|e1]; cbn [fst snd];
       [| pose proof (Hlabel (Fault e1) (answer env (S (S (tick w)))) e1
                        (or_introl eq_refl)) as H;
          destruct (exn_cls e1); exact H]);
      cbn [fst snd tick files set_trace set_tick set_files];
      rewrite lookup_insert_eq;
      cbn [fst snd tick files set_trace set_tick set_files];
      (destruct (answer env (S (S (tick w)))) as [|e2]; cbn [fst snd];
       [exact I |]);
      pose proof (Hlabel Fine (Fault e2) e2 (or_intror eq_refl)) as H;
      destruct (exn_cls e2); exact H.
Qed.

Lemma step_failures_are_labelled_witness :
  let e := Exn CalledProcessError "non-zero exit status 1" in
  (HlsDropbox.compress_video Scenario.clip (Scenario.ffmpeg_fails_at 1)
     Scenario.downloaded).1
  = Raise (Exn OtherError ("Compression failed: " +:+ exn_msg e)).
Proof.
  intros e.
  exact (proj1
           (proj1 (proj2 (proj2 step_failures_are_labelled))
              Scenario.clip (Scenario.ffmpeg_fails_at 1) Scenario.downloaded
              (File 1000 "")
              (HlsPlanner.encode_args (PyNum.megabytes 1000) 2000) e
              eq_refl eq_refl eq_refl)
           eq_refl).
Defined.


(* ===================================================================== *)
(** * instagram_to_HLS_dropbox.py: the cleanup and the Telegram job *)
(* ===================================================================== *)

Section HlsCleanupFacts.
Import Laws.

Lemma iterdir_entry_length (d p : path) (w : world) :
  In p (Fs.iterdir d w) -> List.length p = S (List.length d).
Proof.
  unfold Fs.iterdir. intros H.
  apply list_elem_of_In, elem_of_remove_dups, list_elem_of_omap in H.
  destruct H as (q & _ & Hq).
  destruct (decide (Fs.above d q)) as [[[k ->] Hne] |]; [| discriminate].
  injection Hq as <-.
  destruct k as [|x k]; [now rewrite app_nil_r in Hne |].
  rewrite firstn_app, firstn_all2 by lia.
  replace (S (List.length d) - List.length d)%nat with 1%nat by lia.
  cbn [firstn]. rewrite firstn_O, length_app. cbn. lia.
Qed.

Lemma entry_unique (p q : path) :
  List.length p = S (List.length Main.VIDEO_FOLDER) ->
  p `prefix_of` q -> p = entry q.
Proof.
  intros Hl [k ->]. unfold entry. rewrite <- Hl.
  now rewrite firstn_app, firstn_all, Nat.sub_diag, firstn_O, app_nil_r.
Qed.

(** One turn of the loop of [cleanup_local_files]. *)
Lemma hls_cleanup_entry_result
    (p q : path) (env : environment) (w : world) :
  (p `prefix_of` q -> p ∉ dom (files w)) ->
  let r := HlsDropbox.cleanup_entry p tt env w in
  r.1 = Ret tt
  /\ files r.2 !! q = files w !! q
  /\ forall x, x ∈ dom (files r.2) -> x ∈ dom (files w).
Proof.
  intros Hp. cbv zeta.
  unfold HlsDropbox.cleanup_entry, bind, get_world, Fs.is_file.
  destruct (bool_decide (p ∈ dom (files w))) eqn:E.
  - apply bool_decide_eq_true in E.
    unfold try_except, Fs.remove, bind, external, modify, ret.
    destruct (answer env (tick w)); cbn.
    + split; [reflexivity |]. split.
      * destruct (files w !! q) as [x|] eqn:Hq.
        -- apply map_lookup_filter_Some. split; [exact Hq |].
           intros Hpq. now apply Hp.
        -- apply map_lookup_filter_None. now left.
      * intros x Hx. apply elem_of_dom in Hx as [y Hy].
        apply map_lookup_filter_Some in Hy as [Hy _].
        apply elem_of_dom. eauto.
    + now repeat split.
  - now repeat split.
Qed.

Lemma hls_cleanup_loop_result (q : path) (env : environment)
    (ps : list (list string)) :
  forall w : world,
    (forall p, In p ps -> p `prefix_of` q -> p ∉ dom (files w)) ->
    let r := for_in ps HlsDropbox.cleanup_entry tt env w in
    r.1 = Ret tt /\ files r.2 !! q = files w !! q.
Proof.
  induction ps as [|p ps IH]; intros w Hps; cbv zeta; [now split |].
  cbn [for_in].
  destruct (hls_cleanup_entry_result p q env w) as (Hr & Hq & Hsub).
  { apply Hps. now left. }
  destruct (HlsDropbox.cleanup_entry p tt env w) as [[[] | e] w1] eqn:E;
    cbn [fst snd] in *; [| discriminate].
  assert (Hb : bind (HlsDropbox.cleanup_entry p tt)
                 (fun s' => for_in ps HlsDropbox.cleanup_entry s') env w
               = for_in ps HlsDropbox.cleanup_entry tt env w1)
    by (unfold bind; now rewrite E).
  rewrite Hb.
  destruct (IH w1) as [Hr2 Hq2].
  { intros p' Hin Hpre Hdom. apply (Hps p'); auto. now right. }
  split; [exact Hr2 | now rewrite Hq2].
Qed.

End HlsCleanupFacts.

(** X23.  [cleanup_local_files] of instagram_to_HLS_dropbox.py never
    raises and removes plain files only: a file that lies deeper, in a
    directory of the video folder, is left as it is. *)
Theorem cleanup_local_files_spares_directories
    (env : environment) (w : world) (q : list string) :
  Laws.entry q ∉ dom (files w) ->
  let r := HlsDropbox.cleanup_local_files env w in
  r.1 = Ret tt /\ files r.2 !! q = files w !! q.
Proof.
  intros Hentry. cbv zeta.
  assert (Hc : HlsDropbox.cleanup_local_files env w
               = if Fs.exists_ HlsDropbox.VIDEO_FOLDER w
                 then try_except
                        (for_in (Fs.iterdir HlsDropbox.VIDEO_FOLDER w)
                           HlsDropbox.cleanup_entry tt)
                        (fun _ => ret tt) env w
                 else (Ret tt, w)).
  { unfold HlsDropbox.cleanup_local_files, try_except, bind, get_world.
    now destruct (Fs.exists_ HlsDropbox.VIDEO_FOLDER w). }
  rewrite Hc. clear Hc.
  destruct (Fs.exists_ HlsDropbox.VIDEO_FOLDER w); [| now split].
  destruct (hls_cleanup_loop_result q env
              (Fs.iterdir HlsDropbox.VIDEO_FOLDER w) w) as [Hr Hq].
  { intros p Hin Hpre.
    rewrite (entry_unique p q (iterdir_entry_length _ _ _ Hin) Hpre).
    exact Hentry. }
  unfold try_except.
  destruct (for_in _ _ _ env w) as [[[] | e] w1]; cbn [fst snd] in *;
    [now split | discriminate].
Qed.

Lemma cleanup_local_files_spares_directories_witness :
  let w :=
    World 0 [] ∅ NoFile
      {[ ["video"; "a.mp4"] := File 1 ""; ["video"; "hls"; "a.ts"] := File 2 "" ]}
      ∅ in
  files (HlsDropbox.cleanup_local_files Scenario.all_fine w).2
    !! ["video"; "hls"; "a.ts"]
  = files w !! ["video"; "hls"; "a.ts"].
Proof.
  intros w.
  apply (cleanup_local_files_spares_directories Scenario.all_fine w
           ["video"; "hls"; "a.ts"]).
  vm_compute. intros H. discriminate H.
Defined.

Section TelegramJob.
Import Props Laws HlsDropbox.

Lemma send_error_contract (reason : string) :
  spec (send_error [0; 1; 2] (Failed reason))
    (fun _ evs => failure_notice reason evs) (fun _ _ => False).
Proof.
  assert (Htry : forall k,
             spec (try_except
                     (bind (sleep (k * 2))
                        (fun _ => bind (telegram (Failed reason))
                                    (fun _ => ret true)))
                     (fun _ => ret false))
               (fun sent evs =>
                  evs = [Sleep (k * 2); Telegram (Failed reason) sent])
               (fun _ _ => False)).
  { intros k.
    apply (spec_try_except _ _
             (fun sent evs =>
                sent = true
                /\ evs = [Sleep (k * 2); Telegram (Failed reason) true])
             (fun _ evs =>
                evs = [Sleep (k * 2); Telegram (Failed reason) false])).
    - run; [reflexivity | now split].
    - now intros sent evs [-> ->].
    - intros e evs ->. apply spec_ret. reflexivity. }
  cbn [send_error].
  eapply spec_bind; [apply (Htry 0) | auto |]. cbv beta.
  intros [] evs1 ->; [apply spec_ret; now left |].
  eapply spec_bind; [apply (Htry 1) | auto |]. cbv beta.
  intros [] evs2 ->; [apply spec_ret; right; now left |].
  eapply spec_bind; [apply (Htry 2) | auto |]. cbv beta.
  intros sent evs3 ->.
  assert (Hlast : failure_notice reason
                    ([Sleep (0 * 2); Telegram (Failed reason) false]
                     ++ [Sleep (1 * 2); Telegram (Failed reason) false]
                     ++ [Sleep (2 * 2); Telegram (Failed reason) sent] ++ []))
    by (right; right; now exists sent).
  destruct sent; apply spec_ret; exact Hlast.
Qed.

End TelegramJob.

(** X24.  The Telegram job of instagram_to_HLS_dropbox.py never raises.
    When its job body returns, the job ends there: it has slept nowhere and
    reported no failure.  When the job body raises at any step, the job
    tries to send the failure message, which carries the text of that
    exception, up to three times, after 0, 2 and 4 seconds, stopping at the
    first message that gets through; after that it only cleans up. *)
Theorem telegram_job_reports_failure
    (url : string) (env : environment) (w : world) :
  let r := HlsDropbox.process_instagram_url url env w in
  r.1 = Ret tt
  /\ match HlsDropbox.process url env w with
     | (Ret _, w1) =>
         r.2 = w1
         /\ exists evs, trace w1 = trace w ++ evs /\ Props.schedule evs = []
     | (Raise e, w1) =>
         exists notice cleanup,
           trace r.2 = trace w1 ++ notice ++ cleanup
           /\ Laws.failure_notice (exn_msg e) notice
           /\ Forall (fun ev => Props.housekeeping ev = true) cleanup
     end.
Proof.
  cbv zeta.
  destruct (process_uncontrolled url env w) as [evs1 [Ht1 Hr1]].
  destruct (HlsDropbox.process url env w) as [[[] | e] w1] eqn:E;
    cbn [fst snd] in *.
  - unfold HlsDropbox.process_instagram_url, try_except. rewrite E.
    cbn [fst snd]. split; [reflexivity |]. split; [reflexivity |].
    exists evs1. split; [exact Ht1 | now apply uncontrolled_schedule].
  - assert (Hrun : HlsDropbox.process_instagram_url url env w
                   = bind (HlsDropbox.send_error [0; 1; 2] (Failed (exn_msg e)))
                       (fun _ =>
                          try_except HlsDropbox.cleanup_local_files
                            (fun _ => ret tt)) env w1).
    { unfold HlsDropbox.process_instagram_url, try_except at 1.
      now rewrite E. }
    rewrite Hrun. clear Hrun. unfold bind.
    destruct (send_error_contract (exn_msg e) env w1) as [evs2 [Ht2 Hr2]].
    destruct (HlsDropbox.send_error [0; 1; 2] (Failed (exn_msg e)) env w1)
      as [[[] | e'] w2]; cbn [fst snd] in *; [| contradiction].
    destruct (cleanup_housekeeping env w2) as [evs3 [Ht3 Hr3]].
    unfold try_except.
    destruct (HlsDropbox.cleanup_local_files env w2) as [[[] | e''] w3];
      unfold ret; cbn [fst snd] in *; (split; [reflexivity |]);
      exists evs2, evs3; rewrite Ht3, Ht2, <- app_assoc; auto.
Qed.

(* ===================================================================== *)
(** * instagram_to_HLS_dropbox.py: the ledger is updated once, after the
      upload, over all attempts *)
(* ===================================================================== *)

Section HlsShapeFacts.
Import Props Laws.

Lemma unmarked_of_emits (evs : list event) :
  Forall (fun e => negb (is_marked e) = true) evs ->
  Forall (fun e => is_marked e = false) evs.
Proof.
  intros H. eapply Forall_impl; [exact H |].
  intros e He. now apply negb_true_iff in He.
Qed.

(** A program all of whose events pass the test. *)
Lemma spec_unmarked {A} (m : M A) :
  emits (fun e => negb (is_marked e)) m ->
  spec m (fun _ evs => Forall (fun e => is_marked e = false) evs)
         (fun _ evs => Forall (fun e => is_marked e = false) evs).
Proof.
  intros H. eapply spec_conseq; [exact H | |]; cbv beta;
    intros ? evs; apply unmarked_of_emits.
Qed.

(** Two contracts of one program hold together. *)
Lemma spec_and {A} (m : M A) (R1 R2 : A -> list event -> Prop)
    (E1 E2 : exn -> list event -> Prop) :
  spec m R1 E1 -> spec m R2 E2 ->
  spec m (fun a evs => R1 a evs /\ R2 a evs)
         (fun e evs => E1 e evs /\ E2 e evs).
Proof.
  intros H1 H2 env w.
  destruct (H1 env w) as [evs [Ht Hr1]]. destruct (H2 env w) as [evs' [Ht' Hr2]].
  rewrite Ht in Ht'. apply app_inv_head in Ht'. subst evs'.
  exists evs. split; [exact Ht |]. now destruct (m env w).1.
Qed.

Lemma in_sublist (x : event) (l : list event) : In x l -> [x] `sublist_of` l.
Proof.
  intros H. apply in_split in H as (l1 & l2 & ->).
  apply sublist_inserts_l, sublist_skip, sublist_nil_l.
Qed.

Lemma delivered_prepend (url : string) (evs0 evs : list event) :
  delivered url evs -> delivered url (evs0 ++ evs).
Proof.
  intros (f & args & remote & body & H). exists f, args, remote, body.
  now apply sublist_inserts_l.
Qed.

Lemma settled_unmarked (evs : list event) :
  Forall (fun e => settled e = true) evs ->
  Forall (fun e => is_marked e = false) evs.
Proof.
  intros H. eapply Forall_impl; [exact H |].
  intros e He. unfold settled in He. apply negb_true_iff in He.
  now apply orb_false_elim in He as [Hm _].
Qed.

Lemma hls_shape_prepend (url : string) (evs0 evs : list event) :
  Forall (fun e => is_marked e = false) evs0 ->
  hls_shape url evs -> hls_shape url (evs0 ++ evs).
Proof.
  intros H0 [Hq | (pre & post & -> & Hd & Hpre & Hpost)].
  - left. apply Forall_app. now split.
  - right. exists (evs0 ++ pre), post. rewrite app_assoc.
    split; [reflexivity |]. split; [now apply delivered_prepend |].
    split; [apply Forall_app; now split | assumption].
Qed.

Lemma hls_shape_append (url : string) (evs evs' : list event) :
  Forall (fun e => settled e = true) evs' ->
  hls_shape url evs -> hls_shape url (evs ++ evs').
Proof.
  intros H' [Hq | (pre & post & -> & Hd & Hpre & Hpost)].
  - left. apply Forall_app. split; [assumption | now apply settled_unmarked].
  - right. exists pre, (post ++ evs'). rewrite <- app_assoc.
    split; [reflexivity |]. split; [assumption |].
    split; [assumption | apply Forall_app; now split].
Qed.

Lemma hls_shape_discipline (url : string) (evs : list event) :
  hls_shape url evs -> hls_discipline url evs.
Proof.
  intros [Hq | (pre & post & -> & Hd & Hpre & Hpost)].
  - intros pre id post ->. apply Forall_app in Hq as [_ Hq].
    apply Forall_cons in Hq as [Hq _]. discriminate.
  - intros pre' id post' Heq.
    destruct (split_unique _ _ _ _ _ _ Heq eq_refl eq_refl Hpre
                (settled_unmarked _ Hpost))
      as (<- & [= <-] & <-).
    auto.
Qed.

End HlsShapeFacts.

Section HlsContracts.
Import Props Laws HlsDropbox.

Lemma hls_download_contract (url : string) :
  spec (download_instagram_video url)
    (fun f evs => evs = [YtDlp url true; Log (DownloadedTo f)])
    (fun _ evs => evs = [YtDlp url false]).
Proof.
  unfold download_instagram_video.
  apply (spec_try_except _ _
           (fun f evs => evs = [YtDlp url true; Log (DownloadedTo f)])
           (fun _ evs => evs = [YtDlp url false])).
  - unfold Fs.written. run; reflexivity.
  - auto.
  - intros e evs ->. apply spec_raise. reflexivity.
Qed.

#[local] Hint Resolve video_info_contract : contracts.

Lemma hls_compress_events (p : path) :
  spec (compress_video p)
    (fun _ evs => exists args, In (Ffmpeg p args true) evs) (fun _ _ => True).
Proof.
  unfold compress_video.
  apply (spec_try_except _ _
           (fun _ evs => exists args, In (Ffmpeg p args true) evs)
           (fun _ _ => True)).
  - cbv zeta. run; try exact I.
    unfold value_error.
    destruct (HlsPlanner.duration_of _); run; try exact I.
    destruct (HlsPlanner.current_bitrate_kbps _ _ _); run; try exact I.
    eexists. rewrite !in_app_iff. simpl. eauto 10.
  - auto.
  - intros e evs _. destruct (exn_cls e); apply spec_raise; exact I.
Qed.

Lemma hls_compress_unmarked (p : path) :
  emits (fun e => negb (is_marked e)) (compress_video p).
Proof.
  unfold compress_video, get_video_info, value_error, Fs.remove. emits_all.
Qed.

Lemma hls_compress_contract (p : path) :
  spec (compress_video p)
    (fun _ evs => Forall (fun e => is_marked e = false) evs
                  /\ exists args, In (Ffmpeg p args true) evs)
    (fun _ evs => Forall (fun e => is_marked e = false) evs).
Proof.
  eapply spec_conseq.
  - apply spec_and; [apply spec_unmarked, hls_compress_unmarked
                    | apply hls_compress_events].
  - auto.
  - now intros e evs [H _].
Qed.

Lemma hls_upload_events (p : path) :
  spec (upload_to_dropbox p)
    (fun _ evs => exists remote body, In (FilesUpload remote body true) evs)
    (fun _ _ => True).
Proof.
  unfold upload_to_dropbox.
  apply (spec_try_except _ _
           (fun _ evs =>
              exists remote body, In (FilesUpload remote body true) evs)
           (fun _ _ => True)).
  - cbv zeta. run; try exact I.
    apply (spec_try_except _ _
             (fun _ evs => evs = [CreateLink ("/" +:+ Fs.name p) true])
             (fun _ evs => evs = [CreateLink ("/" +:+ Fs.name p) false])).
    + run; reflexivity.
    + intros url evs ->. eexists _, _. rewrite !in_app_iff. simpl. eauto 10.
    + intros e evs ->.
      destruct (exn_cls e); try (apply spec_raise; exact I).
      destruct (PyStr.contains _ _); [| apply spec_raise; exact I].
      run; try exact I.
      destruct a2; run; try exact I.
      eexists _, _. rewrite !in_app_iff. simpl. eauto 10.
  - auto.
  - intros e evs _. apply spec_raise. exact I.
Qed.

Lemma hls_upload_unmarked (p : path) :
  emits (fun e => negb (is_marked e)) (upload_to_dropbox p).
Proof. unfold upload_to_dropbox. emits_all. Qed.

Lemma hls_upload_contract (p : path) :
  spec (upload_to_dropbox p)
    (fun _ evs => Forall (fun e => is_marked e = false) evs
                  /\ exists remote body, In (FilesUpload remote body true) evs)
    (fun _ evs => Forall (fun e => is_marked e = false) evs).
Proof.
  eapply spec_conseq.
  - apply spec_and; [apply spec_unmarked, hls_upload_unmarked
                    | apply hls_upload_events].
  - auto.
  - now intros e evs [H _].
Qed.

Lemma hls_cleanup_settled : emits settled cleanup_local_files.
Proof. unfold cleanup_local_files, cleanup_entry, Fs.remove. emits_all. Qed.

Lemma hls_cleanup_contract :
  spec cleanup_local_files
    (fun _ evs => Forall (fun e => settled e = true) evs)
    (fun _ evs => Forall (fun e => settled e = true) evs).
Proof. exact hls_cleanup_settled. Qed.

Lemma hls_setup_contract :
  spec setup_directories
    (fun _ evs => Forall (fun e => is_marked e = false) evs)
    (fun _ evs => Forall (fun e => is_marked e = false) evs).
Proof. apply spec_unmarked. unfold setup_directories, Fs.mkdir. emits_all. Qed.

#[local] Hint Resolve hls_download_contract hls_compress_contract
  hls_upload_contract hls_cleanup_contract hls_setup_contract : contracts.

Lemma delivered_steps (url : string) (f : path) (n0 n1 n2 ec eu : list event)
    (args : ffmpeg_args) (g : path) (remote body : string) :
  In (Ffmpeg g args true) ec -> In (FilesUpload remote body true) eu ->
  delivered url
    (n0 ++ [YtDlp url true; Log (DownloadedTo f)] ++ n1 ++ ec ++ n2 ++ eu).
Proof.
  intros Hc Hu. exists g, args, remote, body.
  change [YtDlp url true; Ffmpeg g args true; FilesUpload remote body true]
    with ([YtDlp url true] ++ [Ffmpeg g args true]
          ++ [FilesUpload remote body true]).
  apply sublist_inserts_l.
  change [YtDlp url true; Log (DownloadedTo f)]
    with ([YtDlp url true] ++ [Log (DownloadedTo f)]).
  rewrite <- app_assoc. apply sublist_app; [reflexivity |].
  apply sublist_inserts_l, sublist_inserts_l.
  apply sublist_app; [now apply in_sublist |].
  apply sublist_inserts_l. now apply in_sublist.
Qed.

Lemma process_shape (url : string) :
  spec (process url) (fun _ evs => hls_shape url evs)
                     (fun _ evs => hls_shape url evs).
Proof.
  unfold process. run. destruct a; run; try solve [left; all_events].
  all: right.
  all: lazymatch goal with
       | |- exists pre post,
             [] ++ ?n0 ++ ?t1 ++ ?dl ++ ?t2 ++ ?ec ++ ?t3 ++ ?eu
             ++ [Marked _; ?wl] ++ ?t = _ /\ _ =>
           exists ((n0 ++ t1) ++ dl ++ t2 ++ ec ++ t3 ++ eu), (wl :: t)
       end.
  all: split; [rewrite <- !app_assoc; reflexivity |].
  all: split; [eapply delivered_steps; eassumption |].
  all: split; [all_events |].
  all: repeat first [rewrite Forall_app | rewrite Forall_cons
                    | rewrite Forall_nil];
    repeat split; try reflexivity; assumption.
Qed.

(** On a known identifier the job body tells of no ledger update. *)
Lemma process_duplicate_unmarked
    (url : string) (env : environment) (w : world) :
  ContentIdentity.extract_video_id url ∈ processed w ->
  exists evs,
    trace (process url env w).2 = trace w ++ evs
    /\ Forall (fun e => is_marked e = false) evs.
Proof.
  intros H. rewrite (process_skips_duplicate url env w H).
  destruct (spec_telegram AlreadyProcessed env w) as [evs [Ht Hr]].
  exists evs. split; [exact Ht |].
  destruct (telegram AlreadyProcessed env w).1; subst evs;
    now repeat constructor.
Qed.

End HlsContracts.

Section HlsAttempts.
Import Props Laws HlsDropbox.

Lemma attempt_as_attempt_with (url : string) (retry_count : Z) :
  attempt url retry_count = attempt_with (process url) retry_count.
Proof. reflexivity. Qed.

(** On a known identifier the turn runs as if its body were the "already
    processed" message alone. *)
Lemma attempt_on_duplicate
    (url : string) (retry_count : Z) (env : environment) (w : world) :
  ContentIdentity.extract_video_id url ∈ processed w ->
  attempt url retry_count env w
  = attempt_with (telegram AlreadyProcessed) retry_count env w.
Proof.
  intros H. rewrite attempt_as_attempt_with.
  unfold attempt_with, try_except, bind, sleep, emit, modify.
  now rewrite process_skips_duplicate by exact H.
Qed.

Lemma attempt_duplicate_settled (retry_count : Z) :
  emits settled (attempt_with (telegram AlreadyProcessed) retry_count).
Proof.
  unfold attempt_with. cbv zeta.
  apply emits_try_except; [| intros e].
  - apply emits_bind; [unfold sleep; emits_all | intros _].
    apply emits_bind; [| intros _; unfold logger; emits_all].
    apply emits_try_except; [unfold telegram; emits_all | intros e].
    apply emits_bind; [unfold telegram; emits_all | intros _].
    apply emits_bind; [| intros _; emits_all].
    apply emits_try_except; [apply hls_cleanup_settled | intros; emits_all].
  - unfold logger, telegram. emits_all.
Qed.

Lemma process_in_thread_shape (url : string) :
  spec (process_in_thread url) (fun _ evs => hls_shape url evs)
                               (fun _ evs => hls_shape url evs).
Proof.
  unfold process_in_thread.
  apply (spec_try_except _ _ (fun _ evs => hls_shape url evs)
                             (fun _ evs => hls_shape url evs)).
  - apply process_shape.
  - auto.
  - intros e evs1 H1.
    eapply spec_conseq.
    + apply (emits_bind settled); [| intros _; apply emits_bind; [| intros _]].
      * unfold telegram. emits_all.
      * apply emits_try_except; [apply hls_cleanup_settled | intros; emits_all].
      * emits_all.
    + cbv beta. intros _ evs2 H2. now apply hls_shape_append.
    + cbv beta. intros _ evs2 H2. now apply hls_shape_append.
Qed.

Lemma attempt_shape_or_raise (url : string) (retry_count : Z) :
  spec (attempt url retry_count) (fun _ evs => hls_shape url evs)
                                 (fun _ _ => True).
Proof.
  unfold attempt.
  apply (spec_try_except _ _ (fun _ evs => hls_shape url evs)
                             (fun _ evs => hls_shape url evs)).
  - eapply spec_bind; [apply spec_emit | intros ? ? [] |]. cbv beta.
    intros _ evs0 ->.
    eapply spec_bind; [apply process_in_thread_shape | |]; cbv beta.
    + intros e evs H. apply hls_shape_prepend; [now repeat constructor | exact H].
    + intros _ evs1 H1. run.
      apply hls_shape_prepend; [now repeat constructor |].
      apply hls_shape_append; [now repeat constructor | exact H1].
  - auto.
  - intros e evs1 H1. cbv zeta.
    eapply spec_conseq.
    + apply (emits_bind settled); [unfold logger; emits_all | intros _].
      destruct (max_retries <=? retry_count + 1);
        unfold logger, telegram; emits_all.
    + cbv beta. intros _ evs2 H2. now apply hls_shape_append.
    + auto.
Qed.

Lemma attempt_shape (url : string) (retry_count : Z) :
  spec (attempt url retry_count) (fun _ evs => hls_shape url evs)
                                 (fun _ _ => False).
Proof.
  eapply spec_conseq.
  - apply spec_and;
      [apply attempt_shape_or_raise | apply (attempt_contract url retry_count)].
  - now intros a evs [H _].
  - now intros e evs [_ H].
Qed.

(** One turn of the loop: what it tells and what it leaves in the
    ledger. *)
Lemma attempt_facts
    (url : string) (retry_count : Z) (env : environment) (w : world) :
  let id := ContentIdentity.extract_video_id url in
  let r := attempt url retry_count env w in
  exists evs,
    trace r.2 = trace w ++ evs
    /\ (exists next, r.1 = Ret next)
    /\ hls_shape url evs
    /\ (id ∈ processed w -> Forall (fun e => settled e = true) evs)
    /\ (Exists (fun e => is_marked e = true) evs -> id ∈ processed r.2)
    /\ (id ∈ processed w -> id ∈ processed r.2).
Proof.
  cbv zeta.
  destruct (attempt_shape url retry_count env w) as [evs [Ht Hs]].
  destruct (keeps_attempt url retry_count env w)
    as (_ & Hstep & (evs' & Ht' & Hm) & _).
  rewrite Ht in Ht'. apply app_inv_head in Ht'. subst evs'.
  exists evs. split; [exact Ht |].
  split; [destruct (attempt url retry_count env w).1; [eauto | contradiction] |].
  split; [now destruct (attempt url retry_count env w).1 |].
  split; [| split; [exact Hm |]].
  - intros Hdup.
    destruct (attempt_duplicate_settled retry_count env w) as [evs2 [Ht2 Hs2]].
    rewrite <- (attempt_on_duplicate url retry_count env w Hdup) in Ht2, Hs2.
    rewrite Ht in Ht2. apply app_inv_head in Ht2. subst evs2.
    now destruct (attempt url retry_count env w).1.
  - intros Hin. now apply (ledger_step_grows _ _ _ Hstep).
Qed.

Lemma while_retries_shape (url : string) (env : environment) (fuel : nat) :
  forall (retry_count : Z) (w : world),
    let id := ContentIdentity.extract_video_id url in
    let r := while_retries fuel url retry_count env w in
    exists evs,
      trace r.2 = trace w ++ evs
      /\ hls_shape url evs
      /\ (id ∈ processed w -> Forall (fun e => settled e = true) evs).
Proof.
  induction fuel as [|fuel IH]; intros rc w; cbv zeta.
  - cbn. exists []. rewrite app_nil_r.
    split; [reflexivity |]. split; [left |]; constructor.
  - cbn [while_retries].
    destruct (rc <? max_retries).
    2: { cbn. exists []. rewrite app_nil_r.
         split; [reflexivity |]. split; [left |]; constructor. }
    destruct (attempt_facts url rc env w)
      as (evs1 & Ht1 & [next Hr] & Hs1 & Hd1 & Hm1 & Hk1).
    unfold bind.
    destruct (attempt url rc env w) as [r1 w1]. cbn [fst snd] in *.
    subst r1. destruct next as [rc' |].
    2: { exists evs1. now repeat split. }
    destruct (IH rc' w1) as (evs2 & Ht2 & Hs2 & Hd2).
    exists (evs1 ++ evs2). split; [now rewrite Ht2, Ht1, app_assoc |].
    split.
    + destruct Hs1 as [Hq | (pre & post & -> & Hdel & Hpre & Hpost)].
      * now apply hls_shape_prepend.
      * apply hls_shape_append; [| right; now exists pre, post].
        apply Hd2, Hm1, Exists_app. right. now left.
    + intros Hin. apply Forall_app. split; [now apply Hd1 |].
      now apply Hd2, Hk1.
Qed.

Lemma process_instagram_url_shape (url : string) :
  spec (process_instagram_url url) (fun _ evs => hls_shape url evs)
                                   (fun _ evs => hls_shape url evs).
Proof.
  unfold process_instagram_url.
  apply (spec_try_except _ _ (fun _ evs => hls_shape url evs)
                             (fun _ evs => hls_shape url evs)).
  - apply process_shape.
  - auto.
  - intros e evs1 H1.
    assert (Hsend : forall attempts n, emits settled (send_error attempts n)).
    { induction attempts as [|a attempts IHa]; intros n; cbn [send_error];
        [emits_all |].
      apply emits_bind; [unfold sleep, telegram; emits_all | intros sent].
      destruct sent; [emits_all | apply IHa]. }
    eapply spec_conseq.
    + apply (emits_bind settled); [apply Hsend | intros _].
      apply emits_try_except; [apply hls_cleanup_settled | intros; emits_all].
    + cbv beta. intros _ evs2 H2. now apply hls_shape_append.
    + cbv beta. intros _ evs2 H2. now apply hls_shape_append.
Qed.

End HlsAttempts.

(** X25.  In instagram_to_HLS_dropbox.py, on the Telegram job and on the
    HTTP job with all its attempts taken together, the ledger is updated
    once at most: with the identifier of the submitted URL, after the
    download, the compression and the upload have returned, in that order.
    After the update no work is done any more, neither in the attempt that
    made it nor in a later one: an attempt that follows it finds the video
    in the ledger. *)
Theorem hls_ledger_updated_once :
  (forall url env w,
      exists evs,
        trace (HlsDropbox.process_instagram_url url env w).2 = trace w ++ evs
        /\ Laws.hls_discipline url evs)
  /\ (forall url env w,
        exists evs,
          trace (HlsDropbox.background_process url env w).2 = trace w ++ evs
          /\ Laws.hls_discipline url evs).
Proof.
  split; intros url env w.
  - destruct (process_instagram_url_shape url env w) as [evs [Ht Hs]].
    exists evs. split; [exact Ht |]. apply hls_shape_discipline.
    now destruct (HlsDropbox.process_instagram_url url env w).1.
  - destruct (while_retries_shape url env
                (Z.to_nat HlsDropbox.max_retries) 0 w) as (evs & Ht & Hs & _).
    exists evs. split; [exact Ht |]. now apply hls_shape_discipline.
Qed.

(* ===================================================================== *)
(** * main.py: playlists are uploaded after the segments *)
(* ===================================================================== *)

Section UploadOrder.
Import Props Laws Main.

Lemma append_inv_head (a b c : string) : a +:+ b = a +:+ c -> b = c.
Proof.
  induction a as [|x a IH]; [auto |].
  rewrite !append_cons. intros [= H]. now apply IH.
Qed.

Lemma remote_of_name (folder : string) (f g : path) :
  remote_of folder f = remote_of folder g -> Fs.suffix f = Fs.suffix g.
Proof.
  unfold remote_of. intros H.
  apply append_inv_head, append_inv_head in H.
  unfold Fs.suffix. now rewrite H.
Qed.

Lemma upload_segment_phase (folder : string) (fs : list (list string))
    (f : path) (urls : gmap string string) :
  In f fs ->
  spec (upload_segment folder f urls)
    (fun _ evs => Forall (segment_phase folder fs) evs)
    (fun _ evs => Forall (segment_phase folder fs) evs).
Proof.
  intros Hf. unfold upload_segment. cbv zeta.
  assert (Hup : forall data ok,
             segment_phase folder fs
               (FilesUpload (remote_of folder f) data ok))
    by (intros; now exists f).
  eapply spec_bind; [apply spec_read_bytes | |]; cbv beta.
  { intros e evs ->. constructor. }
  intros data evs0 ->.
  eapply spec_bind; [apply spec_external | |]; cbv beta.
  { intros e evs ->. repeat constructor. apply Hup. }
  intros n evs1 ->.
  unfold share_segment.
  apply (spec_try_except _ _
           (fun _ evs => evs = [CreateLink (remote_of folder f) true])
           (fun _ evs => evs = [CreateLink (remote_of folder f) false])).
  - run; reflexivity.
  - intros a evs ->. repeat constructor. apply Hup.
  - intros e evs ->.
    destruct (PyStr.contains _ _); run; repeat constructor; try apply Hup.
    destruct a0; run; repeat constructor; apply Hup.
Qed.

Lemma segments_phase (folder : string) (fs : list (list string))
    (urls : gmap string string) :
  spec (for_in fs (upload_segment folder) urls)
    (fun _ evs => Forall (segment_phase folder fs) evs)
    (fun _ evs => Forall (segment_phase folder fs) evs).
Proof.
  apply (spec_for_in (fun evs => Forall (segment_phase folder fs) evs)
                     (fun evs => Forall (segment_phase folder fs) evs))
    with (evs0 := []); [| constructor].
  intros f urls' evs0 Hf H0.
  eapply spec_conseq; [apply (upload_segment_phase folder fs f urls' Hf) | |];
    cbv beta; intros ? evs H; apply Forall_app; now split.
Qed.

(** A playlist is not uploaded in the first loop. *)
Lemma playlist_not_in_phase (folder : string) (w : world) (d pl : path)
    (body : string) (ok : bool) :
  In pl (with_suffix ".m3u8" w d) ->
  ~ segment_phase folder (with_suffix ".ts" w d)
      (FilesUpload (remote_of folder pl) body ok).
Proof.
  intros Hpl (f & Hf & Heq).
  unfold with_suffix in Hpl, Hf.
  apply list_elem_of_In, list_elem_of_filter in Hpl as [Hpl _].
  apply list_elem_of_In, list_elem_of_filter in Hf as [Hf _].
  apply remote_of_name in Heq. congruence.
Qed.

Lemma split_after (l1 l2 pre post : list event) (x : event)
    (P : event -> Prop) :
  Forall P l1 -> ~ P x -> l1 ++ l2 = pre ++ x :: post ->
  exists pre', pre = l1 ++ pre'.
Proof.
  revert pre. induction l1 as [|a l1 IH]; intros pre Hall Hx Heq.
  - now exists pre.
  - apply Forall_cons in Hall as [Ha Hall].
    destruct pre as [|b pre]; simpl in Heq; injection Heq as -> Heq.
    + contradiction.
    + destruct (IH pre Hall Hx Heq) as [pre' ->]. now exists pre'.
Qed.

Lemma all_uploaded_app (folder : string) (fs : list (list string))
    (evs evs' : list event) :
  all_uploaded folder fs evs -> all_uploaded folder fs (evs ++ evs').
Proof.
  intros H f Hf. destruct (H f Hf) as [b Hb]. exists b.
  apply in_or_app. now left.
Qed.

End UploadOrder.

(** X26.  [upload_hls_folder] uploads a playlist only after every segment
    of the folder: at the moment a playlist of the folder is uploaded, each
    [.ts] file of the folder has been uploaded, and that upload has
    returned.  A segment whose upload raises thus keeps every playlist
    back. *)
Theorem playlists_follow_segments
    (local_dir : list string) (base : string)
    (env : environment) (w : world) :
  let folder := base +:+ "/" +:+ Fs.name local_dir in
  exists evs,
    trace (Main.upload_hls_folder local_dir base env w).2 = trace w ++ evs
    /\ forall pre pl body ok post,
         evs = pre ++ FilesUpload (Main.remote_of folder pl) body ok :: post ->
         In pl (Main.with_suffix ".m3u8" w local_dir) ->
         Props.all_uploaded folder (Main.with_suffix ".ts" w local_dir) pre.
Proof.
  cbv zeta. set (folder := base +:+ "/" +:+ Fs.name local_dir).
  set (ts := Main.with_suffix ".ts" w local_dir).
  assert (Heq : Main.upload_hls_folder local_dir base env w
                = if negb (Fs.exists_ local_dir w)
                  then (Raise (Exn FileNotFoundError "HLS folder not found"), w)
                  else
                    bind (for_in ts (Main.upload_segment folder) ∅)
                      (fun segment_urls =>
                       bind get_world (fun w' =>
                       bind (for_in (Main.with_suffix ".m3u8" w' local_dir)
                               (Main.upload_playlist folder segment_urls) tt)
                         (fun _ => logger (UploadComplete (Fs.name local_dir)))))
                      env w).
  { unfold Main.upload_hls_folder, bind at 1, get_world at 1.
    now destruct (negb (Fs.exists_ local_dir w)). }
  rewrite Heq. clear Heq.
  destruct (negb (Fs.exists_ local_dir w)).
  { exists []. rewrite app_nil_r. split; [reflexivity |].
    intros pre pl body ok post H. now destruct pre. }
  destruct (segments_phase folder ts ∅ env w) as [evs1 [Ht1 Hph]].
  unfold bind at 1.
  destruct (for_in ts (Main.upload_segment folder) ∅ env w)
    as [[urls | e] w1] eqn:E1; cbn [fst snd] in *.
  - destruct (upload_segments_cover _ _ _ _ _ _ _ E1)
      as (Hf & Hd & evs1' & Ht1' & Hall).
    rewrite Ht1 in Ht1'. apply app_inv_head in Ht1'. subst evs1'.
    assert (Hrest : exists evs2,
               trace (bind get_world (fun w' =>
                        bind (for_in (Main.with_suffix ".m3u8" w' local_dir)
                                (Main.upload_playlist folder urls) tt)
                          (fun _ => logger (UploadComplete (Fs.name local_dir))))
                        env w1).2 = trace w1 ++ evs2).
    { assert (Hs : Props.spec
                     (bind get_world (fun w' =>
                        bind (for_in (Main.with_suffix ".m3u8" w' local_dir)
                                (Main.upload_playlist folder urls) tt)
                          (fun _ => logger (UploadComplete (Fs.name local_dir)))))
                     (fun _ _ => True) (fun _ _ => True)).
      { eapply spec_conseq; [| auto | auto].
        apply (emits_bind (fun _ => true)); [emits_all | intros w'].
        unfold Main.upload_playlist, logger. emits_all. }
      destruct (Hs env w1) as [evs2 [Ht2 _]]. now exists evs2. }
    destruct Hrest as [evs2 Ht2].
    exists (evs1 ++ evs2). split; [now rewrite Ht2, Ht1, app_assoc |].
    intros pre pl body ok post Hsplit Hpl.
    destruct (split_after evs1 evs2 pre post _ _ Hph
                (playlist_not_in_phase folder w local_dir pl body ok Hpl)
                Hsplit) as [pre' ->].
    now apply all_uploaded_app.
  - exists evs1. split; [exact Ht1 |].
    intros pre pl body ok post Hsplit Hpl. exfalso.
    apply (playlist_not_in_phase folder w local_dir pl body ok Hpl).
    rewrite Forall_forall in Hph. apply Hph.
    rewrite Hsplit. apply list_elem_of_In, in_or_app. right. now left.
Qed.
